(** * Rooted Elegance theme: ZIP-to-zone lookup, zone audit and plant-name matcher

  A shallow embedding of the decision logic of
  - the zone-selector widget (getZoneFromZip and its embedded tables),
  - the zone lookup test script (getZoneFromLookup),
  - scripts/populate-zones.js (extractPlantName, normalizeZoneFormat,
    needsNormalization, lookupZones),
  - the zone format audit script (analyzeZoneFormat),
  and of the code around them: the product loop and updateProductZones
  of populate-zones.js, the classification loop of the audit script,
  the form and the badges of the zone-selector widget, the Shop by
  Growing Zone page, and the suite and CSV loader of the zone lookup
  test script; followed by the properties proved about them. *)

From Stdlib Require Import String Ascii NArith ZArith Bool Arith Lia List.
From Stdlib Require Import Sorting.Sorted Sorting.Permutation.
Import ListNotations.

Set Implicit Arguments.

(* ================================================================== *)
(** * Part I -- the program                                            *)
(* ================================================================== *)

(** ** JavaScript strings and values

  A JavaScript string is a sequence of UTF-16 code units; [length],
  [substring], [includes], [replace], [split] and [trim] all work on code
  units, so a string is modelled as a list of code units. *)
Module Js.

Definition jsstring := list N.

(** String literals of the source that are plain ASCII. *)
Definition u (s : string) : jsstring :=
  map N_of_ascii (list_ascii_of_string s).

Fixpoint str_eqb (a b : jsstring) : bool :=
  match a, b with
  | [], [] => true
  | x :: a', y :: b' => N.eqb x y && str_eqb a' b'
  | _, _ => false
  end.

Definition inRange (lo hi c : N) : bool := N.leb lo c && N.leb c hi.

(** [\d] *)
Definition isDigit (c : N) : bool := inRange 48 57 c.

(** LineTerminator: LF, CR, LS, PS. *)
Definition isLineTerminator (c : N) : bool :=
  N.eqb c 10 || N.eqb c 13 || N.eqb c 8232 || N.eqb c 8233.

(** [\s], and the characters [trim] removes: WhiteSpace and
    LineTerminator of ECMAScript. *)
Definition isSpace (c : N) : bool :=
  inRange 9 13 c || N.eqb c 32 || N.eqb c 160 || N.eqb c 5760
  || inRange 8192 8202 c || N.eqb c 8232 || N.eqb c 8233
  || N.eqb c 8239 || N.eqb c 8287 || N.eqb c 12288 || N.eqb c 65279.

(** [toLowerCase], code unit by code unit, on Basic Latin and the
    Latin-1 Supplement (A-Z, and U+00C0-U+00DE without the multiplication
    sign); every other code unit is carried unchanged. *)
Definition lowerUnit (c : N) : N :=
  if inRange 65 90 c then (c + 32)%N
  else if inRange 192 222 c && negb (N.eqb c 215) then (c + 32)%N
  else c.

Definition toLowerCase (s : jsstring) : jsstring := map lowerUnit s.

(** The code units on which [lowerUnit] is all of toLowerCase: Basic
    Latin and the Latin-1 Supplement, and the uncased units the scripts
    name, the trade mark sign and the white space of [\s]. A string of
    such units holds no surrogate and no letter whose lowercase form is
    longer or depends on its neighbours, so toLowerCase maps it unit by
    unit, as [lowerUnit] does. Beyond them (U+014C, a surrogate pair)
    [toLowerCase] above is not the function of the source, and what is
    proved about the letters of a title is proved for [latinText]. *)
Definition latinUnit (c : N) : bool :=
  N.ltb c 256 || N.eqb c 8482 || isSpace c.

Definition latinText (s : jsstring) : bool := forallb latinUnit s.

(** [s.substring(a, b)]; the two indices are swapped when [a > b] and
    clamped to the length. *)
Definition substring (a b : nat) (s : jsstring) : jsstring :=
  let lo := Nat.min a b in
  let hi := Nat.max a b in
  firstn (hi - lo) (skipn lo s).

Fixpoint startsWith (p s : jsstring) : bool :=
  match p, s with
  | [], _ => true
  | x :: p', y :: s' => N.eqb x y && startsWith p' s'
  | _ :: _, [] => false
  end.

(** [s.includes(k)] *)
Fixpoint includes (s k : jsstring) : bool :=
  startsWith k s ||
  match s with
  | [] => false
  | _ :: s' => includes s' k
  end.

(** [s.replace(pat, rep)] with a string pattern: only the first
    occurrence is replaced. *)
Fixpoint replaceStr (pat rep s : jsstring) : jsstring :=
  if startsWith pat s then rep ++ skipn (length pat) s
  else match s with
       | [] => []
       | c :: s' => c :: replaceStr pat rep s'
       end.

Fixpoint trimStart (s : jsstring) : jsstring :=
  match s with
  | [] => []
  | c :: s' => if isSpace c then trimStart s' else s
  end.

Definition trimEnd (s : jsstring) : jsstring := rev (trimStart (rev s)).

Definition trim (s : jsstring) : jsstring := trimEnd (trimStart s).

(** [s.split(sep)] for a separator of one code unit. *)
Fixpoint split (sep : N) (s : jsstring) : list jsstring :=
  match s with
  | [] => [[]]
  | c :: s' =>
      if N.eqb c sep then [] :: split sep s'
      else match split sep s' with
           | w :: ws => (c :: w) :: ws
           | [] => [[c]]
           end
  end.

(** The values [JSON.parse] yields for the elements of a metafield list. *)
Inductive jsval :=
| JStr (s : jsstring)
| JNum (n : Z)
| JBool (b : bool)
| JNull
| JObj.

(** Own properties of an object literal with string keys, in source
    order. *)
Definition getOwn {A : Type} (k : jsstring) (o : list (jsstring * A))
  : option A :=
  option_map snd (find (fun kv => str_eqb (fst kv) k) o).

Definition keys {A : Type} (o : list (jsstring * A)) : list jsstring :=
  map fst o.

End Js.

(** ** Regular expressions

  The patterns of extractPlantName, with the backtracking order of
  ECMAScript: alternatives left to right, greedy and lazy stars, an
  iteration of a star that consumes nothing is rejected. *)
Module Regex.
Import Js.

Inductive re :=
| Eps
| Chr (p : N -> bool)
| Seq (r1 r2 : re)
| Alt (r1 r2 : re)
| Star (r : re)
| LazyStar (r : re)
| Eos.

(** [matchk r s k]: match [r] at the head of [s] and hand the rest of
    the input to the continuation [k]; the first success in
    backtracking order wins. The answer is the input left after the
    whole match. *)
Fixpoint matchk (r : re) (s : jsstring)
         (k : jsstring -> option jsstring) {struct r} : option jsstring :=
  match r with
  | Eps => k s
  | Chr p =>
      match s with
      | c :: s' => if p c then k s' else None
      | [] => None
      end
  | Seq r1 r2 => matchk r1 s (fun s' => matchk r2 s' k)
  | Alt r1 r2 =>
      match matchk r1 s k with
      | Some x => Some x
      | None => matchk r2 s k
      end
  | Star r1 =>
      (fix loop (n : nat) (s : jsstring) {struct n} : option jsstring :=
         match n with
         | O => k s
         | S n' =>
             match matchk r1 s
                     (fun s' => if length s' <? length s
                                then loop n' s' else None) with
             | Some x => Some x
             | None => k s
             end
         end) (length s) s
  | LazyStar r1 =>
      (fix loop (n : nat) (s : jsstring) {struct n} : option jsstring :=
         match n with
         | O => k s
         | S n' =>
             match k s with
             | Some x => Some x
             | None =>
                 matchk r1 s
                   (fun s' => if length s' <? length s
                              then loop n' s' else None)
             end
         end) (length s) s
  | Eos =>
      match s with
      | [] => k []
      | _ :: _ => None
      end
  end.

(** [s.replace(r, '')] without the g flag: the leftmost match is
    removed. *)
Fixpoint replaceRe (r : re) (s : jsstring) : jsstring :=
  match matchk r s (fun rest => Some rest) with
  | Some rest => rest
  | None =>
      match s with
      | [] => []
      | c :: s' => c :: replaceRe r s'
      end
  end.

(** [r.test(s)]: the pattern matches at some position of [s]. *)
Fixpoint test (r : re) (s : jsstring) : bool :=
  match matchk r s (fun rest => Some rest) with
  | Some _ => true
  | None =>
      match s with
      | [] => false
      | _ :: s' => test r s'
      end
  end.

(** The patterns anchored at the end of the input: [$] closes every
    branch. *)
Fixpoint endsEos (r : re) : bool :=
  match r with
  | Eos => true
  | Seq _ r2 => endsEos r2
  | Alt r1 r2 => endsEos r1 && endsEos r2
  | _ => false
  end.

Fixpoint seq (l : list re) : re :=
  match l with
  | [] => Eps
  | [r] => r
  | r :: l' => Seq r (seq l')
  end.

Fixpoint alts (l : list re) : re :=
  match l with
  | [] => Eps
  | [r] => r
  | r :: l' => Alt r (alts l')
  end.

Definition plus (r : re) : re := Seq r (Star r).

Definition ws : re := Chr isSpace.
Definition digit : re := Chr isDigit.
Definition dot : re := Chr (fun c => negb (isLineTerminator c)).
Definition chr (a : string) : re :=
  seq (map (fun c => Chr (N.eqb c)) (u a)).

(** Canonicalize of a pattern without the u flag, for the letters a-z:
    a code unit outside Basic Latin never folds onto one inside. *)
Definition upperAscii (c : N) : N :=
  if inRange 97 122 c then (c - 32)%N else c.

(** A literal under the i flag. *)
Definition ilit (a : string) : re :=
  seq (map (fun c => Chr (fun x => N.eqb (upperAscii x) (upperAscii c)))
           (u a)).

End Regex.

(** ** The zone-selector widget (Growing Zone Selector, embedded tables) *)
Module ZoneSelector.
Import Js.

Record ZoneRange := { min : Z; max : Z; label : jsstring }.

(** ZONE_DATA.zones: zone temperature ranges in degrees Fahrenheit. *)
Definition zones : list (jsstring * ZoneRange) :=
  [ (u "1a", {| min := -60; max := -55; label := u "1a" |})
  ; (u "1b", {| min := -55; max := -50; label := u "1b" |})
  ; (u "2a", {| min := -50; max := -45; label := u "2a" |})
  ; (u "2b", {| min := -45; max := -40; label := u "2b" |})
  ; (u "3a", {| min := -40; max := -35; label := u "3a" |})
  ; (u "3b", {| min := -35; max := -30; label := u "3b" |})
  ; (u "4a", {| min := -30; max := -25; label := u "4a" |})
  ; (u "4b", {| min := -25; max := -20; label := u "4b" |})
  ; (u "5a", {| min := -20; max := -15; label := u "5a" |})
  ; (u "5b", {| min := -15; max := -10; label := u "5b" |})
  ; (u "6a", {| min := -10; max := -5; label := u "6a" |})
  ; (u "6b", {| min := -5; max := 0; label := u "6b" |})
  ; (u "7a", {| min := 0; max := 5; label := u "7a" |})
  ; (u "7b", {| min := 5; max := 10; label := u "7b" |})
  ; (u "8a", {| min := 10; max := 15; label := u "8a" |})
  ; (u "8b", {| min := 15; max := 20; label := u "8b" |})
  ; (u "9a", {| min := 20; max := 25; label := u "9a" |})
  ; (u "9b", {| min := 25; max := 30; label := u "9b" |})
  ; (u "10a", {| min := 30; max := 35; label := u "10a" |})
  ; (u "10b", {| min := 35; max := 40; label := u "10b" |})
  ; (u "11a", {| min := 40; max := 45; label := u "11a" |})
  ; (u "11b", {| min := 45; max := 50; label := u "11b" |})
  ; (u "12a", {| min := 50; max := 55; label := u "12a" |})
  ; (u "12b", {| min := 55; max := 60; label := u "12b" |})
  ; (u "13a", {| min := 60; max := 65; label := u "13a" |})
  ; (u "13b", {| min := 65; max := 70; label := u "13b" |})
  ]%Z.

(** ZONE_DATA.zipToZone: ZIP prefix (first 3 digits) to zone. *)
Definition zipToZone_entries : list (string * string) :=
  (* Northeast *)
  [ ("010", "5b"); ("011", "5b"); ("012", "5a"); ("013", "5b"); ("014", "6a")
  ; ("015", "6a"); ("016", "6a"); ("017", "6b"); ("018", "6b"); ("019", "6a")
  ; ("020", "6b"); ("021", "6b"); ("022", "6b"); ("023", "6a"); ("024", "6a")
  ; ("025", "6a"); ("026", "5b"); ("027", "5b")
  (* New York *)
  ; ("100", "7a"); ("101", "7a"); ("102", "6b"); ("103", "6b"); ("104", "6b")
  ; ("105", "6b"); ("106", "6b"); ("107", "6a"); ("108", "6a"); ("109", "5b")
  ; ("110", "7a"); ("111", "7a"); ("112", "7a"); ("113", "7a"); ("114", "7b")
  ; ("115", "7b"); ("116", "7a"); ("117", "7a"); ("118", "7a"); ("119", "7a")
  ; ("120", "5b"); ("121", "5b"); ("122", "5a"); ("123", "5a"); ("124", "5b")
  ; ("125", "5b"); ("126", "5b"); ("127", "6a"); ("128", "4b"); ("129", "5a")
  ; ("130", "5a"); ("131", "5a"); ("132", "5a"); ("133", "5b"); ("134", "5b")
  ; ("135", "5b"); ("136", "5b"); ("137", "6a"); ("138", "5b"); ("139", "5b")
  ; ("140", "6a"); ("141", "6a"); ("142", "6a"); ("143", "5b"); ("144", "5b")
  ; ("145", "5b"); ("146", "5b"); ("147", "5b"); ("148", "5b"); ("149", "5b")
  (* Mid-Atlantic *)
  ; ("150", "6b"); ("151", "6b"); ("152", "6a"); ("153", "6a"); ("154", "6a")
  ; ("155", "6a"); ("156", "6a"); ("157", "6b"); ("158", "6a"); ("159", "6a")
  ; ("160", "6a"); ("161", "6a"); ("162", "5b"); ("163", "5b"); ("164", "5b")
  ; ("165", "6a"); ("166", "6a"); ("167", "6a"); ("168", "6a"); ("169", "6a")
  ; ("170", "6b"); ("171", "6b"); ("172", "6b"); ("173", "6b"); ("174", "6b")
  ; ("175", "6b"); ("176", "6b"); ("177", "6b"); ("178", "6b"); ("179", "6b")
  ; ("180", "6b"); ("181", "6a"); ("182", "5b"); ("183", "6a"); ("184", "6a")
  ; ("185", "6a"); ("186", "5b"); ("187", "6a"); ("188", "6b"); ("189", "6b")
  ; ("190", "7a"); ("191", "7a"); ("192", "7a"); ("193", "6b"); ("194", "7a")
  ; ("195", "7a"); ("196", "7a"); ("197", "7a"); ("198", "7a"); ("199", "7a")
  (* DC, Maryland, Virginia *)
  ; ("200", "7a"); ("201", "7a"); ("202", "7a"); ("203", "7a"); ("204", "7a")
  ; ("205", "7a"); ("206", "7a"); ("207", "7a"); ("208", "7a"); ("209", "7a")
  ; ("210", "7a"); ("211", "7a"); ("212", "7a"); ("213", "7a"); ("214", "7b")
  ; ("215", "7a"); ("216", "7a"); ("217", "6b"); ("218", "6b"); ("219", "6b")
  ; ("220", "7a"); ("221", "7a"); ("222", "7a"); ("223", "7a"); ("224", "7a")
  ; ("225", "7a"); ("226", "7a"); ("227", "7a"); ("228", "7a"); ("229", "7b")
  ; ("230", "7a"); ("231", "7b"); ("232", "7b"); ("233", "8a"); ("234", "7b")
  ; ("235", "8a"); ("236", "8a"); ("237", "7b"); ("238", "7a"); ("239", "7a")
  ; ("240", "6b"); ("241", "6b"); ("242", "6b"); ("243", "6b"); ("244", "6b")
  ; ("245", "6b"); ("246", "6b"); ("247", "6b"); ("248", "6a"); ("249", "6b")
  (* North Carolina *)
  ; ("270", "7b"); ("271", "7b"); ("272", "7b"); ("273", "7b"); ("274", "7b")
  ; ("275", "7b"); ("276", "7a"); ("277", "7b"); ("278", "7a"); ("279", "7a")
  ; ("280", "8a"); ("281", "8a"); ("282", "7b"); ("283", "8a"); ("284", "8a")
  ; ("285", "8a"); ("286", "7b"); ("287", "7b"); ("288", "7a"); ("289", "7b")
  (* South Carolina *)
  ; ("290", "8a"); ("291", "8a"); ("292", "8a"); ("293", "8a"); ("294", "8a")
  ; ("295", "8b"); ("296", "8a"); ("297", "7b"); ("298", "8a"); ("299", "8b")
  (* Georgia *)
  ; ("300", "7b"); ("301", "8a"); ("302", "8a"); ("303", "7b"); ("304", "8a")
  ; ("305", "8a"); ("306", "8a"); ("307", "8a"); ("308", "8a"); ("309", "8a")
  ; ("310", "8a"); ("311", "8a"); ("312", "8b"); ("313", "8b"); ("314", "8b")
  ; ("315", "8b"); ("316", "8b"); ("317", "8b"); ("318", "9a"); ("319", "9a")
  (* Florida *)
  ; ("320", "8b"); ("321", "9a"); ("322", "9a"); ("323", "9b"); ("324", "9a")
  ; ("325", "9a"); ("326", "9a"); ("327", "9b"); ("328", "9b"); ("329", "10a")
  ; ("330", "10a"); ("331", "10a"); ("332", "10b"); ("333", "10b"); ("334", "10b")
  ; ("335", "10a"); ("336", "10a"); ("337", "10a"); ("338", "10a"); ("339", "10a")
  ; ("340", "10b"); ("341", "10a"); ("342", "9b"); ("344", "9b"); ("346", "9b")
  ; ("347", "9b"); ("349", "9a")
  (* Ohio *)
  ; ("430", "6a"); ("431", "5b"); ("432", "6a"); ("433", "6a"); ("434", "5b")
  ; ("435", "5b"); ("436", "5b"); ("437", "5b"); ("438", "5b"); ("439", "5b")
  ; ("440", "6a"); ("441", "6a"); ("442", "6a"); ("443", "5b"); ("444", "5b")
  ; ("445", "6a"); ("446", "5b"); ("447", "6a"); ("448", "6a"); ("449", "6a")
  ; ("450", "6a"); ("451", "6a"); ("452", "6a"); ("453", "6a"); ("454", "5b")
  ; ("455", "6a"); ("456", "6a"); ("457", "6a"); ("458", "6a"); ("459", "6a")
  (* Michigan *)
  ; ("480", "6a"); ("481", "6a"); ("482", "6a"); ("483", "6a"); ("484", "5b")
  ; ("485", "5b"); ("486", "5b"); ("487", "5b"); ("488", "5b"); ("489", "5b")
  ; ("490", "5b"); ("491", "5b"); ("492", "5b"); ("493", "5a"); ("494", "5a")
  ; ("495", "5a"); ("496", "5a"); ("497", "4b"); ("498", "4b"); ("499", "4b")
  (* Illinois *)
  ; ("600", "5b"); ("601", "5b"); ("602", "5b"); ("603", "5b"); ("604", "5b")
  ; ("605", "5b"); ("606", "5b"); ("607", "5b"); ("608", "5a"); ("609", "5b")
  ; ("610", "5b"); ("611", "5a"); ("612", "5a"); ("613", "5a"); ("614", "5b")
  ; ("615", "5b"); ("616", "5b"); ("617", "5b"); ("618", "6a"); ("619", "5b")
  ; ("620", "5b"); ("621", "5b"); ("622", "6a"); ("623", "6a"); ("624", "6a")
  ; ("625", "5b"); ("626", "5b"); ("627", "6a"); ("628", "6a"); ("629", "6b")
  (* Texas *)
  ; ("750", "8a"); ("751", "8a"); ("752", "8a"); ("753", "8a"); ("754", "8a")
  ; ("755", "8a"); ("756", "8a"); ("757", "8a"); ("758", "8b"); ("759", "8a")
  ; ("760", "7b"); ("761", "8a"); ("762", "8a"); ("763", "8a"); ("764", "8a")
  ; ("765", "8a"); ("766", "7b"); ("767", "7b"); ("768", "7b"); ("769", "7b")
  ; ("770", "9a"); ("771", "9a"); ("772", "9a"); ("773", "9a"); ("774", "9a")
  ; ("775", "9a"); ("776", "9a"); ("777", "9a"); ("778", "9b"); ("779", "9a")
  ; ("780", "9a"); ("781", "9a"); ("782", "9a"); ("783", "9b"); ("784", "9b")
  ; ("785", "9b"); ("786", "9b"); ("787", "8b"); ("788", "8b"); ("789", "8a")
  ; ("790", "7a"); ("791", "7a"); ("792", "7a"); ("793", "7a"); ("794", "7a")
  ; ("795", "7a"); ("796", "7b"); ("797", "7b"); ("798", "8a"); ("799", "7b")
  (* California *)
  ; ("900", "10b"); ("901", "10b"); ("902", "10b"); ("903", "10a"); ("904", "10a")
  ; ("905", "10b"); ("906", "10b"); ("907", "10a"); ("908", "10a"); ("909", "9b")
  ; ("910", "10a"); ("911", "10a"); ("912", "10a"); ("913", "10a"); ("914", "9b")
  ; ("915", "9b"); ("916", "9b"); ("917", "9b"); ("918", "10a"); ("919", "9b")
  ; ("920", "10b"); ("921", "10b"); ("922", "9b"); ("923", "9b"); ("924", "9b")
  ; ("925", "9b"); ("926", "10a"); ("927", "10a"); ("928", "10a"); ("929", "9a")
  ; ("930", "9b"); ("931", "9a"); ("932", "9a"); ("933", "9a"); ("934", "9b")
  ; ("935", "8b"); ("936", "9a"); ("937", "9a"); ("938", "9a"); ("939", "9b")
  ; ("940", "10a"); ("941", "10a"); ("942", "10a"); ("943", "9b"); ("944", "10a")
  ; ("945", "10a"); ("946", "10a"); ("947", "10a"); ("948", "9b"); ("949", "9b")
  ; ("950", "9b"); ("951", "9b"); ("952", "9a"); ("953", "9b"); ("954", "9a")
  ; ("955", "9a"); ("956", "9a"); ("957", "9a"); ("958", "9a"); ("959", "9a")
  ; ("960", "9a"); ("961", "8b")
  (* Washington *)
  ; ("980", "8b"); ("981", "8b"); ("982", "8b"); ("983", "8a"); ("984", "8a")
  ; ("985", "8b"); ("986", "6b"); ("987", "6b"); ("988", "6a"); ("989", "6a")
  ; ("990", "6b"); ("991", "6a"); ("992", "6a"); ("993", "5b"); ("994", "5b")
  (* Oregon *)
  ; ("970", "8b"); ("971", "8b"); ("972", "8b"); ("973", "8b"); ("974", "8a")
  ; ("975", "8a"); ("976", "7b"); ("977", "6b"); ("978", "6b"); ("979", "6a")
  (* Colorado *)
  ; ("800", "5b"); ("801", "5b"); ("802", "5a"); ("803", "5a"); ("804", "5a")
  ; ("805", "5a"); ("806", "5a"); ("807", "4b"); ("808", "4b"); ("809", "4b")
  ; ("810", "5b"); ("811", "5a"); ("812", "4b"); ("813", "4b"); ("814", "4b")
  ; ("815", "4b"); ("816", "5a")
  (* Arizona *)
  ; ("850", "9b"); ("851", "9b"); ("852", "9b"); ("853", "9a"); ("855", "8a")
  ; ("856", "9a"); ("857", "8a"); ("859", "7a"); ("860", "9a"); ("863", "9b")
  ; ("864", "8b"); ("865", "8b")
  ]%string.

Definition zipToZone : list (jsstring * jsstring) :=
  map (fun kv => (u (fst kv), u (snd kv))) zipToZone_entries.

(** The object [{ zone: zoneCode, ...ZONE_DATA.zones[zoneCode] }]: the
    spread adds min, max and label when the zone code has an entry and
    nothing otherwise. *)
Record ZoneResult := { zone : jsstring; range : option ZoneRange }.

(** A string is truthy when it is not empty. *)
Definition truthy (s : jsstring) : bool :=
  match s with [] => false | _ :: _ => true end.

(** What the form lets through: the input handler keeps digits only and
    handleZipSubmit asks for five of them. *)
Definition isZip5 (zipCode : jsstring) : bool :=
  (length zipCode =? 5) && forallb isDigit zipCode.

(** The property read uses the three-unit prefix as its key; see
    [prefix_not_inherited] for why own properties are all it can reach.
    [None] is the source's null. *)
Definition getZoneFromZip (zipCode : jsstring) : option ZoneResult :=
  let prefix := substring 0 3 zipCode in
  match getOwn prefix zipToZone with
  | Some zoneCode =>
      if truthy zoneCode
      then Some {| zone := zoneCode; range := getOwn zoneCode zones |}
      else None
  | None => None
  end.

End ZoneSelector.

(** ** assets/zone-selector.js: the ZIP-prefix entries embedded in its
  ZONE_DATA (the widget itself reads the prefix mapping from a generated
  asset that it loads lazily) *)
Module AssetZoneSelector.
Import Js.

Definition prefix_entries : list (string * string) :=
  [ ("740", "7a"); ("741", "7b"); ("742", "7b"); ("743", "7a"); ("744", "7b")
  ; ("745", "7b"); ("746", "7a"); ("747", "8a"); ("748", "7b"); ("749", "7b")
  ; ("750", "8b"); ("751", "8b"); ("752", "8b"); ("753", "8b"); ("754", "8b")
  ; ("755", "8b"); ("756", "8b"); ("757", "8b"); ("758", "8b"); ("759", "9a")
  ; ("760", "8b"); ("761", "8b"); ("762", "8a"); ("763", "8a"); ("764", "8a")
  ; ("765", "8b"); ("766", "8b"); ("767", "8b"); ("768", "8b"); ("769", "8a")
  ; ("770", "9b"); ("771", "9b"); ("772", "9b"); ("773", "9a"); ("774", "9b")
  ; ("775", "9b"); ("776", "9a"); ("777", "9b"); ("778", "9a"); ("779", "9b")
  ; ("780", "9a"); ("781", "9a"); ("782", "9a"); ("783", "9b"); ("784", "10a")
  ; ("785", "10a"); ("786", "9a"); ("787", "9a"); ("788", "9a"); ("789", "9a")
  ; ("790", "7a"); ("791", "7a"); ("792", "7b"); ("793", "7b"); ("794", "7b")
  ; ("795", "8a"); ("796", "8a"); ("797", "8a"); ("798", "8b"); ("799", "8b")
  ; ("800", "6a"); ("801", "6a"); ("802", "6a"); ("803", "6a"); ("804", "5b")
  ; ("805", "5b"); ("806", "5b"); ("807", "5b"); ("808", "5b"); ("809", "6a")
  ; ("810", "6a"); ("811", "5b"); ("812", "5b"); ("813", "6b"); ("814", "6b")
  ; ("815", "7a"); ("816", "6a"); ("817", "5b"); ("818", "5b"); ("819", "5b")
  ; ("820", "5b"); ("821", "4b"); ("822", "5a"); ("823", "5a"); ("824", "5a")
  ; ("825", "5a"); ("826", "5a"); ("827", "4b"); ("828", "5a"); ("829", "5a")
  ; ("830", "4b"); ("831", "5b"); ("832", "5b"); ("833", "6b"); ("834", "5a")
  ; ("835", "6b"); ("836", "7a"); ("837", "7a"); ("838", "6b"); ("839", "6b")
  ; ("840", "7a"); ("841", "7b"); ("842", "7a"); ("843", "6a"); ("844", "7a")
  ; ("845", "6a"); ("846", "6a"); ("847", "6a"); ("848", "7b"); ("849", "8b")
  ; ("850", "10a"); ("851", "9a"); ("852", "9b"); ("853", "9b"); ("854", "9a")
  ; ("855", "8b"); ("856", "8b"); ("857", "9b"); ("858", "8a"); ("859", "6b")
  ; ("860", "7a"); ("861", "7b"); ("862", "8a"); ("863", "8b"); ("864", "9b")
  ; ("865", "7a"); ("866", "6b"); ("867", "6b"); ("868", "6b"); ("869", "6b")
  ; ("870", "6b"); ("871", "7b"); ("872", "6b"); ("873", "6a"); ("874", "7a")
  ; ("875", "6b"); ("876", "7b"); ("877", "6a"); ("878", "7b"); ("879", "8a")
  ; ("880", "8b"); ("881", "7a"); ("882", "8a"); ("883", "7a"); ("884", "7a")
  ; ("885", "8b"); ("886", "8b"); ("887", "8b"); ("888", "8a"); ("889", "9a")
  ; ("890", "9b"); ("891", "9b"); ("892", "7b"); ("893", "6a"); ("894", "7a")
  ; ("895", "7b"); ("896", "7b"); ("897", "7a"); ("898", "5b"); ("899", "8a")
  ; ("900", "10b"); ("901", "10b"); ("902", "10b"); ("903", "10b"); ("904", "11a")
  ; ("905", "10b"); ("906", "10b"); ("907", "10b"); ("908", "10b"); ("909", "10b")
  ; ("910", "10a"); ("911", "10a"); ("912", "10a"); ("913", "10a"); ("914", "10a")
  ; ("915", "10a"); ("916", "10a"); ("917", "10a"); ("918", "10a"); ("919", "10b")
  ; ("920", "10a"); ("921", "10b"); ("922", "10a"); ("923", "8b"); ("924", "10a")
  ; ("925", "9b"); ("926", "10b"); ("927", "10b"); ("928", "10b"); ("929", "10b")
  ; ("930", "10a"); ("931", "10b"); ("932", "9b"); ("933", "9b"); ("934", "10a")
  ; ("935", "8b"); ("936", "9b"); ("937", "9b"); ("938", "9b"); ("939", "9b")
  ; ("940", "10a"); ("941", "10b"); ("942", "9b"); ("943", "9b"); ("944", "10a")
  ; ("945", "9b"); ("946", "10a"); ("947", "10a"); ("948", "10a"); ("949", "9b")
  ; ("950", "9b"); ("951", "9b"); ("952", "9b"); ("953", "9b"); ("954", "9b")
  ; ("955", "9b"); ("956", "9b"); ("957", "9b"); ("958", "9b"); ("959", "9b")
  ; ("960", "9a"); ("961", "6b"); ("962", "7b"); ("963", "8b"); ("964", "9b")
  ; ("965", "10b"); ("966", "11b"); ("967", "12b"); ("968", "12b"); ("969", "10b")
  ; ("970", "8b"); ("971", "8b"); ("972", "9a"); ("973", "8b"); ("974", "8b")
  ; ("975", "8b"); ("976", "6b"); ("977", "6b"); ("978", "6b"); ("979", "6b")
  ; ("980", "8b"); ("981", "9a"); ("982", "8b"); ("983", "8b"); ("984", "8b")
  ; ("985", "8b"); ("986", "8b"); ("987", "7b"); ("988", "7a"); ("989", "7a")
  ; ("990", "6b"); ("991", "6b"); ("992", "7a"); ("993", "7a"); ("994", "7a")
  ; ("995", "5a"); ("996", "4b"); ("997", "2a"); ("998", "7a"); ("999", "7b")
  ]%string.

Definition prefixToZone : list (jsstring * jsstring) :=
  map (fun kv => (u (fst kv), u (snd kv))) prefix_entries.

(** The prefixes on which the two embedded tables differ. *)
Definition disagreements : list jsstring :=
  filter (fun p =>
            match getOwn p ZoneSelector.zipToZone, getOwn p prefixToZone with
            | Some a, Some b => negb (str_eqb a b)
            | _, _ => false
            end) (keys ZoneSelector.zipToZone).

End AssetZoneSelector.

(** ** The zone lookup test script *)
Module ZoneLookupTest.
Import Js.

(** [lookupTable[prefix] || null]: an absent prefix and an empty zone
    string both give null. *)
Definition getZoneFromLookup (lookupTable : list (jsstring * jsstring))
           (zipCode : jsstring) : option jsstring :=
  let prefix := substring 0 3 zipCode in
  match getOwn prefix lookupTable with
  | Some z => if ZoneSelector.truthy z then Some z else None
  | None => None
  end.

End ZoneLookupTest.

(** ** scripts/populate-zones.js *)
Module PopulateZones.
Import Js Regex.

(** *** extractPlantName *)

(** The class of trademark glyphs: U+2122, U+00AE, U+00A9. *)
Definition isGlyph (c : N) : bool :=
  N.eqb c 8482 || N.eqb c 174 || N.eqb c 169.

(** [.replace(/[..]/g, '')] over the glyph class. *)
Definition stripGlyphs (s : jsstring) : jsstring :=
  filter (fun c => negb (isGlyph c)) s.

(** [.replace(/\s+/g, ' ')]: every maximal run of white space becomes
    one space. [inRun] tells that the previous unit was white space. *)
Fixpoint collapseFrom (inRun : bool) (s : jsstring) : jsstring :=
  match s with
  | [] => []
  | c :: s' =>
      if isSpace c
      then (if inRun then collapseFrom true s'
            else 32%N :: collapseFrom true s')
      else c :: collapseFrom false s'
  end.

Definition collapseSpaces (s : jsstring) : jsstring := collapseFrom false s.

(** (gal|gallon|qt|quart|inch|in|ft|feet|pack|ct) *)
Definition sizeUnit : re :=
  alts (map ilit
    ["gal"; "gallon"; "qt"; "quart"; "inch"; "in"; "ft"; "feet"; "pack";
     "ct"]%string).

Definition suffixPatterns : list re :=
  [ (* /\s*-\s*\d+\s*(gal|...|ct).*$/i *)
    seq [Star ws; chr "-"; Star ws; plus digit; Star ws; sizeUnit;
         Star dot; Eos]
  ; (* /\s*\(\d+.*?\)$/ *)
    seq [Star ws; chr "("; plus digit; LazyStar dot; chr ")"; Eos]
  ; (* /\s*\d+\s*(gal|...|ct).*$/i *)
    seq [Star ws; plus digit; Star ws; sizeUnit; Star dot; Eos]
  ; (* /\s*bare\s*root.*$/i *)
    seq [Star ws; ilit "bare"; Star ws; ilit "root"; Star dot; Eos]
  ; (* /\s*potted.*$/i *)
    seq [Star ws; ilit "potted"; Star dot; Eos]
  ; (* /\s*tree\s*$/i *)
    seq [Star ws; ilit "tree"; Star ws; Eos]
  ; (* /\s*shrub\s*$/i *)
    seq [Star ws; ilit "shrub"; Star ws; Eos]
  ; (* /\s*plant\s*$/i *)
    seq [Star ws; ilit "plant"; Star ws; Eos]
  ].

(** The title cleaned up for matching, before the suffixes go. *)
Definition cleanTitle (title : jsstring) : jsstring :=
  trim (collapseSpaces (stripGlyphs (toLowerCase title))).

(** The for loop over the patterns: each is applied once, in order. *)
Definition stripSuffixes (t : jsstring) : jsstring :=
  fold_left (fun t p => replaceRe p t) suffixPatterns t.

Definition extractPlantName (title : jsstring) : jsstring :=
  trim (stripSuffixes (cleanTitle title)).

(** The shape of a cleaned title: every unit is its own lowercase and
    no glyph, and white space occurs only as single U+0020 units.
    [prevSpace] tells that the unit before was white space. *)
Fixpoint clean (prevSpace : bool) (s : jsstring) : Prop :=
  match s with
  | [] => True
  | c :: s' =>
      lowerUnit c = c /\ isGlyph c = false
      /\ (isSpace c = true -> c = 32%N /\ prevSpace = false)
      /\ clean (isSpace c) s'
  end.

(** No white space at the head. *)
Definition headOk (s : jsstring) : Prop :=
  match s with
  | [] => True
  | c :: _ => isSpace c = false
  end.

(** *** normalizeZoneFormat and needsNormalization *)

Definition normalizeZone (zone : jsstring) : jsstring :=
  trim
    (replaceStr (u " ") []
       (replaceStr (u "-") []
          (replaceStr (u "zone") [] (toLowerCase zone)))).

(** [zones.map(...)]; an element that is no string has no toLowerCase
    and the call throws a TypeError: [None]. *)
Fixpoint normalizeZoneFormat (zones : list jsval) : option (list jsstring) :=
  match zones with
  | [] => Some []
  | JStr zone :: rest =>
      option_map (cons (normalizeZone zone)) (normalizeZoneFormat rest)
  | _ :: _ => None
  end.

(** [typeof z === 'string' && z.toLowerCase().includes('zone')] *)
Definition hasZoneWord (z : jsval) : bool :=
  match z with
  | JStr s => includes (toLowerCase s) (u "zone")
  | _ => false
  end.

Definition needsNormalization (zones : list jsval) : bool :=
  existsb hasZoneWord zones.

(** *** lookupZones *)

(** An entry of plantDatabase.plants. *)
Record PlantEntry := { entry_zones : list jsstring }.

(** plantDatabase.plants as JSON.parse builds it: its own properties in
    Object.keys order. The script reads it from plant-zones.json when it
    starts; here the database is an argument of the matcher. *)
Definition PlantDb := list (jsstring * PlantEntry).

(** The names every plain object inherits from Object.prototype. *)
Definition objectPrototypeNames : list jsstring :=
  map u
    ["constructor"; "__defineGetter__"; "__defineSetter__";
     "hasOwnProperty"; "__lookupGetter__"; "__lookupSetter__";
     "isPrototypeOf"; "propertyIsEnumerable"; "toString"; "valueOf";
     "__proto__"; "toLocaleString"]%string.

(** What [plants[name]] evaluates to: an entry of the database, or a
    member of Object.prototype (a function or the prototype object,
    truthy in both cases, and without a zones property), or undefined
    ([None]). *)
Inductive PropValue :=
| Own (e : PlantEntry)
| Inherited.

Definition getProp (plants : PlantDb) (name : jsstring) : option PropValue :=
  match getOwn name plants with
  | Some e => Some (Own e)
  | None =>
      if existsb (str_eqb name) objectPrototypeNames
      then Some Inherited else None
  end.

(** [v.zones]; [None] is undefined. *)
Definition zonesOf (v : PropValue) : option (list jsstring) :=
  match v with
  | Own e => Some (entry_zones e)
  | Inherited => None
  end.

(** [plants[key].zones] for a key that Object.keys listed. *)
Definition zonesAt (plants : PlantDb) (key : jsstring)
  : option (list jsstring) :=
  match getProp plants key with
  | Some v => zonesOf v
  | None => None
  end.

Inductive MatchType := exact | contains | partial | botanical.

Record MatchResult := {
  zones : option (list jsstring);
  matchType : MatchType;
  matchedKey : option jsstring;
  matchedWord : option jsstring
}.

(** [[...plantKeys].sort((a, b) => b.length - a.length)]: the sort is
    stable, so keys of one length keep their Object.keys order. *)
Fixpoint insertByLength (x : jsstring) (l : list jsstring) : list jsstring :=
  match l with
  | [] => [x]
  | y :: l' =>
      if length x <? length y then y :: insertByLength x l' else x :: l
  end.

Definition sortByLength (l : list jsstring) : list jsstring :=
  fold_right insertByLength [] l.

Definition botanicalTerms : list jsstring :=
  map u
    ["magnolia"; "maple"; "oak"; "pine"; "spruce"; "cedar"; "cypress"; "arborvitae";
     "dogwood"; "redbud"; "cherry"; "crape"; "crepe"; "myrtle"; "birch"; "willow";
     "elm"; "ash"; "tulip"; "ginkgo"; "sweetgum"; "sycamore"; "locust"; "beech";
     "hickory"; "walnut"; "chestnut"; "hazelnut"; "catalpa"; "boxwood"; "holly";
     "privet"; "hydrangea"; "lilac"; "azalea"; "rhododendron"; "camellia"; "gardenia";
     "forsythia"; "hibiscus"; "butterfly"; "spirea"; "viburnum"; "barberry"; "weigela";
     "ninebark"; "juniper"; "yew"; "hemlock"; "fir"; "palm"; "serviceberry"; "fringe";
     "blueberry"; "elderberry"; "beautyberry"; "clethra"; "photinia"; "nandina";
     "loropetalum"; "laurel"; "pieris"; "leucothoe"; "aucuba"; "osmanthus"; "fatsia";
     "podocarpus"; "deutzia"; "kerria"; "potentilla"; "cotoneaster"; "abelia";
     "sweetspire"; "fothergilla"; "snowberry"; "coralberry"; "jasmine"; "lantana";
     "muhly"; "mondo"; "liriope"; "daylily"; "oleander"; "mahonia"; "pittosporum";
     "distylium"; "guava"; "yucca"; "ligustrum"; "dianella"; "agapanthus"; "sage"
    ]%string.

(** The contains test of the first loop. *)
Definition containsHit (plantName key : jsstring) : bool :=
  includes plantName key && (5 <=? length key).

(** The partial test of the second loop. *)
Definition partialHit (plantName key : jsstring) : bool :=
  includes key plantName && (6 <=? length plantName).

(** The loop over the words of the title. *)
Fixpoint botanicalScan (plants : PlantDb) (sortedByLength : list jsstring)
         (words : list jsstring) : option MatchResult :=
  match words with
  | [] => None
  | word :: rest =>
      if existsb (str_eqb word) botanicalTerms then
        match find (fun key => includes key word) sortedByLength with
        | Some key =>
            Some {| zones := zonesAt plants key; matchType := botanical;
                    matchedKey := Some key; matchedWord := Some word |}
        | None => botanicalScan plants sortedByLength rest
        end
      else botanicalScan plants sortedByLength rest
  end.

(** [None] is the source's null. *)
Definition lookupZones (plants : PlantDb) (plantName : jsstring)
  : option MatchResult :=
  match getProp plants plantName with
  | Some v =>
      Some {| zones := zonesOf v; matchType := exact;
              matchedKey := None; matchedWord := None |}
  | None =>
      let plantKeys := keys plants in
      let sortedByLength := sortByLength plantKeys in
      match find (containsHit plantName) sortedByLength with
      | Some key =>
          Some {| zones := zonesAt plants key; matchType := contains;
                  matchedKey := Some key; matchedWord := None |}
      | None =>
          match find (partialHit plantName) plantKeys with
          | Some key =>
              Some {| zones := zonesAt plants key; matchType := partial;
                      matchedKey := Some key; matchedWord := None |}
          | None =>
              let words :=
                filter (fun w => 4 <? length w) (split 32 plantName) in
              botanicalScan plants sortedByLength words
          end
      end
  end.

End PopulateZones.

(** ** The zone format audit script *)
Module AuditZones.
Import Js.

Inductive Format := none | old | new | mixed.

Definition isOld (z : jsval) : bool :=
  match z with
  | JStr s => includes (toLowerCase s) (u "zone")
  | _ => false
  end.

Definition isNew (z : jsval) : bool :=
  match z with
  | JStr s => negb (includes (toLowerCase s) (u "zone"))
  | _ => false
  end.

(** The argument is a product's existingZones: null ([None]) or the
    array parsed from the list metafield. *)
Definition analyzeZoneFormat (zones : option (list jsval)) : Format :=
  match zones with
  | None => none
  | Some [] => none
  | Some l =>
      let hasOldFormat := existsb isOld l in
      let hasNewFormat := existsb isNew l in
      if hasOldFormat && hasNewFormat then mixed
      else if hasOldFormat then old
      else new
  end.

End AuditZones.

(** ** Vocabulary of the properties *)
Module Vocabulary.
Import Js PopulateZones.

(** The word "zone" occurs in [s], in any letter case. *)
Definition containsZoneWord (s : jsstring) : Prop :=
  exists a w b, s = a ++ w ++ b /\ toLowerCase w = u "zone".

(** Every occurrence of the word [w] removed, scanning left to right;
    [skip] counts the units of an occurrence still to drop. *)
Fixpoint removeWord (skip : nat) (w s : jsstring) : jsstring :=
  match s with
  | [] => []
  | c :: s' =>
      match skip with
      | S k => removeWord k w s'
      | O =>
          if startsWith w s then removeWord (length w - 1) w s'
          else c :: removeWord 0 w s'
      end
  end.

(** The normal form of a zone in the words of the specification: the
    element lowercased with the word "zone", hyphens and spaces
    stripped, each of them wherever it occurs. *)
Definition strippedZone (zone : jsstring) : jsstring :=
  filter (fun c => negb (N.eqb c 45 || N.eqb c 32))
         (removeWord 0 (u "zone") (toLowerCase zone)).

Definition zoneList (l : list string) : PlantEntry :=
  {| entry_zones := map u l |}.

(** A small database in the format of the plant database asset. *)
Definition sampleDb : PlantDb :=
  [ (u "maple", zoneList ["3"; "4"; "5"; "6"; "7"; "8"; "9"]%string)
  ; (u "japanese maple", zoneList ["5"; "6"; "7"; "8"]%string)
  ; (u "red japanese maple", zoneList ["6"; "7"; "8"]%string)
  ; (u "hydrangea", zoneList ["3"; "4"; "5"; "6"; "7"; "8"; "9"]%string)
  ].

(** Keys from the longest down. *)
Definition descending (l : list jsstring) : Prop :=
  Sorted.StronglySorted (fun a b => length b <= length a) l.

(** Some pattern of the suffix list still matches [name]. *)
Definition suffixLeft (name : jsstring) : bool :=
  existsb (fun pattern => Regex.test pattern name) suffixPatterns.

(** The N of a zone entry: units of Basic Latin and Latin-1, no white
    space and no hyphen, and the word "zone" nowhere in it. *)
Definition zoneNumber (n : jsstring) : bool :=
  forallb (fun c => N.ltb c 256 && negb (isSpace c) && negb (N.eqb c 45)) n
  && negb (includes (toLowerCase n) (u "zone")).

(** What follows the word in an element of the legacy form: the N of
    "zone-N", of "zone N" and of "zoneN". *)
Definition legacyNumber (zone : jsstring) : jsstring :=
  match skipn 4 zone with
  | c :: n => if N.eqb c 45 || N.eqb c 32 then n else c :: n
  | [] => []
  end.

(** The legacy form "zone-N", the word in any letter case; a space in
    the place of the hyphen, or nothing, is let through as well. *)
Definition legacyEntry (zone : jsstring) : bool :=
  str_eqb (toLowerCase (firstn 4 zone)) (u "zone")
  && zoneNumber (legacyNumber zone).

(** A legacy-format zones list: every element is "zone-N", or an N
    already in the plain form. *)
Definition legacyList (zones : list jsstring) : bool :=
  forallb (fun zone => legacyEntry zone || zoneNumber zone) zones.


End Vocabulary.

(** ** scripts/populate-zones.js: updateProductZones and the product loop
    of main

    The admin API is the environment: [api n] is the outcome of the n-th
    mutation of the run, [None] for a success and [Some message] when
    shopifyGraphQL throws or productUpdate reports userErrors. *)
Module PopulateMain.
Import Js PopulateZones.

(** The flags of CONFIG that the loop reads. *)
Record Config := { dryRun : bool; verbose : bool; normalize : bool }.

(** A product as fetchAllProducts builds it; existingZones is null
    ([None]) or the array parsed from the metafield. *)
Record Product := {
  productId : jsstring;
  title : jsstring;
  existingZones : option (list jsval)
}.

(** error.message: the message of the API error, or that of the TypeError
    of [lookup.zones.join] on undefined zones. *)
Inductive ErrorMessage :=
| ApiError (message : jsstring)
| JoinOfUndefined.

Record UpdatedEntry := {
  updTitle : jsstring;
  updZones : option (list jsstring);
  updMatchType : MatchType;
  updMatchedKey : option jsstring
}.

Record SkippedEntry := {
  skipTitle : jsstring;
  skipExistingZones : list jsval
}.

Record NotFoundEntry := {
  nfTitle : jsstring;
  nfExtractedName : jsstring
}.

Record NormalizedEntry := {
  normTitle : jsstring;
  normOldZones : list jsval;
  normNewZones : list jsstring
}.

Record ErrorEntry := {
  errTitle : jsstring;
  errError : ErrorMessage
}.

(** The results object of main. *)
Record Results := {
  updated : list UpdatedEntry;
  skipped : list SkippedEntry;
  notFound : list NotFoundEntry;
  normalized : list NormalizedEntry;
  errors : list ErrorEntry
}.

(** A productUpdate mutation sent to the API: the product and the zones
    whose JSON becomes the metafield value. *)
Record Mutation := {
  mutProduct : jsstring;
  mutZones : option (list jsstring)
}.

(** The state the loop threads: the results, the mutations sent so far
    and the number of 550 ms pauses taken. *)
Record Run := {
  results : Results;
  mutations : list Mutation;
  delays : nat
}.

Definition emptyResults : Results :=
  {| updated := []; skipped := []; notFound := []; normalized := [];
     errors := [] |}.

Definition start : Run :=
  {| results := emptyResults; mutations := []; delays := 0 |}.

Definition withResults (run : Run) (r : Results) : Run :=
  {| results := r; mutations := mutations run; delays := delays run |}.

Definition pushUpdated (run : Run) (e : UpdatedEntry) : Run :=
  let r := results run in
  withResults run
    {| updated := updated r ++ [e]; skipped := skipped r;
       notFound := notFound r; normalized := normalized r;
       errors := errors r |}.

Definition pushSkipped (run : Run) (e : SkippedEntry) : Run :=
  let r := results run in
  withResults run
    {| updated := updated r; skipped := skipped r ++ [e];
       notFound := notFound r; normalized := normalized r;
       errors := errors r |}.

Definition pushNotFound (run : Run) (e : NotFoundEntry) : Run :=
  let r := results run in
  withResults run
    {| updated := updated r; skipped := skipped r;
       notFound := notFound r ++ [e]; normalized := normalized r;
       errors := errors r |}.

Definition pushNormalized (run : Run) (e : NormalizedEntry) : Run :=
  let r := results run in
  withResults run
    {| updated := updated r; skipped := skipped r;
       notFound := notFound r; normalized := normalized r ++ [e];
       errors := errors r |}.

Definition pushError (run : Run) (e : ErrorEntry) : Run :=
  let r := results run in
  withResults run
    {| updated := updated r; skipped := skipped r;
       notFound := notFound r; normalized := normalized r;
       errors := errors r ++ [e] |}.

(** [await new Promise(resolve => setTimeout(resolve, 550))] *)
Definition pause (run : Run) : Run :=
  {| results := results run; mutations := mutations run;
     delays := S (delays run) |}.

(** updateProductZones: in a dry run it returns at once; otherwise it
    sends the mutation and throws what the API answers. The second
    component is the thrown message, [None] when the call returns. *)
Definition updateProductZones (cfg : Config) (api : nat -> option jsstring)
           (run : Run) (product : Product) (zones : option (list jsstring))
  : Run * option jsstring :=
  if dryRun cfg then (run, None)
  else
    let sent :=
      {| results := results run;
         mutations := mutations run ++
                      [{| mutProduct := productId product;
                          mutZones := zones |}];
         delays := delays run |} in
    (sent, api (length (mutations run))).

(** One turn of the for loop of main. [None]: the TypeError of
    normalizeZoneFormat, raised outside the try block, leaves the loop
    and main; the run ends with the fatal-error exit and no report. *)
Definition processProduct (cfg : Config) (plants : PlantDb)
           (api : nat -> option jsstring) (run : Run) (product : Product)
  : option Run :=
  let plantName := extractPlantName (title product) in
  let lookup := lookupZones plants plantName in
  match existingZones product with
  | Some (z :: zs) =>
      if normalize cfg && needsNormalization (z :: zs) then
        match normalizeZoneFormat (z :: zs) with
        | None => None
        | Some normalizedZones =>
            match updateProductZones cfg api run product
                    (Some normalizedZones) with
            | (run1, None) =>
                Some (pause (pushNormalized run1
                        {| normTitle := title product;
                           normOldZones := z :: zs;
                           normNewZones := normalizedZones |}))
            | (run1, Some message) =>
                Some (pushError run1
                        {| errTitle := title product;
                           errError := ApiError message |})
            end
        end
      else
        Some (pushSkipped run
                {| skipTitle := title product;
                   skipExistingZones := z :: zs |})
  | _ =>
      match lookup with
      | None =>
          Some (pushNotFound run
                  {| nfTitle := title product;
                     nfExtractedName := plantName |})
      | Some found =>
          match updateProductZones cfg api run product (zones found) with
          | (run1, None) =>
              let run2 :=
                pushUpdated run1
                  {| updTitle := title product;
                     updZones := zones found;
                     updMatchType := matchType found;
                     updMatchedKey := matchedKey found |} in
              if verbose cfg then
                match zones found with
                | Some _ => Some (pause run2)
                | None =>
                    Some (pushError run2
                            {| errTitle := title product;
                               errError := JoinOfUndefined |})
                end
              else Some (pause run2)
          | (run1, Some message) =>
              Some (pushError run1
                      {| errTitle := title product;
                         errError := ApiError message |})
          end
      end
  end.

(** The for loop over the fetched products. *)
Fixpoint processAll (cfg : Config) (plants : PlantDb)
         (api : nat -> option jsstring) (run : Run)
         (products : list Product) : option Run :=
  match products with
  | [] => Some run
  | product :: rest =>
      match processProduct cfg plants api run product with
      | Some run' => processAll cfg plants api run' rest
      | None => None
      end
  end.



(** A product that already carries zones. *)
Definition hasZones (product : Product) : bool :=
  match existingZones product with
  | Some (_ :: _) => true
  | _ => false
  end.

(** A product whose turn raises the TypeError of normalizeZoneFormat. *)
Definition breaksNormalize (product : Product) : bool :=
  match existingZones product with
  | Some (z :: zs) =>
      needsNormalization (z :: zs) &&
      match normalizeZoneFormat (z :: zs) with
      | None => true
      | Some _ => false
      end
  | _ => false
  end.



(** What entitles the loop to send mutation [m] for product [p]: the
    product has no zones and [m] carries the zones the matcher found for
    its title, or --normalize is on and [m] carries the normalized form
    of the product's own list, which has the legacy format. *)
Definition justified (cfg : Config) (plants : PlantDb) (p : Product)
           (m : Mutation) : Prop :=
  mutProduct m = productId p
  /\ ((hasZones p = false
       /\ exists found,
            lookupZones plants (extractPlantName (title p)) = Some found
            /\ mutZones m = zones found)
      \/ (normalize cfg = true
          /\ exists l nz,
               existingZones p = Some l
               /\ needsNormalization l = true
               /\ normalizeZoneFormat l = Some nz
               /\ mutZones m = Some nz)).

(** The list of the results that a turn of the loop records its product
    in. *)
Inductive Bucket := Updated | Normalized | Skipped | NotFound | Failed.

Definition bucket_eqb (a b : Bucket) : bool :=
  match a, b with
  | Updated, Updated | Normalized, Normalized | Skipped, Skipped
  | NotFound, NotFound | Failed, Failed => true
  | _, _ => false
  end.

(** The products whose bucket satisfies [f], in catalogue order;
    [buckets] gives the bucket of every product, position by position. *)
Fixpoint pick (f : Bucket -> bool) (buckets : list Bucket)
         (products : list Product) : list Product :=
  match buckets, products with
  | b :: buckets', p :: products' =>
      if f b then p :: pick f buckets' products'
      else pick f buckets' products'
  | _, _ => []
  end.


(** [sub] is [l] with some of its elements left out. *)
Inductive Subsequence {A : Type} : list A -> list A -> Prop :=
| sub_nil : Subsequence [] []
| sub_take (x : A) (sub l : list A) :
    Subsequence sub l -> Subsequence (x :: sub) (x :: l)
| sub_skip (x : A) (sub l : list A) :
    Subsequence sub l -> Subsequence sub (x :: l).

(** A small catalogue: a product the matcher resolves, one with a legacy
    zone list, one with an empty list and no match, one already in the
    plain format. *)
Definition sampleProducts : list Product :=
  [ {| productId := u "1"; title := u "Japanese Maple Tree";
       existingZones := None |}
  ; {| productId := u "2"; title := u "Hydrangea";
       existingZones := Some [JStr (u "zone-5")] |}
  ; {| productId := u "3"; title := u "Garden Gnome";
       existingZones := Some [] |}
  ; {| productId := u "4"; title := u "Red Maple";
       existingZones := Some [JStr (u "4")] |}
  ].

(** An API whose second mutation fails. *)
Definition sampleApi (n : nat) : option jsstring :=
  if Nat.eqb n 1 then Some (u "Shopify API error: 500") else None.

End PopulateMain.

(** ** The zone format audit script: the classification loop of main *)
Module AuditMain.
Import Js AuditZones.

Record Product := {
  title : jsstring;
  existingZones : option (list jsval)
}.

Record AuditResults := {
  noZones : list Product;
  oldFormat : list Product;
  newFormat : list Product;
  mixedFormat : list Product
}.

Definition emptyResults : AuditResults :=
  {| noZones := []; oldFormat := []; newFormat := []; mixedFormat := [] |}.

(** The switch on the format of one product. *)
Definition classify (r : AuditResults) (product : Product) : AuditResults :=
  match analyzeZoneFormat (existingZones product) with
  | none =>
      {| noZones := noZones r ++ [product]; oldFormat := oldFormat r;
         newFormat := newFormat r; mixedFormat := mixedFormat r |}
  | old =>
      {| noZones := noZones r; oldFormat := oldFormat r ++ [product];
         newFormat := newFormat r; mixedFormat := mixedFormat r |}
  | new =>
      {| noZones := noZones r; oldFormat := oldFormat r;
         newFormat := newFormat r ++ [product]; mixedFormat := mixedFormat r |}
  | mixed =>
      {| noZones := noZones r; oldFormat := oldFormat r;
         newFormat := newFormat r; mixedFormat := mixedFormat r ++ [product] |}
  end.

Definition auditAll (products : list Product) : AuditResults :=
  fold_left classify products emptyResults.

(** The test that prints ACTION REQUIRED; otherwise the script prints
    that all products have zones in the correct format. *)
Definition actionRequired (r : AuditResults) : bool :=
  (0 <? length (oldFormat r)) || (0 <? length (noZones r)).

Definition hasFormat (f : Format) (product : Product) : bool :=
  match analyzeZoneFormat (existingZones product), f with
  | none, none | old, old | new, new | mixed, mixed => true
  | _, _ => false
  end.

Definition sampleProducts : list Product :=
  [ {| title := u "Japanese Maple"; existingZones := Some [JStr (u "5")] |}
  ; {| title := u "Hydrangea";
       existingZones := Some [JStr (u "zone-5"); JStr (u "6")] |}
  ].

End AuditMain.

(** ** Vocabulary for the tie-break of the contains tier *)
Module MatcherVocabulary.
Import Js.

(** The longest hit of a list, the earliest one among equals. *)
Definition bestHit (P : jsstring -> bool) (l : list jsstring)
  : option jsstring :=
  fold_right
    (fun x acc =>
       match acc with
       | Some k => if P x && (length k <=? length x) then Some x else Some k
       | None => if P x then Some x else None
       end) None l.

End MatcherVocabulary.

From Stdlib Require QArith.

(** ** Numbers read from strings: parseInt

    A Number that parseInt returns is an integer or NaN; it is modelled
    as [option Z] with [None] for NaN. The integer is the exact value of
    the digits, as in the source for every value below 2^53. *)
Module JsNumber.
Import Js.

(** The value of a digit or letter as a digit of some radix. *)
Definition digitValue (c : N) : option Z :=
  if inRange 48 57 c then Some (Z.of_N c - 48)%Z
  else if inRange 97 122 c then Some (Z.of_N c - 87)%Z
  else if inRange 65 90 c then Some (Z.of_N c - 55)%Z
  else None.

Definition radixDigit (R : Z) (c : N) : option Z :=
  match digitValue c with
  | Some v => if (v <? R)%Z then Some v else None
  | None => None
  end.

(** The value of the longest prefix of radix-R digits; [acc] is the value
    of the digits read so far, [None] before the first one. *)
Fixpoint digitsValue (R : Z) (acc : option Z) (s : jsstring) : option Z :=
  match s with
  | [] => acc
  | c :: s' =>
      match radixDigit R c with
      | Some v =>
          digitsValue R
            (Some (match acc with
                   | Some a => a * R + v
                   | None => v
                   end)%Z) s'
      | None => acc
      end
  end.

(** [parseInt(s)] without a radix: leading white space is skipped, a sign
    is read, the prefix 0x or 0X selects radix 16, and the digits that
    follow give the value; NaN when there is none. *)
Definition parseInt (s : jsstring) : option Z :=
  let s1 := trimStart s in
  let signed :=
    match s1 with
    | c :: r =>
        if N.eqb c 45 then ((-1)%Z, r)
        else if N.eqb c 43 then (1%Z, r)
        else (1%Z, s1)
    | [] => (1%Z, s1)
    end in
  let s2 := snd signed in
  let based :=
    match s2 with
    | c :: x :: r =>
        if N.eqb c 48 && (N.eqb x 120 || N.eqb x 88) then (16%Z, r)
        else (10%Z, s2)
    | _ => (10%Z, s2)
    end in
  option_map (Z.mul (fst signed)) (digitsValue (fst based) None (snd based)).

(** SameValueZero on these numbers, the comparison of Array.includes:
    NaN is equal to NaN. *)
Definition sameValueZero (a b : option Z) : bool :=
  match a, b with
  | Some x, Some y => Z.eqb x y
  | None, None => true
  | _, _ => false
  end.

(** [zoneData.split(',').map(z => parseInt(z.trim()))] *)
Definition parseZoneList (zoneData : jsstring) : list (option Z) :=
  map (fun z => parseInt (trim z)) (split 44 zoneData).

(** The decimal digits of a zone number in a zone code. *)
Definition decimalValue (d : jsstring) : Z :=
  fold_left (fun a c => a * 10 + (Z.of_N c - 48))%Z d 0%Z.

End JsNumber.

(** ** The zone-selector widget: the form and the badges *)
Module ZoneWidget.
Import Js JsNumber ZoneSelector.

(** The input handler: [value.replace(/\D/g, '').substring(0, 5)]. *)
Definition sanitizeZipInput (value : jsstring) : jsstring :=
  substring 0 5 (filter isDigit value).

(** What handleZipSubmit does with the value of the input: the error for
    an invalid ZIP, the result (saved, shown and broadcast), or the
    error for a ZIP without zone data. *)
Inductive SubmitOutcome :=
| ShowInvalid
| ShowResult (zipCode : jsstring) (zoneData : ZoneResult)
| ShowNotFound.

Definition handleZipSubmit (value : jsstring) : SubmitOutcome :=
  let zipCode := trim value in
  if negb (truthy zipCode) || negb (length zipCode =? 5) then ShowInvalid
  else
    match getZoneFromZip zipCode with
    | Some zoneData => ShowResult zipCode zoneData
    | None => ShowNotFound
    end.

(** estimateZoneFromCoords; the latitude is a finite number, the
    longitude is not read. *)
Definition atLeast (bound : Z) (lat : QArith_base.Q) : bool :=
  QArith_base.Qle_bool (QArith_base.inject_Z bound) lat.

Definition estimateZoneCode (lat : QArith_base.Q) : jsstring :=
  if atLeast 45 lat then u "4b"
  else if atLeast 42 lat then u "5b"
  else if atLeast 39 lat then u "6b"
  else if atLeast 36 lat then u "7a"
  else if atLeast 33 lat then u "7b"
  else if atLeast 30 lat then u "8a"
  else if atLeast 27 lat then u "9a"
  else if atLeast 25 lat then u "10a"
  else u "10b".

Definition estimateZoneFromCoords (lat lng : QArith_base.Q) : ZoneResult :=
  let zoneCode := estimateZoneCode lat in
  {| zone := zoneCode; range := getOwn zoneCode zones |}.

(** updateZoneBadges: the test that marks an element zone-compatible;
    [productZone] is its data-product-zone attribute. *)
Definition zoneCompatible (userZone productZone : jsstring) : bool :=
  existsb (sameValueZero (parseInt userZone)) (parseZoneList productZone).

End ZoneWidget.

(** ** The Shop by Growing Zone page *)
Module ShopByZone.
Import Js JsNumber Regex.

(** Temperature ranges for each zone. *)
Definition tempRanges : list (Z * jsstring) :=
  [ (3, u "-40 to -30")
  ; (4, u "-30 to -20")
  ; (5, u "-20 to -10")
  ; (6, u "-10 to 0")
  ; (7, u "0 to 10")
  ; (8, u "10 to 20")
  ; (9, u "20 to 30")
  ; (10, u "30 to 40")
  ; (11, u "40 to 50")
  ]%Z.

Record ZoneRangeRow := { rowMin : Z; rowMax : Z; rowZone : Z }.

Definition zoneMap : list ZoneRangeRow :=
  [ {| rowMin := 995; rowMax := 999; rowZone := 4 |}  (* Alaska *)
  ; {| rowMin := 967; rowMax := 968; rowZone := 11 |}  (* Hawaii *)
  ; {| rowMin := 900; rowMax := 935; rowZone := 9 |}  (* Southern California *)
  ; {| rowMin := 850; rowMax := 865; rowZone := 8 |}  (* Arizona *)
  ; {| rowMin := 750; rowMax := 799; rowZone := 8 |}  (* Texas *)
  ; {| rowMin := 700; rowMax := 714; rowZone := 9 |}  (* Louisiana *)
  ; {| rowMin := 320; rowMax := 349; rowZone := 9 |}  (* Florida *)
  ; {| rowMin := 300; rowMax := 319; rowZone := 8 |}  (* Georgia *)
  ; {| rowMin := 270; rowMax := 289; rowZone := 7 |}  (* North Carolina *)
  ; {| rowMin := 220; rowMax := 246; rowZone := 7 |}  (* Virginia *)
  ; {| rowMin := 200; rowMax := 219; rowZone := 7 |}  (* DC area *)
  ; {| rowMin := 150; rowMax := 196; rowZone := 6 |}  (* Pennsylvania *)
  ; {| rowMin := 100; rowMax := 149; rowZone := 6 |}  (* New York *)
  ; {| rowMin := 10; rowMax := 69; rowZone := 5 |}  (* New England *)
  ; {| rowMin := 570; rowMax := 588; rowZone := 4 |}  (* North Dakota *)
  ; {| rowMin := 590; rowMax := 599; rowZone := 4 |}  (* Montana *)
  ; {| rowMin := 800; rowMax := 816; rowZone := 5 |}  (* Colorado *)
  ; {| rowMin := 970; rowMax := 979; rowZone := 6 |}  (* Oregon *)
  ; {| rowMin := 980; rowMax := 994; rowZone := 6 |}  (* Washington *)
  ]%Z.

(** A comparison with NaN is false. *)
Definition inRow (prefix : option Z) (row : ZoneRangeRow) : bool :=
  match prefix with
  | Some p => (rowMin row <=? p)%Z && (p <=? rowMax row)%Z
  | None => false
  end.

(** approximateZoneFromZip: the zone of the first row that holds the
    prefix, zone 7 when there is none. *)
Definition approximateZoneFromZip (zip : jsstring) : Z :=
  let prefix := parseInt (substring 0 3 zip) in
  match find (inRow prefix) zoneMap with
  | Some row => rowZone row
  | None => 7%Z
  end.

(** [this.tempRanges[zone] + '°F']; a zone without an entry, and NaN,
    give the text "undefined°F". *)
Definition tempLabel (zone : option Z) : jsstring :=
  match zone with
  | Some z =>
      match find (fun kv => Z.eqb (fst kv) z) tempRanges with
      | Some kv => snd kv ++ [176; 70]%N
      | None => u "undefined" ++ [176; 70]%N
      end
  | None => u "undefined" ++ [176; 70]%N
  end.

(** Two rows with the same bounds and zone. *)
Definition rowEq (a b : ZoneRangeRow) : bool :=
  Z.eqb (rowMin a) (rowMin b) && Z.eqb (rowMax a) (rowMax b)
  && Z.eqb (rowZone a) (rowZone b).

(** [/^\d{5}$/.test(zip)] *)
Definition zipPattern : re := seq [digit; digit; digit; digit; digit; Eos].

Definition testZip (zip : jsstring) : bool :=
  match matchk zipPattern zip (fun rest => Some rest) with
  | Some _ => true
  | None => false
  end.

(** What window.ZoneSelector.getZoneFromZip does when it is called: it
    throws, or returns a result or null. *)
Inductive ResolverAnswer :=
| Throws
| Returns (result : option ZoneSelector.ZoneResult).

(** What lookupZip ends with: the error for an invalid ZIP, a zone that
    is selected (saved, shown, products filtered), or the error that the
    zone could not be determined. *)
Inductive LookupOutcome :=
| ZipInvalid
| ZoneSelected (selectedZone : option Z) (selectedTemp : jsstring)
               (zip : jsstring)
| ZoneUndetermined.

(** lookupZip; [resolver] is window.ZoneSelector.getZoneFromZip when the
    widget script is loaded. *)
Definition lookupZip (resolver : option (jsstring -> ResolverAnswer))
           (value : jsstring) : LookupOutcome :=
  let zip := trim value in
  if negb (testZip zip) then ZipInvalid
  else
    let fallback :=
      let zone := approximateZoneFromZip zip in
      if negb (Z.eqb zone 0)
      then ZoneSelected (Some zone) (tempLabel (Some zone)) zip
      else ZoneUndetermined in
    match resolver with
    | Some getZoneFromZip =>
        match getZoneFromZip zip with
        | Returns (Some result) =>
            if ZoneSelector.truthy (ZoneSelector.zone result) then
              let selectedZone := parseInt (ZoneSelector.zone result) in
              ZoneSelected selectedZone (tempLabel selectedZone) zip
            else fallback
        | Returns None => fallback
        | Throws => fallback
        end
    | None => fallback
    end.

(** window.ZoneSelector.getZoneFromZip of the widget that resolves from
    its embedded table. *)
Definition widgetResolver (zip : jsstring) : ResolverAnswer :=
  Returns (ZoneSelector.getZoneFromZip zip).

(** filterProducts. The page as the function sees it: the cards of the
    grid, each with its data-product-zone attribute ([None] when it has
    none) and its zone-visible class, and the elements that cacheElements
    looked up, [None] for one that getElementById did not find. The
    animation delay written on a visible card, a floating-point product,
    is left out. *)
Record Card := { productZone : option jsstring; zoneVisible : bool }.

(** The text of an element: the text the page was served with, or a
    number the script has written into it. *)
Inductive TextContent :=
| Served (text : jsstring)
| Written (n : Z).

Record Element := { hidden : bool; textContent : TextContent }.

Record Page := {
  grid : option (list Card);
  prompt : option Element;
  empty : option Element;
  emptyZone : option Element;
  resultsHeader : option Element;
  resultsCount : option Element;
  resultsZone : option Element
}.

(** [if (e) { e.hidden = h; }] and [if (e) { e.textContent = n; }] *)
Definition setHidden (h : bool) (e : option Element) : option Element :=
  option_map (fun x => {| hidden := h; textContent := textContent x |}) e.

Definition setText (n : Z) (e : option Element) : option Element :=
  option_map (fun x => {| hidden := hidden x; textContent := Written n |}) e.

Definition withClass (card : Card) (visible : bool) : Card :=
  {| productZone := productZone card; zoneVisible := visible |}.

(** The forEach over the cards; [visibleCount] is the counter it
    increments. *)
Fixpoint filterCards (selectedZone : Z) (cards : list Card)
         (visibleCount : nat) : list Card * nat :=
  match cards with
  | [] => ([], visibleCount)
  | card :: rest =>
      match productZone card with
      | Some (c :: zoneData) =>
          if existsb (sameValueZero (Some selectedZone))
                     (parseZoneList (c :: zoneData))
          then
            let r := filterCards selectedZone rest (S visibleCount) in
            (withClass card true :: fst r, snd r)
          else
            let r := filterCards selectedZone rest visibleCount in
            (withClass card false :: fst r, snd r)
      | _ =>
          let r := filterCards selectedZone rest visibleCount in
          (withClass card false :: fst r, snd r)
      end
  end.

(** [selectedZone] is [None] for null and NaN. The page is returned as
    it was when the function returns before touching a card. *)
Definition filterProducts (selectedZone : option Z) (page : Page) : Page :=
  match grid page, selectedZone with
  | Some cards, Some z =>
      if Z.eqb z 0 then page
      else
        let r := filterCards z cards 0 in
        let visibleCount := snd r in
        if 0 <? visibleCount then
          {| grid := Some (fst r);
             prompt := setHidden true (prompt page);
             empty := setHidden true (empty page);
             emptyZone := emptyZone page;
             resultsHeader := setHidden false (resultsHeader page);
             resultsCount :=
               setText (Z.of_nat visibleCount) (resultsCount page);
             resultsZone := setText z (resultsZone page) |}
        else
          {| grid := Some (fst r);
             prompt := setHidden true (prompt page);
             empty := setHidden false (empty page);
             emptyZone := setText z (emptyZone page);
             resultsHeader := setHidden true (resultsHeader page);
             resultsCount := resultsCount page;
             resultsZone := resultsZone page |}
  | _, _ => page
  end.

(** The page as it is served: the prompt shown, the results header and
    the empty state hidden, and a grid of cards with the given zone
    data. *)
Definition servedElement (h : bool) (text : string) : option Element :=
  Some {| hidden := h; textContent := Served (u text) |}.

Definition sampleZoneData : list (option jsstring) :=
  [Some (u "5,6,7"); None; Some (u ""); Some (u "7b, 8")].

Definition samplePage (zoneData : list (option jsstring)) : Page :=
  {| grid := Some (map (fun z => {| productZone := z; zoneVisible := false |})
                       zoneData);
     prompt := servedElement false "Select your zone";
     empty := servedElement true "No products";
     emptyZone := servedElement false "";
     resultsHeader := servedElement true "";
     resultsCount := servedElement false "0";
     resultsZone := servedElement false "" |}.

End ShopByZone.

(** ** The zone lookup test script: the suite *)
Module ZoneLookupSuite.
Import Js ZoneLookupTest.

Record TestCase := {
  zip : jsstring;
  city : jsstring;
  expectedZone : jsstring;
  region : jsstring
}.

(** Test cases organized by region. *)
Definition testCases : list TestCase :=
  (* Northeast *)
  [ {| zip := u "01001"; city := u "Springfield, MA"; expectedZone := u "6a"; region := u "Northeast" |}
  ; {| zip := u "10001"; city := u "New York, NY"; expectedZone := u "7b"; region := u "Northeast" |}
  ; {| zip := u "02101"; city := u "Boston, MA"; expectedZone := u "7a"; region := u "Northeast" |}
  ; {| zip := u "05401"; city := u "Burlington, VT"; expectedZone := u "5a"; region := u "Northeast" |}
  ; {| zip := u "04401"; city := u "Bangor, ME"; expectedZone := u "5a"; region := u "Northeast" |}
  (* Southeast *)
  ; {| zip := u "32801"; city := u "Orlando, FL"; expectedZone := u "10a"; region := u "Southeast" |}
  ; {| zip := u "33101"; city := u "Miami, FL"; expectedZone := u "11a"; region := u "Southeast" |}
  ; {| zip := u "30301"; city := u "Atlanta, GA"; expectedZone := u "8a"; region := u "Southeast" |}
  ; {| zip := u "27601"; city := u "Raleigh, NC"; expectedZone := u "8a"; region := u "Southeast" |}
  ; {| zip := u "29401"; city := u "Charleston, SC"; expectedZone := u "9a"; region := u "Southeast" |}
  (* Midwest *)
  ; {| zip := u "60601"; city := u "Chicago, IL"; expectedZone := u "6a"; region := u "Midwest" |}
  ; {| zip := u "55401"; city := u "Minneapolis, MN"; expectedZone := u "5a"; region := u "Midwest" |}
  ; {| zip := u "48201"; city := u "Detroit, MI"; expectedZone := u "6b"; region := u "Midwest" |}
  ; {| zip := u "43201"; city := u "Columbus, OH"; expectedZone := u "6b"; region := u "Midwest" |}
  ; {| zip := u "46201"; city := u "Indianapolis, IN"; expectedZone := u "6b"; region := u "Midwest" |}
  (* Southwest *)
  ; {| zip := u "85001"; city := u "Phoenix, AZ"; expectedZone := u "10a"; region := u "Southwest" |}
  ; {| zip := u "87501"; city := u "Santa Fe, NM"; expectedZone := u "6b"; region := u "Southwest" |}
  ; {| zip := u "89101"; city := u "Las Vegas, NV"; expectedZone := u "9b"; region := u "Southwest" |}
  ; {| zip := u "79901"; city := u "El Paso, TX"; expectedZone := u "8b"; region := u "Southwest" |}
  (* Texas *)
  ; {| zip := u "75201"; city := u "Dallas, TX"; expectedZone := u "8b"; region := u "Texas" |}
  ; {| zip := u "77001"; city := u "Houston, TX"; expectedZone := u "9b"; region := u "Texas" |}
  ; {| zip := u "78201"; city := u "San Antonio, TX"; expectedZone := u "9a"; region := u "Texas" |}
  ; {| zip := u "73301"; city := u "Austin, TX"; expectedZone := u "9a"; region := u "Texas" |}
  (* Mountain West *)
  ; {| zip := u "80201"; city := u "Denver, CO"; expectedZone := u "6a"; region := u "Mountain West" |}
  ; {| zip := u "84101"; city := u "Salt Lake City, UT"; expectedZone := u "7b"; region := u "Mountain West" |}
  ; {| zip := u "59601"; city := u "Helena, MT"; expectedZone := u "4b"; region := u "Mountain West" |}
  ; {| zip := u "82001"; city := u "Cheyenne, WY"; expectedZone := u "5b"; region := u "Mountain West" |}
  (* Pacific Northwest *)
  ; {| zip := u "98101"; city := u "Seattle, WA"; expectedZone := u "9a"; region := u "Pacific Northwest" |}
  ; {| zip := u "97201"; city := u "Portland, OR"; expectedZone := u "9a"; region := u "Pacific Northwest" |}
  ; {| zip := u "99201"; city := u "Spokane, WA"; expectedZone := u "7a"; region := u "Pacific Northwest" |}
  (* California *)
  ; {| zip := u "90001"; city := u "Los Angeles, CA"; expectedZone := u "10b"; region := u "California" |}
  ; {| zip := u "94102"; city := u "San Francisco, CA"; expectedZone := u "10b"; region := u "California" |}
  ; {| zip := u "92101"; city := u "San Diego, CA"; expectedZone := u "10b"; region := u "California" |}
  ; {| zip := u "95814"; city := u "Sacramento, CA"; expectedZone := u "9b"; region := u "California" |}
  (* Alaska *)
  ; {| zip := u "99501"; city := u "Anchorage, AK"; expectedZone := u "5a"; region := u "Alaska" |}
  ; {| zip := u "99701"; city := u "Fairbanks, AK"; expectedZone := u "2a"; region := u "Alaska" |}
  ; {| zip := u "99801"; city := u "Juneau, AK"; expectedZone := u "7a"; region := u "Alaska" |}
  (* Hawaii *)
  ; {| zip := u "96701"; city := u "Honolulu area, HI"; expectedZone := u "12b"; region := u "Hawaii" |}
  ; {| zip := u "96720"; city := u "Hilo, HI"; expectedZone := u "12b"; region := u "Hawaii" |}
  ; {| zip := u "96740"; city := u "Kailua-Kona, HI"; expectedZone := u "12b"; region := u "Hawaii" |}
  ].

(** What [sourceData[zipCode] || null] evaluates to: null, a zone of the
    CSV data, or a member that the object inherits from Object.prototype
    (truthy, so it is returned as it is). *)
Inductive SourceAnswer :=
| NoZone
| SourceZone (z : jsstring)
| InheritedMember.

Definition getZoneFromSource (sourceData : list (jsstring * jsstring))
           (zipCode : jsstring) : SourceAnswer :=
  match getOwn zipCode sourceData with
  | Some z => if ZoneSelector.truthy z then SourceZone z else NoZone
  | None =>
      if existsb (str_eqb zipCode) PopulateZones.objectPrototypeNames
      then InheritedMember else NoZone
  end.

(** [data[key] = value] on a plain object: an existing key keeps its
    place, a new one goes last; assigning a string to __proto__ changes
    nothing. *)
Fixpoint assign (key value : jsstring) (data : list (jsstring * jsstring))
  : list (jsstring * jsstring) :=
  match data with
  | [] => [(key, value)]
  | (k, v) :: rest =>
      if str_eqb k key then (k, value) :: rest
      else (k, v) :: assign key value rest
  end.

Definition setProp (key value : jsstring) (data : list (jsstring * jsstring))
  : list (jsstring * jsstring) :=
  if str_eqb key (u "__proto__") then data else assign key value data.

(** One data line of the CSV: [const [zipcode, zone] = line.split(',')]. *)
Definition loadLine (data : list (jsstring * jsstring)) (line : jsstring)
  : list (jsstring * jsstring) :=
  match split 44 line with
  | zipcode :: zone :: _ =>
      if ZoneSelector.truthy zipcode && ZoneSelector.truthy zone
      then setProp (trim zipcode) (trim zone) data
      else data
  | _ => data
  end.

(** What a data line stores: the trimmed first two fields, when both
    fields are non-empty and the key is not __proto__. *)
Definition assigns (line : jsstring) : option (jsstring * jsstring) :=
  match split 44 line with
  | zipcode :: zone :: _ =>
      if ZoneSelector.truthy zipcode && ZoneSelector.truthy zone
         && negb (str_eqb (trim zipcode) (u "__proto__"))
      then Some (trim zipcode, trim zone)
      else None
  | _ => None
  end.

(** loadSourceCSV on the text of the file; the header line is skipped. *)
Definition loadSourceCSV (content : jsstring) : list (jsstring * jsstring) :=
  fold_left loadLine (tl (split 10 (trim content))) [].

(** [lookupZone === test.expectedZone] *)
Definition lookupPass (lookupTable : list (jsstring * jsstring))
           (test : TestCase) : bool :=
  match getZoneFromLookup lookupTable (zip test) with
  | Some z => str_eqb z (expectedZone test)
  | None => false
  end.

(** [lookupZone === sourceZone] of the cross-reference check. *)
Definition sameAsSource (lookupTable sourceData : list (jsstring * jsstring))
           (test : TestCase) : bool :=
  match getZoneFromLookup lookupTable (zip test),
        getZoneFromSource sourceData (zip test) with
  | Some a, SourceZone b => str_eqb a b
  | None, NoZone => true
  | _, _ => false
  end.

Record SuiteResult := {
  passed : nat;
  failed : nat;
  failures : list TestCase;
  matches : nat;
  mismatches : nat;
  exitCode : nat
}.

(** The two loops of runTests over the test cases. *)
Definition runTestsOn (cases : list TestCase)
           (lookupTable sourceData : list (jsstring * jsstring))
  : SuiteResult :=
  let counts :=
    fold_left
      (fun acc test =>
         let '(p, f, fs) := acc in
         if lookupPass lookupTable test then (S p, f, fs)
         else (p, S f, fs ++ [test]))
      cases (0, 0, []) in
  let cross :=
    fold_left
      (fun acc test =>
         let '(m, mm) := acc in
         if sameAsSource lookupTable sourceData test then (S m, mm)
         else (m, S mm))
      cases (0, 0) in
  {| passed := fst (fst counts);
     failed := snd (fst counts);
     failures := snd counts;
     matches := fst cross;
     mismatches := snd cross;
     exitCode := if snd (fst counts) =? 0 then 0 else 1 |}.

Definition runTests (lookupTable sourceData : list (jsstring * jsstring))
  : SuiteResult :=
  runTestsOn testCases lookupTable sourceData.

End ZoneLookupSuite.

(* ================================================================== *)
(** * Part II -- properties                                            *)
(* ================================================================== *)

(** ** Strings and property reads *)
Module JsFacts.
Import Js.

Lemma str_eqb_eq (a b : jsstring) : str_eqb a b = true <-> a = b.
Proof.
  revert b; induction a as [|x a IH]; intros [|y b]; simpl;
    try (split; [discriminate | discriminate]); try tauto.
  rewrite andb_true_iff, N.eqb_eq, IH.
  split; [intros [-> ->]; reflexivity | intros E; inversion E; auto].
Qed.

Lemma str_eqb_refl (a : jsstring) : str_eqb a a = true.
Proof. apply str_eqb_eq; reflexivity. Qed.

Lemma str_eqb_neq (a b : jsstring) : str_eqb a b = false <-> a <> b.
Proof.
  rewrite <- str_eqb_eq. destruct (str_eqb a b); split; congruence.
Qed.

Lemma getOwn_In {A} (k : jsstring) (o : list (jsstring * A)) (v : A) :
  getOwn k o = Some v -> In (k, v) o.
Proof.
  unfold getOwn. destruct (find _ o) as [[k' v']|] eqn:F; simpl; [|discriminate].
  intros E; inversion E; subst.
  apply find_some in F. destruct F as [HIn Hk]. simpl in Hk.
  apply str_eqb_eq in Hk. subst. exact HIn.
Qed.

Lemma getOwn_None {A} (k : jsstring) (o : list (jsstring * A)) :
  getOwn k o = None <-> ~ In k (keys o).
Proof.
  unfold getOwn, keys. split.
  - destruct (find _ o) as [kv|] eqn:F; simpl; [discriminate|].
    intros _ HIn. apply in_map_iff in HIn. destruct HIn as [[k' v] [E HIn]].
    simpl in E; subst.
    pose proof (find_none _ _ F _ HIn) as H. simpl in H.
    rewrite str_eqb_refl in H. discriminate.
  - intros HN. destruct (find _ o) as [[k' v]|] eqn:F; simpl; [|reflexivity].
    exfalso. apply find_some in F. destruct F as [HIn Hk]. simpl in Hk.
    apply str_eqb_eq in Hk. subst. apply HN.
    apply in_map_iff. exists (k, v). auto.
Qed.

Lemma getOwn_key {A} (k : jsstring) (o : list (jsstring * A)) :
  In k (keys o) -> exists v, getOwn k o = Some v.
Proof.
  intros HIn. destruct (getOwn k o) as [v|] eqn:E; [eauto|].
  apply getOwn_None in E. contradiction.
Qed.

Lemma startsWith_app (p s : jsstring) :
  startsWith p s = true <-> exists t, s = p ++ t.
Proof.
  revert s; induction p as [|x p IH]; intros s; simpl.
  - split; [eauto | reflexivity].
  - destruct s as [|y s].
    + split; [discriminate | intros [t E]; discriminate].
    + rewrite andb_true_iff, N.eqb_eq, IH. split.
      * intros [-> [t ->]]. eauto.
      * intros [t E]. inversion E; subst. eauto.
Qed.

Lemma includes_app (s k : jsstring) :
  includes s k = true <-> exists a b, s = a ++ k ++ b.
Proof.
  induction s as [|c s IH]; simpl.
  - rewrite orb_false_r, startsWith_app. split.
    + intros [t E]. exists [], t. exact E.
    + intros [a [b E]]. destruct a; simpl in E.
      * eauto.
      * discriminate.
  - rewrite orb_true_iff, startsWith_app, IH. split.
    + intros [[t E] | [a [b E]]].
      * exists [], t. exact E.
      * exists (c :: a), b. simpl. congruence.
    + intros [[|x a] [b E]]; simpl in E.
      * left. eauto.
      * right. inversion E; subst. eauto.
Qed.

Lemma substring_length (a b : nat) (s : jsstring) :
  length (substring a b s) <= Nat.max a b - Nat.min a b.
Proof. unfold substring. rewrite length_firstn. lia. Qed.

End JsFacts.

(** ** The ZIP-to-zone resolver *)
Module ZoneResolver.
Import Js JsFacts ZoneSelector ZoneLookupTest.

(** A property read with the three-unit prefix never reaches
    Object.prototype: every inherited name is longer. *)
Lemma prefix_not_inherited (zipCode : jsstring) :
  existsb (str_eqb (substring 0 3 zipCode))
          PopulateZones.objectPrototypeNames = false.
Proof.
  destruct (existsb _ _) eqn:E; [|reflexivity].
  apply existsb_exists in E. destruct E as [n [HIn Heq]].
  apply str_eqb_eq in Heq.
  pose proof (substring_length 0 3 zipCode) as L. rewrite Heq in L.
  simpl in L.
  assert (forallb (fun n => 3 <? length n)
                  PopulateZones.objectPrototypeNames = true)
    as F by (vm_compute; reflexivity).
  rewrite forallb_forall in F. apply F in HIn.
  apply Nat.ltb_lt in HIn. lia.
Qed.

(** Data-model invariant of the embedded table: every prefix maps to a
    non-empty zone code that has a temperature range. *)
Lemma zipToZone_closed (p code : jsstring) :
  getOwn p zipToZone = Some code ->
  truthy code = true /\ exists r, getOwn code zones = Some r.
Proof.
  intros H. apply getOwn_In in H.
  assert (forallb (fun kv => truthy (snd kv) &&
                    match getOwn (snd kv) zones with
                    | Some _ => true | None => false end)
                  zipToZone = true) as F by (vm_compute; reflexivity).
  rewrite forallb_forall in F. apply F in H. simpl in H.
  apply andb_true_iff in H. destruct H as [T R]. split; [exact T|].
  destruct (getOwn code zones) as [r|]; [eauto | discriminate].
Qed.

Lemma zones_keys_truthy (code : jsstring) :
  In code (keys zones) -> truthy code = true.
Proof.
  assert (forallb truthy (keys zones) = true) as F
      by (vm_compute; reflexivity).
  rewrite forallb_forall in F. apply F.
Qed.

Lemma getZoneFromZip_prefix (zipCode : jsstring) :
  getZoneFromZip zipCode =
  match getOwn (substring 0 3 zipCode) zipToZone with
  | Some code => Some {| zone := code; range := getOwn code zones |}
  | None => None
  end.
Proof.
  unfold getZoneFromZip.
  destruct (getOwn (substring 0 3 zipCode) zipToZone) as [code|] eqn:E;
    [|reflexivity].
  apply zipToZone_closed in E. destruct E as [-> _]. reflexivity.
Qed.

(** C1. Two 5-digit numeric ZIP strings with the same first three
    characters get the same answer from getZoneFromLookup, whatever the
    table, and from getZoneFromZip on the embedded table; the widget's
    answer is null or the prefix's zone code together with the
    temperature range the zones table holds for that code. *)
Theorem resolveZone_prefix_only
        (lookupTable : list (jsstring * jsstring)) (zip1 zip2 : jsstring) :
  isZip5 zip1 = true -> isZip5 zip2 = true ->
  substring 0 3 zip1 = substring 0 3 zip2 ->
  getZoneFromLookup lookupTable zip1 = getZoneFromLookup lookupTable zip2
  /\ getZoneFromZip zip1 = getZoneFromZip zip2
  /\ (getZoneFromZip zip1 = None
      \/ exists code r,
           getOwn (substring 0 3 zip1) zipToZone = Some code
           /\ getOwn code zones = Some r
           /\ getZoneFromZip zip1 = Some {| zone := code; range := Some r |}
           /\ getZoneFromZip zip2 = Some {| zone := code; range := Some r |}).
Proof.
  intros _ _ P. split; [|split].
  - unfold getZoneFromLookup. rewrite P. reflexivity.
  - unfold getZoneFromZip. rewrite P. reflexivity.
  - rewrite !getZoneFromZip_prefix, <- P.
    destruct (getOwn (substring 0 3 zip1) zipToZone) as [code|] eqn:E;
      [right | left; reflexivity].
    destruct (zipToZone_closed _ E) as [_ [r R]].
    exists code, r. rewrite R. auto.
Qed.

Lemma resolveZone_prefix_only_witness :
  getZoneFromLookup zipToZone (u "01001") = getZoneFromLookup zipToZone (u "01099")
  /\ getZoneFromZip (u "01001") = getZoneFromZip (u "01099")
  /\ (getZoneFromZip (u "01001") = None
      \/ exists code r,
           getOwn (substring 0 3 (u "01001")) zipToZone = Some code
           /\ getOwn code zones = Some r
           /\ getZoneFromZip (u "01001") = Some {| zone := code; range := Some r |}
           /\ getZoneFromZip (u "01099") = Some {| zone := code; range := Some r |}).
Proof.
  apply (@resolveZone_prefix_only zipToZone (u "01001") (u "01099"));
    reflexivity.
Defined.

(** C7. For a 5-digit ZIP string the resolver answers null exactly when
    the three-digit prefix is no key of the zone table: getZoneFromZip
    on the embedded table, getZoneFromLookup on every table that keeps
    the data-model invariant (each prefix maps to a zone code of the
    zone-range mapping). Both are total functions of the ZIP string:
    there is no input on which they fail to answer. *)
Theorem resolveZone_null_iff_absent
        (lookupTable : list (jsstring * jsstring)) (zipCode : jsstring) :
  isZip5 zipCode = true ->
  Forall (fun kv => In (snd kv) (keys zones)) lookupTable ->
  (getZoneFromZip zipCode = None
     <-> ~ In (substring 0 3 zipCode) (keys zipToZone))
  /\ (getZoneFromLookup lookupTable zipCode = None
        <-> ~ In (substring 0 3 zipCode) (keys lookupTable)).
Proof.
  intros _ WF. split.
  - rewrite getZoneFromZip_prefix, <- getOwn_None.
    destruct (getOwn (substring 0 3 zipCode) zipToZone);
      split; congruence.
  - rewrite <- getOwn_None. unfold getZoneFromLookup.
    destruct (getOwn (substring 0 3 zipCode) lookupTable) as [z|] eqn:E;
      [|tauto].
    apply getOwn_In in E. rewrite Forall_forall in WF.
    apply WF in E. simpl in E. apply zones_keys_truthy in E.
    rewrite E. split; discriminate.
Qed.

(** Prefix 005 is in neither table, prefix 010 in both. *)
Lemma resolveZone_null_iff_absent_witness :
  ((getZoneFromZip (u "00501") = None
      <-> ~ In (substring 0 3 (u "00501")) (keys zipToZone))
   /\ (getZoneFromLookup [(u "010", u "6a")] (u "00501") = None
         <-> ~ In (substring 0 3 (u "00501")) (keys [(u "010", u "6a")])))
  /\ getZoneFromZip (u "00501") = None
  /\ getZoneFromLookup [(u "010", u "6a")] (u "00501") = None
  /\ getZoneFromLookup [(u "010", u "6a")] (u "01001") = Some (u "6a").
Proof.
  split; [|repeat split; reflexivity].
  apply (@resolveZone_null_iff_absent [(u "010", u "6a")] (u "00501")).
  - reflexivity.
  - apply Forall_cons; [|apply Forall_nil].
    simpl. do 10 right. left. reflexivity.
Defined.

Lemma disagreements_count : length AssetZoneSelector.disagreements = 120.
Proof. vm_compute. reflexivity. Qed.

(** C9. Some three-digit prefix is a key of both embedded copies of the
    ZIP-prefix table and is mapped to different zone codes by them
    (prefix 750: 8a in the widget's table, 8b in the asset's entries);
    so the two tables are not equal on their common domain. *)
Theorem zone_tables_disagree :
  (exists p a b,
      getOwn p zipToZone = Some a
      /\ getOwn p AssetZoneSelector.prefixToZone = Some b
      /\ a <> b)
  /\ ~ (forall p a b,
          getOwn p zipToZone = Some a ->
          getOwn p AssetZoneSelector.prefixToZone = Some b ->
          a = b).
Proof.
  assert (getOwn (u "750") zipToZone = Some (u "8a")) as H1
      by (vm_compute; reflexivity).
  assert (getOwn (u "750") AssetZoneSelector.prefixToZone = Some (u "8b"))
    as H2 by (vm_compute; reflexivity).
  split.
  - exists (u "750"), (u "8a"), (u "8b"). repeat split; auto. discriminate.
  - intros H. specialize (H _ _ _ H1 H2). discriminate.
Qed.

End ZoneResolver.

(** ** The regular-expression matcher *)
Module RegexFacts.
Import Js Regex.

(** Every answer of the matcher is an answer of its continuation. *)
Lemma matchk_answer (r : re) :
  forall s k y, matchk r s k = Some y -> exists x, k x = Some y.
Proof.
  induction r as [|p|r1 IH1 r2 IH2|r1 IH1 r2 IH2|r1 IH1|r1 IH1|];
    intros s k y; simpl.
  - eauto.
  - destruct s as [|c s']; [discriminate|].
    destruct (p c); [eauto | discriminate].
  - intros H. apply IH1 in H. destruct H as [x H]. eapply IH2; eauto.
  - destruct (matchk r1 s k) eqn:E.
    + intros H; inversion H; subst. eapply IH1; eauto.
    + apply IH2.
  - generalize (length s) as n. intros n; revert s.
    induction n as [|n IHn]; intros s; [eauto|].
    destruct (matchk r1 s _) eqn:E.
    + intros H; inversion H; subst.
      apply IH1 in E. destruct E as [x E].
      destruct (length x <? length s); [|discriminate].
      eapply IHn; eauto.
    + eauto.
  - generalize (length s) as n. intros n; revert s.
    induction n as [|n IHn]; intros s; [eauto|].
    destruct (k s) eqn:E.
    + intros H; inversion H; subst. eauto.
    + intros H. apply IH1 in H. destruct H as [x H].
      destruct (length x <? length s); [|discriminate].
      eapply IHn; eauto.
  - destruct s; [eauto | discriminate].
Qed.

(** A pattern that ends in [$] consumes the input to its end. *)
Lemma matchk_eos (r : re) :
  endsEos r = true ->
  forall s k y,
    (forall z, k [] = Some z -> z = []) ->
    matchk r s k = Some y -> y = [].
Proof.
  induction r as [|p|r1 IH1 r2 IH2|r1 IH1 r2 IH2|r1 IH1|r1 IH1|];
    simpl; try discriminate; intros E s k y Hk.
  - intros H. apply matchk_answer in H. destruct H as [x H].
    eapply IH2; eauto.
  - apply andb_true_iff in E. destruct E as [E1 E2].
    destruct (matchk r1 s k) eqn:M.
    + intros H; inversion H; subst. eapply IH1; eauto.
    + eapply IH2; eauto.
  - destruct s; [auto | discriminate].
Qed.

(** Removing the match of such a pattern leaves a prefix of the
    subject. *)
Lemma replaceRe_prefix (r : re) (s : jsstring) :
  endsEos r = true -> exists q, s = replaceRe r s ++ q.
Proof.
  intros E. induction s as [|c s IH]; simpl.
  - destruct (matchk r [] _) eqn:M.
    + apply (matchk_eos r E) in M; [subst; exists []; reflexivity|].
      intros z Hz; inversion Hz; reflexivity.
    + exists []; reflexivity.
  - destruct (matchk r (c :: s) _) eqn:M.
    + apply (matchk_eos r E) in M; [subst; eexists; reflexivity|].
      intros z Hz; inversion Hz; reflexivity.
    + destruct IH as [q IH]. exists q. simpl. congruence.
Qed.

Lemma replaceRe_length (r : re) (s : jsstring) :
  endsEos r = true -> length (replaceRe r s) <= length s.
Proof.
  intros E. destruct (replaceRe_prefix r s E) as [q H].
  rewrite H at 2. rewrite length_app. lia.
Qed.

(** Where the pattern matches nowhere, replace returns its subject. *)
Lemma replaceRe_no_match (r : re) (s : jsstring) :
  test r s = false -> replaceRe r s = s.
Proof.
  induction s as [|c s IH]; simpl.
  - destruct (matchk r [] _); [discriminate | reflexivity].
  - destruct (matchk r (c :: s) _); [discriminate|].
    intros H. rewrite IH by exact H. reflexivity.
Qed.

(** Where it matches, and cannot match the empty string, something is
    cut off. *)
Lemma replaceRe_shorter (r : re) (s : jsstring) :
  endsEos r = true ->
  matchk r [] (fun rest => Some rest) = None ->
  test r s = true -> length (replaceRe r s) < length s.
Proof.
  intros E N. induction s as [|c s IH]; simpl.
  - rewrite N. discriminate.
  - destruct (matchk r (c :: s) _) eqn:M.
    + intros _. apply (matchk_eos r E) in M.
      * subst. simpl. lia.
      * intros z Hz; inversion Hz; reflexivity.
    + intros H. simpl. apply IH in H. lia.
Qed.

End RegexFacts.

(** ** extractPlantName *)
Module ExtractFacts.
Import Js Regex JsFacts RegexFacts PopulateZones Vocabulary.

Ltac range_cases :=
  unfold inRange;
  repeat match goal with
         | |- context [N.leb ?a ?b] => destruct (N.leb_spec a b)
         | |- context [N.eqb ?a ?b] => destruct (N.eqb_spec a b)
         end; simpl; try reflexivity; try lia.

Lemma lowerUnit_idem (c : N) : lowerUnit (lowerUnit c) = lowerUnit c.
Proof.
  unfold lowerUnit, inRange.
  destruct (N.leb_spec 65 c), (N.leb_spec c 90), (N.leb_spec 192 c),
    (N.leb_spec c 222), (N.eqb_spec c 215); simpl; try lia;
    range_cases.
Qed.

Ltac no_space :=
  unfold isSpace, inRange;
  repeat (apply orb_false_intro);
  solve [ apply N.eqb_neq; lia
        | apply andb_false_iff; left; apply N.leb_gt; lia
        | apply andb_false_iff; right; apply N.leb_gt; lia ].

Lemma isSpace_low (c : N) : (33 <= c <= 159)%N -> isSpace c = false.
Proof. intros H. no_space. Qed.

Lemma isSpace_mid (c : N) : (161 <= c <= 5759)%N -> isSpace c = false.
Proof. intros H. no_space. Qed.

Lemma isSpace_lower (c : N) : isSpace (lowerUnit c) = isSpace c.
Proof.
  unfold lowerUnit, inRange.
  destruct (N.leb_spec 65 c), (N.leb_spec c 90); simpl;
    try (rewrite !isSpace_low by lia; reflexivity);
    destruct (N.leb_spec 192 c), (N.leb_spec c 222), (N.eqb_spec c 215);
    simpl; try reflexivity;
    rewrite !isSpace_mid by lia; reflexivity.
Qed.

(** *** White space at the two ends *)

Lemma trimStart_suffix (s : jsstring) : exists a, s = a ++ trimStart s.
Proof.
  induction s as [|c s [a IH]]; simpl.
  - exists []; reflexivity.
  - destruct (isSpace c).
    + exists (c :: a). simpl. congruence.
    + exists []. reflexivity.
Qed.

Lemma trimStart_headOk (s : jsstring) : headOk (trimStart s).
Proof.
  induction s as [|c s IH]; simpl; [exact I|].
  destruct (isSpace c) eqn:E; [exact IH | simpl; exact E].
Qed.

Lemma trimStart_fix (s : jsstring) : headOk s -> trimStart s = s.
Proof. destruct s as [|c s]; simpl; [reflexivity|]. intros ->. reflexivity. Qed.

Lemma trimEnd_prefix (s : jsstring) : exists q, s = trimEnd s ++ q.
Proof.
  unfold trimEnd. destruct (trimStart_suffix (rev s)) as [a E].
  exists (rev a). rewrite <- rev_app_distr, <- E, rev_involutive.
  reflexivity.
Qed.

Lemma trimEnd_idem (s : jsstring) : trimEnd (trimEnd s) = trimEnd s.
Proof.
  unfold trimEnd. rewrite rev_involutive.
  rewrite (trimStart_fix (trimStart (rev s))) by apply trimStart_headOk.
  reflexivity.
Qed.

Lemma headOk_prefix (p q : jsstring) : headOk (p ++ q) -> headOk p.
Proof. destruct p; simpl; auto. Qed.

Lemma trim_headOk (s : jsstring) : headOk (trim s).
Proof.
  unfold trim. destruct (trimEnd_prefix (trimStart s)) as [q E].
  apply headOk_prefix with q. rewrite <- E. apply trimStart_headOk.
Qed.

Lemma trim_idem (s : jsstring) : trim (trim s) = trim s.
Proof.
  unfold trim at 1. rewrite trimStart_fix by apply trim_headOk.
  unfold trim. apply trimEnd_idem.
Qed.

(** *** The cleaned shape *)

Lemma clean_weaken (b : bool) (s : jsstring) : clean b s -> clean false s.
Proof.
  destruct s as [|c s]; simpl; [auto|].
  intros [L [G [S C]]]. repeat split; auto; apply S; assumption.
Qed.

Lemma clean_prefix (p q : jsstring) :
  forall b, clean b (p ++ q) -> clean b p.
Proof.
  induction p as [|c p IH]; simpl; [auto|].
  intros b [L [G [S C]]]. repeat split; auto; try (apply S; assumption).
Qed.

Lemma clean_suffix (p q : jsstring) :
  forall b, clean b (p ++ q) -> clean false q.
Proof.
  induction p as [|c p IH]; simpl; intros b.
  - apply clean_weaken.
  - intros [_ [_ [_ C]]]. eapply IH; eauto.
Qed.

Lemma clean_toLowerCase (s : jsstring) : forall b, clean b s -> toLowerCase s = s.
Proof.
  induction s as [|c s IH]; simpl; [reflexivity|].
  intros b [L [_ [_ C]]]. rewrite L. f_equal. eapply IH; eauto.
Qed.

Lemma clean_stripGlyphs (s : jsstring) : forall b, clean b s -> stripGlyphs s = s.
Proof.
  induction s as [|c s IH]; simpl; [reflexivity|].
  intros b [_ [G [_ C]]]. rewrite G. simpl. f_equal. eapply IH; eauto.
Qed.

Lemma clean_collapse (s : jsstring) : forall b, clean b s -> collapseFrom b s = s.
Proof.
  induction s as [|c s IH]; simpl; [reflexivity|].
  intros b [_ [_ [S C]]]. destruct (isSpace c) eqn:E.
  - destruct (S eq_refl) as [-> ->]. f_equal. apply IH. exact C.
  - f_equal. apply IH. exact C.
Qed.

Lemma collapse_clean (s : jsstring) :
  Forall (fun c => lowerUnit c = c /\ isGlyph c = false) s ->
  forall b, clean b (collapseFrom b s).
Proof.
  induction 1 as [|c s [L G] _ IH]; intros b; simpl; [exact I|].
  destruct (isSpace c) eqn:E.
  - destruct b; [apply IH|].
    simpl. repeat split; auto; apply IH.
  - simpl. rewrite E. repeat split; auto; try discriminate.
Qed.

Lemma lowered_stripped (title : jsstring) :
  Forall (fun c => lowerUnit c = c /\ isGlyph c = false)
         (stripGlyphs (toLowerCase title)).
Proof.
  apply Forall_forall. intros c H. unfold stripGlyphs in H.
  apply filter_In in H. destruct H as [H G].
  apply in_map_iff in H. destruct H as [x [<- _]].
  split; [apply lowerUnit_idem|].
  destruct (isGlyph (lowerUnit x)); [discriminate | reflexivity].
Qed.

Lemma clean_trim (s : jsstring) : forall b, clean b s -> clean false (trim s).
Proof.
  intros b C. unfold trim.
  destruct (trimStart_suffix s) as [a Ea].
  destruct (trimEnd_prefix (trimStart s)) as [q Eq].
  rewrite Ea in C. apply clean_suffix in C.
  rewrite Eq in C. apply clean_prefix in C. exact C.
Qed.

Lemma cleanTitle_clean (title : jsstring) : clean false (cleanTitle title).
Proof.
  unfold cleanTitle. eapply clean_trim.
  apply collapse_clean. apply lowered_stripped.
Qed.

Lemma suffixPatterns_anchored : forallb endsEos suffixPatterns = true.
Proof. reflexivity. Qed.

(** The suffix pass only ever cuts the title at some point. *)
Lemma stripSuffixes_prefix (t : jsstring) : exists q, t = stripSuffixes t ++ q.
Proof.
  unfold stripSuffixes.
  pose proof suffixPatterns_anchored as A. rewrite forallb_forall in A.
  revert t. induction suffixPatterns as [|p ps IH]; intros t; simpl.
  - exists []. rewrite app_nil_r. reflexivity.
  - destruct (replaceRe_prefix p t (A p (or_introl eq_refl))) as [q1 E1].
    destruct (IH (fun x H => A x (or_intror H)) (replaceRe p t)) as [q2 E2].
    exists (q2 ++ q1). rewrite app_assoc, <- E2. exact E1.
Qed.

Lemma extractPlantName_clean (title : jsstring) :
  clean false (extractPlantName title).
Proof.
  unfold extractPlantName.
  destruct (stripSuffixes_prefix (cleanTitle title)) as [q E].
  pose proof (cleanTitle_clean title) as C. rewrite E in C.
  apply clean_prefix in C. eapply clean_trim; eauto.
Qed.

(** One call leaves nothing for the cleaning stage of the next. *)
Lemma cleanTitle_extractPlantName (title : jsstring) :
  cleanTitle (extractPlantName title) = extractPlantName title.
Proof.
  pose proof (extractPlantName_clean title) as C.
  unfold cleanTitle.
  rewrite (clean_toLowerCase _ _ C), (clean_stripGlyphs _ _ C).
  unfold collapseSpaces. rewrite (clean_collapse _ _ C).
  unfold extractPlantName. apply trim_idem.
Qed.

(** C2, as the claim states it, fails: the suffix list is applied once
    per call, and stripping " plant" uncovers " tree". *)
Lemma extractPlantName_twice_differs :
  extractPlantName (u "Money Tree Plant") = u "money tree"
  /\ extractPlantName (extractPlantName (u "Money Tree Plant")) = u "money"
  /\ extractPlantName (extractPlantName (u "Money Tree Plant"))
     <> extractPlantName (u "Money Tree Plant").
Proof.
  assert (extractPlantName (u "Money Tree Plant") = u "money tree") as E1
      by (vm_compute; reflexivity).
  assert (extractPlantName (u "money tree") = u "money") as E2
      by (vm_compute; reflexivity).
  rewrite E1, E2. repeat split; discriminate.
Qed.

(** *** The second call *)

Lemma suffixPatterns_consume :
  forallb (fun p => match matchk p [] (fun rest => Some rest) with
                    | Some _ => false
                    | None => true
                    end) suffixPatterns = true.
Proof. vm_compute. reflexivity. Qed.

(** A pass over a list of anchored patterns that match no empty string:
    it returns its subject when none of them matches it, and something
    shorter when one does. *)
Lemma suffix_pass (ps : list re) :
  forallb endsEos ps = true ->
  forallb (fun p => match matchk p [] (fun rest => Some rest) with
                    | Some _ => false
                    | None => true
                    end) ps = true ->
  forall s,
    length (fold_left (fun t p => replaceRe p t) ps s) <= length s
    /\ (existsb (fun p => test p s) ps = false ->
        fold_left (fun t p => replaceRe p t) ps s = s)
    /\ (existsb (fun p => test p s) ps = true ->
        length (fold_left (fun t p => replaceRe p t) ps s) < length s).
Proof.
  induction ps as [|p ps IH]; intros A B s.
  - simpl. repeat split; [lia | discriminate].
  - cbn [forallb] in A, B.
    apply andb_true_iff in A. destruct A as [Ap A].
    apply andb_true_iff in B. destruct B as [Bp B].
    destruct (matchk p [] _) eqn:M; [discriminate|].
    cbn [fold_left existsb].
    destruct (IH A B (replaceRe p s)) as [L [F S]].
    pose proof (replaceRe_length p s Ap) as Lp.
    split; [lia|].
    destruct (test p s) eqn:T; cbn [orb].
    + split; [discriminate|]. intros _.
      pose proof (replaceRe_shorter p s Ap M T). lia.
    + rewrite (replaceRe_no_match p s T).
      destruct (IH A B s) as [_ [F' S']]. split; assumption.
Qed.

Lemma stripSuffixes_pass (s : jsstring) :
  length (stripSuffixes s) <= length s
  /\ (suffixLeft s = false -> stripSuffixes s = s)
  /\ (suffixLeft s = true -> length (stripSuffixes s) < length s).
Proof.
  apply suffix_pass;
    [exact suffixPatterns_anchored | exact suffixPatterns_consume].
Qed.

Lemma trim_length (s : jsstring) : length (trim s) <= length s.
Proof.
  unfold trim.
  destruct (trimStart_suffix s) as [a Ea].
  destruct (trimEnd_prefix (trimStart s)) as [q Eq].
  rewrite Ea at 2. rewrite Eq at 2. rewrite !length_app. lia.
Qed.

(** *** Titles of Latin letters *)

Lemma latinUnit_lower (c : N) :
  latinUnit c = true -> latinUnit (lowerUnit c) = true.
Proof.
  unfold latinUnit. rewrite isSpace_lower.
  destruct (isSpace c); [rewrite !orb_true_r; reflexivity|].
  rewrite !orb_false_r. unfold lowerUnit, inRange.
  destruct (N.leb_spec 65 c), (N.leb_spec c 90), (N.leb_spec 192 c),
    (N.leb_spec c 222), (N.eqb_spec c 215); cbn [andb negb];
    try exact (fun X => X);
    intros _; apply orb_true_iff; left; apply N.ltb_lt; lia.
Qed.

Lemma trim_In (c : N) (s : jsstring) : In c (trim s) -> In c s.
Proof.
  unfold trim. intros H.
  destruct (trimStart_suffix s) as [a Ea].
  destruct (trimEnd_prefix (trimStart s)) as [q Eq].
  rewrite Ea. apply in_or_app. right.
  rewrite Eq. apply in_or_app. left. exact H.
Qed.

Lemma collapseFrom_In (c : N) (s : jsstring) :
  forall b, In c (collapseFrom b s) -> c = 32%N \/ In c s.
Proof.
  induction s as [|x s IH]; intros b; simpl; [tauto|].
  destruct (isSpace x).
  - destruct b; simpl.
    + intros H. apply IH in H. tauto.
    + intros [H|H]; [auto|]. apply IH in H. tauto.
  - simpl. intros [H|H]; [auto|]. apply IH in H. tauto.
Qed.

Lemma cleanTitle_latin (title : jsstring) :
  latinText title = true -> latinText (cleanTitle title) = true.
Proof.
  unfold latinText. rewrite !forallb_forall. intros H c Hc.
  unfold cleanTitle in Hc. apply trim_In in Hc.
  apply collapseFrom_In in Hc. destruct Hc as [->|Hc]; [reflexivity|].
  unfold stripGlyphs in Hc. apply filter_In in Hc. destruct Hc as [Hc _].
  apply in_map_iff in Hc. destruct Hc as [x [<- Hx]].
  apply latinUnit_lower. apply H. exact Hx.
Qed.

(** What is left of a title of Latin letters is one again, so the
    second call works on the letters the first one was given. *)
Lemma extractPlantName_latin (title : jsstring) :
  latinText title = true -> latinText (extractPlantName title) = true.
Proof.
  intros H. apply cleanTitle_latin in H.
  unfold latinText in *. rewrite forallb_forall in *. intros c Hc.
  apply H. unfold extractPlantName in Hc. apply trim_In in Hc.
  destruct (stripSuffixes_prefix (cleanTitle title)) as [q E].
  rewrite E. apply in_or_app. left. exact Hc.
Qed.

(** C2, amended. For a title of Latin letters, a second call of
    extractPlantName finds nothing for its cleaning stage to do
    (lowercase, glyph strip, white-space collapse, trim) and only runs
    the suffix list once more over the first result. So the second
    result is the first one exactly when none of the suffix patterns
    matches the first result any more; otherwise it is shorter. *)
Theorem extractPlantName_stable (title : jsstring) :
  latinText title = true ->
  let name := extractPlantName title in
  latinText name = true
  /\ cleanTitle name = name
  /\ extractPlantName name = trim (stripSuffixes name)
  /\ (extractPlantName name = name <-> suffixLeft name = false)
  /\ (suffixLeft name = true ->
      length (extractPlantName name) < length name).
Proof.
  intros H name.
  assert (extractPlantName name = trim (stripSuffixes name)) as E.
  { unfold extractPlantName at 1. unfold name.
    rewrite cleanTitle_extractPlantName. reflexivity. }
  assert (trim name = name) as T
      by (unfold name, extractPlantName; apply trim_idem).
  destruct (stripSuffixes_pass name) as [_ [F S]].
  assert (suffixLeft name = true ->
          length (extractPlantName name) < length name) as Sh.
  { intros L. rewrite E. pose proof (trim_length (stripSuffixes name)).
    apply S in L. lia. }
  split; [apply extractPlantName_latin; exact H|].
  split; [apply cleanTitle_extractPlantName|].
  split; [exact E|]. split; [|exact Sh].
  split.
  - intros Fix. destruct (suffixLeft name); [|reflexivity].
    specialize (Sh eq_refl). rewrite Fix in Sh. lia.
  - intros L. rewrite E, (F L). exact T.
Qed.

Lemma extractPlantName_stable_witness :
  let name :=
    extractPlantName (u "Japanese Maple" ++ [8482%N] ++ u " Tree - 3 Gal") in
  name = u "japanese maple"
  /\ latinText name = true
  /\ cleanTitle name = name
  /\ extractPlantName name = trim (stripSuffixes name)
  /\ (extractPlantName name = name <-> suffixLeft name = false)
  /\ (suffixLeft name = true ->
      length (extractPlantName name) < length name).
Proof.
  split; [vm_compute; reflexivity|].
  apply (@extractPlantName_stable
           (u "Japanese Maple" ++ [8482%N] ++ u " Tree - 3 Gal")).
  vm_compute. reflexivity.
Defined.

End ExtractFacts.

(** ** The zone word in metafield lists: normalisation and audit *)
Module ZoneFormatFacts.
Import Js JsFacts PopulateZones AuditZones Vocabulary ExtractFacts.

Lemma includes_zone_word (s : jsstring) :
  includes (toLowerCase s) (u "zone") = true <-> containsZoneWord s.
Proof.
  rewrite includes_app. unfold containsZoneWord, toLowerCase. split.
  - intros [a [b E]].
    apply map_eq_app in E. destruct E as [a' [r [-> [_ E]]]].
    apply map_eq_app in E. destruct E as [w [b' [-> [E _]]]].
    exists a', w, b'. auto.
  - intros [a [w [b [-> E]]]].
    exists (map lowerUnit a), (map lowerUnit b).
    rewrite !map_app, E. reflexivity.
Qed.

Lemma lowerUnit_letter (c l : N) :
  (97 <= l <= 122)%N ->
  lowerUnit c = l <-> c = l \/ c = (l - 32)%N.
Proof.
  intros R. unfold lowerUnit, inRange.
  destruct (N.leb_spec 65 c), (N.leb_spec c 90), (N.leb_spec 192 c),
    (N.leb_spec c 222), (N.eqb_spec c 215); simpl; lia.
Qed.

(** The occurrences counted by [containsZoneWord]: four units, each
    the small or the capital letter of z, o, n, e. *)
Lemma zone_word_cases (w : jsstring) :
  toLowerCase w = u "zone"
  <-> exists a b c d,
        w = [a; b; c; d]
        /\ (a = 122 \/ a = 90)%N /\ (b = 111 \/ b = 79)%N
        /\ (c = 110 \/ c = 78)%N /\ (d = 101 \/ d = 69)%N.
Proof.
  change (u "zone") with [122; 111; 110; 101]%N. split.
  - destruct w as [|a [|b [|c [|d [|x w]]]]]; simpl; try discriminate.
    intros E. inversion E as [[Ea Eb Ec Ed]].
    exists a, b, c, d. rewrite Ea, Eb, Ec, Ed.
    apply lowerUnit_letter in Ea, Eb, Ec, Ed; try lia.
    simpl in Ea, Eb, Ec, Ed. auto.
  - intros [a [b [c [d [-> [A [B [C D]]]]]]]]. simpl.
    rewrite (proj2 (@lowerUnit_letter a 122 ltac:(lia))) by exact A.
    rewrite (proj2 (@lowerUnit_letter b 111 ltac:(lia))) by exact B.
    rewrite (proj2 (@lowerUnit_letter c 110 ltac:(lia))) by exact C.
    rewrite (proj2 (@lowerUnit_letter d 101 ltac:(lia))) by exact D.
    reflexivity.
Qed.

Lemma hasZoneWord_some (l : list jsval) :
  existsb hasZoneWord l = true
  <-> exists s, In (JStr s) l /\ containsZoneWord s.
Proof.
  rewrite existsb_exists. split.
  - intros [[s| | | |] [HIn H]]; simpl in H; try discriminate.
    exists s. split; [exact HIn | apply includes_zone_word; exact H].
  - intros [s [HIn H]]. exists (JStr s). split; [exact HIn|].
    simpl. apply includes_zone_word. exact H.
Qed.

Lemma isNew_some (l : list jsval) :
  existsb isNew l = true
  <-> exists s, In (JStr s) l /\ ~ containsZoneWord s.
Proof.
  rewrite existsb_exists. split.
  - intros [[s| | | |] [HIn H]]; simpl in H; try discriminate.
    exists s. split; [exact HIn|]. rewrite <- includes_zone_word.
    destruct (includes _ _); [discriminate | congruence].
  - intros [s [HIn H]]. exists (JStr s). split; [exact HIn|].
    simpl. rewrite <- includes_zone_word in H.
    destruct (includes _ _); [congruence | reflexivity].
Qed.

Lemma isNew_none (l : list jsval) :
  existsb isNew l = false
  <-> forall s, In (JStr s) l -> containsZoneWord s.
Proof.
  split.
  - intros H s HIn. apply includes_zone_word.
    destruct (includes (toLowerCase s) (u "zone")) eqn:E; [reflexivity|].
    assert (existsb isNew l = true) as T.
    { apply existsb_exists. exists (JStr s). simpl. rewrite E. auto. }
    congruence.
  - intros H. destruct (existsb isNew l) eqn:E; [|reflexivity].
    apply isNew_some in E. destruct E as [s [HIn N]].
    elim N. auto.
Qed.

Lemma isOld_none (l : list jsval) :
  existsb isOld l = false
  <-> forall s, In (JStr s) l -> ~ containsZoneWord s.
Proof.
  change isOld with hasZoneWord. split.
  - intros H s HIn C.
    assert (existsb hasZoneWord l = true) as T
        by (apply hasZoneWord_some; eauto).
    congruence.
  - intros H. destruct (existsb hasZoneWord l) eqn:E; [|reflexivity].
    apply hasZoneWord_some in E. destruct E as [s [HIn C]].
    elim (H s HIn C).
Qed.

(** C8. analyzeZoneFormat is a total function into the four labels, so
    every zones value gets exactly one of them: none exactly for null
    and the empty list; mixed exactly when some string element
    contains "zone" (in any letter case) and some string element does
    not; old when some does and none does not; new otherwise. The four
    examples of the specification evaluate as stated. *)
Theorem analyzeZoneFormat_classification (zones : option (list jsval)) :
  (analyzeZoneFormat zones = none <-> zones = None \/ zones = Some [])
  /\ (analyzeZoneFormat zones = mixed
      <-> exists l, zones = Some l
            /\ (exists s, In (JStr s) l /\ containsZoneWord s)
            /\ (exists s, In (JStr s) l /\ ~ containsZoneWord s))
  /\ (analyzeZoneFormat zones = old
      <-> exists l, zones = Some l
            /\ (exists s, In (JStr s) l /\ containsZoneWord s)
            /\ (forall s, In (JStr s) l -> containsZoneWord s))
  /\ (analyzeZoneFormat zones = new
      <-> exists l, zones = Some l /\ l <> []
            /\ (forall s, In (JStr s) l -> ~ containsZoneWord s))
  /\ analyzeZoneFormat (Some [JStr (u "zone-7")]) = old
  /\ analyzeZoneFormat (Some [JStr (u "7")]) = new
  /\ analyzeZoneFormat (Some [JStr (u "zone-7"); JStr (u "7")]) = mixed
  /\ analyzeZoneFormat None = none.
Proof.
  assert (forall (x : jsval) l,
             analyzeZoneFormat (Some (x :: l)) =
             if existsb isOld (x :: l) && existsb isNew (x :: l) then mixed
             else if existsb isOld (x :: l) then old else new) as U
      by reflexivity.
  repeat split; try reflexivity.
  - destruct zones as [[|x l]|]; auto.
    rewrite U. destruct (existsb isOld _), (existsb isNew _); discriminate.
  - intros [-> | ->]; reflexivity.
  - destruct zones as [[|x l]|]; try discriminate.
    rewrite U. intros H. exists (x :: l).
    destruct (existsb isOld (x :: l)) eqn:O, (existsb isNew (x :: l)) eqn:N;
      try discriminate.
    split; [reflexivity|]. split.
    + apply hasZoneWord_some. exact O.
    + apply isNew_some. exact N.
  - intros [l [-> [O N]]].
    destruct l as [|x l]; [destruct O as [s [[] _]]|].
    rewrite U.
    apply hasZoneWord_some in O. apply isNew_some in N.
    change hasZoneWord with isOld in O. rewrite O, N. reflexivity.
  - destruct zones as [[|x l]|]; try discriminate.
    rewrite U. intros H. exists (x :: l).
    destruct (existsb isOld (x :: l)) eqn:O, (existsb isNew (x :: l)) eqn:N;
      try discriminate.
    split; [reflexivity|]. split.
    + apply hasZoneWord_some. exact O.
    + apply isNew_none. exact N.
  - intros [l [-> [O N]]].
    destruct l as [|x l]; [destruct O as [s [[] _]]|].
    rewrite U.
    apply hasZoneWord_some in O. apply isNew_none in N.
    change hasZoneWord with isOld in O. rewrite O, N. reflexivity.
  - destruct zones as [[|x l]|]; try discriminate.
    rewrite U. intros H. exists (x :: l).
    destruct (existsb isOld (x :: l)) eqn:O, (existsb isNew (x :: l)) eqn:N;
      try discriminate.
    all: split; [reflexivity|]; split; [discriminate|];
      apply isOld_none; exact O.
  - intros [l [-> [NE O]]].
    destruct l as [|x l]; [congruence|].
    rewrite U. apply isOld_none in O. rewrite O. reflexivity.
Qed.

(** *** normalizeZoneFormat *)

Lemma replaceStr_absent (c : N) (s : jsstring) :
  ~ In c s -> replaceStr [c] [] s = s.
Proof.
  induction s as [|x s IH]; simpl; [reflexivity|].
  intros H. destruct (N.eqb_spec c x) as [->|Hne].
  - elim H. auto.
  - simpl. f_equal. apply IH. tauto.
Qed.

Lemma trimStart_no_space (s : jsstring) :
  Forall (fun c => isSpace c = false) s -> trimStart s = s.
Proof. intros H. apply trimStart_fix. destruct H; simpl; auto. Qed.

Lemma trim_no_space (s : jsstring) :
  Forall (fun c => isSpace c = false) s -> trim s = s.
Proof.
  intros H. unfold trim, trimEnd. rewrite (trimStart_no_space H).
  rewrite trimStart_no_space, rev_involutive; [reflexivity|].
  apply Forall_rev. exact H.
Qed.

Lemma normalizeZoneFormat_strings (l : list jsstring) :
  normalizeZoneFormat (map JStr l) = Some (map normalizeZone l).
Proof.
  induction l as [|z l IH]; simpl; [reflexivity|].
  rewrite IH. reflexivity.
Qed.

(** An element "zone-N", in any letter case, with no white space in N. *)
Lemma normalizeZone_legacy (w n : jsstring) :
  toLowerCase w = u "zone-" ->
  Forall (fun c => isSpace c = false) n ->
  normalizeZone (w ++ n) = toLowerCase n.
Proof.
  intros W S. unfold normalizeZone, toLowerCase.
  rewrite map_app. fold (toLowerCase w). rewrite W.
  assert (Forall (fun c => isSpace c = false) (map lowerUnit n)) as S'.
  { apply Forall_forall. intros c H. apply in_map_iff in H.
    destruct H as [x [<- H]]. rewrite isSpace_lower.
    rewrite Forall_forall in S. auto. }
  change (replaceStr (u "zone") [] (u "zone-" ++ map lowerUnit n))
    with (u "-" ++ map lowerUnit n).
  change (replaceStr (u "-") [] (u "-" ++ map lowerUnit n))
    with (map lowerUnit n).
  change (u " ") with [32%N].
  rewrite replaceStr_absent; [apply trim_no_space; exact S'|].
  intros H. rewrite Forall_forall in S'. apply S' in H. discriminate.
Qed.

(** *** Legacy-format lists *)

Lemma replaceStr_no_occurrence (pat rep s : jsstring) :
  includes s pat = false -> replaceStr pat rep s = s.
Proof.
  induction s as [|c s IH]; cbn [includes replaceStr].
  - destruct (startsWith pat []); [discriminate | reflexivity].
  - destruct (startsWith pat (c :: s)); [discriminate|].
    cbn [orb]. intros H. rewrite IH by exact H. reflexivity.
Qed.

Lemma removeWord_absent (w s : jsstring) :
  includes s w = false -> removeWord 0 w s = s.
Proof.
  induction s as [|c s IH]; cbn [includes removeWord]; [reflexivity|].
  destruct (startsWith w (c :: s)); [discriminate|].
  cbn [orb]. intros H. rewrite IH by exact H. reflexivity.
Qed.

Lemma filter_keeps_all {A : Type} (f : A -> bool) (l : list A) :
  Forall (fun x => f x = true) l -> filter f l = l.
Proof.
  induction 1 as [|x l H _ IH]; simpl; [reflexivity|].
  rewrite H, IH. reflexivity.
Qed.

Lemma lowerUnit_hyphen (c : N) : lowerUnit c = 45%N -> c = 45%N.
Proof.
  unfold lowerUnit, inRange.
  destruct (N.leb_spec 65 c), (N.leb_spec c 90), (N.leb_spec 192 c),
    (N.leb_spec c 222), (N.eqb_spec c 215); cbn [andb negb]; lia.
Qed.

(** What [zoneNumber] says of the lowercase form. *)
Lemma zoneNumber_lowered (n : jsstring) :
  zoneNumber n = true ->
  Forall (fun c => isSpace c = false) n
  /\ Forall (fun c => isSpace c = false /\ c <> 45%N) (toLowerCase n)
  /\ includes (toLowerCase n) (u "zone") = false.
Proof.
  unfold zoneNumber. rewrite andb_true_iff, forallb_forall.
  intros [U Z].
  assert (forall c, In c n -> isSpace c = false /\ c <> 45%N) as U'.
  { intros c H. apply U in H.
    apply andb_true_iff in H. destruct H as [H Hy].
    apply andb_true_iff in H. destruct H as [_ Sp].
    split.
    - destruct (isSpace c); [discriminate | reflexivity].
    - destruct (N.eqb_spec c 45); [discriminate | assumption]. }
  split; [|split].
  - apply Forall_forall. intros c H. apply U'. exact H.
  - apply Forall_forall. intros c H. unfold toLowerCase in H.
    apply in_map_iff in H. destruct H as [x [<- H]].
    rewrite isSpace_lower. destruct (U' x H) as [Sp Hy].
    split; [exact Sp|]. intros E. apply lowerUnit_hyphen in E. auto.
  - destruct (includes (toLowerCase n) (u "zone")); [discriminate|].
    reflexivity.
Qed.

Lemma zoneNumber_unmarked (l : jsstring) :
  Forall (fun c => isSpace c = false /\ c <> 45%N) l ->
  filter (fun c => negb (N.eqb c 45 || N.eqb c 32)) l = l.
Proof.
  intros H. apply filter_keeps_all. eapply Forall_impl; [|exact H].
  cbn beta. intros c [Sp Hy].
  destruct (N.eqb_spec c 45) as [E|_]; [contradiction|].
  destruct (N.eqb_spec c 32) as [->|_]; [discriminate | reflexivity].
Qed.

(** An N already in the plain form is only lowercased, by the code and
    in the words of the specification. *)
Lemma normalizeZone_plain (n : jsstring) :
  zoneNumber n = true ->
  normalizeZone n = toLowerCase n /\ strippedZone n = toLowerCase n.
Proof.
  intros H. destruct (zoneNumber_lowered n H) as [_ [L Z]]. split.
  - unfold normalizeZone. rewrite (replaceStr_no_occurrence _ _ _ Z).
    change (u "-") with [45%N]. change (u " ") with [32%N].
    rewrite Forall_forall in L.
    rewrite (@replaceStr_absent 45 (toLowerCase n))
      by (intros I; apply L in I; tauto).
    rewrite (@replaceStr_absent 32 (toLowerCase n))
      by (intros I; apply L in I; destruct I as [I _]; discriminate).
    apply trim_no_space. apply Forall_forall. intros c I.
    apply L in I. tauto.
  - unfold strippedZone. rewrite (removeWord_absent _ _ Z).
    apply zoneNumber_unmarked. exact L.
Qed.

(** An element "zone-N" becomes N lowercased, by the code and in the
    words of the specification. *)
Lemma normalizeZone_legacyEntry (zone : jsstring) :
  legacyEntry zone = true ->
  normalizeZone zone = toLowerCase (legacyNumber zone)
  /\ strippedZone zone = toLowerCase (legacyNumber zone).
Proof.
  unfold legacyEntry, legacyNumber.
  rewrite andb_true_iff, str_eqb_eq. intros [W H].
  rewrite <- (firstn_skipn 4 zone) at 1 3.
  unfold normalizeZone, strippedZone, toLowerCase. rewrite map_app.
  fold (toLowerCase (firstn 4 zone)). rewrite W.
  destruct (skipn 4 zone) as [|c n]; [split; reflexivity|].
  destruct (N.eqb_spec c 45) as [->|C45]; cbn [orb] in H |- *.
  { destruct (zoneNumber_lowered _ H) as [S [L Z]].
    fold (toLowerCase n) in *. rewrite Forall_forall in L.
    change (replaceStr (u "-") []
              (replaceStr (u "zone") [] (u "zone" ++ map lowerUnit (45%N :: n))))
      with (toLowerCase n).
    change (removeWord 0 (u "zone") (u "zone" ++ map lowerUnit (45%N :: n)))
      with (45%N :: removeWord 0 (u "zone") (toLowerCase n)).
    rewrite (removeWord_absent _ _ Z). split.
    - change (u " ") with [32%N].
      rewrite replaceStr_absent
        by (intros I; apply L in I; destruct I as [I _]; discriminate).
      apply trim_no_space. apply Forall_forall. intros x I.
      apply L in I. tauto.
    - cbn [filter]. change (N.eqb 45 45) with true. cbn [orb negb].
      apply zoneNumber_unmarked. apply Forall_forall. exact L. }
  destruct (N.eqb_spec c 32) as [->|C32]; cbn [orb] in H |- *.
  { destruct (zoneNumber_lowered _ H) as [S [L Z]].
    fold (toLowerCase n) in *. rewrite Forall_forall in L.
    change (replaceStr (u "zone") [] (u "zone" ++ map lowerUnit (32%N :: n)))
      with (32%N :: toLowerCase n).
    change (removeWord 0 (u "zone") (u "zone" ++ map lowerUnit (32%N :: n)))
      with (32%N :: removeWord 0 (u "zone") (toLowerCase n)).
    rewrite (removeWord_absent _ _ Z). split.
    - change (u "-") with [45%N].
      rewrite replaceStr_absent.
      + change (replaceStr (u " ") [] (32%N :: toLowerCase n))
          with (toLowerCase n).
        apply trim_no_space. apply Forall_forall. intros x I.
        apply L in I. tauto.
      + intros [I|I]; [discriminate|]. apply L in I. tauto.
    - cbn [filter]. change (N.eqb 32 45) with false.
      change (N.eqb 32 32) with true. cbn [orb negb].
      apply zoneNumber_unmarked. apply Forall_forall. exact L. }
  destruct (zoneNumber_lowered _ H) as [S [L Z]].
  fold (toLowerCase (c :: n)) in *. rewrite Forall_forall in L.
  change (replaceStr (u "zone") [] (u "zone" ++ toLowerCase (c :: n)))
    with (toLowerCase (c :: n)).
  change (removeWord 0 (u "zone") (u "zone" ++ toLowerCase (c :: n)))
    with (removeWord 0 (u "zone") (toLowerCase (c :: n))).
  rewrite (removeWord_absent _ _ Z). split.
  - change (u "-") with [45%N]. change (u " ") with [32%N].
    rewrite (@replaceStr_absent 45 (toLowerCase (c :: n)))
      by (intros I; apply L in I; tauto).
    rewrite (@replaceStr_absent 32 (toLowerCase (c :: n)))
      by (intros I; apply L in I; destruct I as [I _]; discriminate).
    apply trim_no_space. apply Forall_forall. intros x I.
    apply L in I. tauto.
  - apply zoneNumber_unmarked. apply Forall_forall. exact L.
Qed.

(** Outside the legacy form the two part: replace with a string pattern
    removes one occurrence, so in "Zone 5 - 9" the later spaces stay. *)
Lemma normalizeZone_beyond_legacy :
  legacyList [u "Zone 5 - 9"] = false
  /\ normalizeZoneFormat [JStr (u "Zone 5 - 9")] = Some [u "5  9"]
  /\ map strippedZone [u "Zone 5 - 9"] = [u "59"].
Proof. repeat split; vm_compute; reflexivity. Qed.

(** C3. normalizeZoneFormat maps every element of a legacy-format zones
    list (elements "zone-N", the word in any letter case, and elements
    N already plain) to that element lowercased with the word "zone",
    hyphens and spaces stripped; an element "zone-N" becomes N
    lowercased, so "zone-7" becomes "7". needsNormalization is true
    exactly when some string element of the list contains "zone" in any
    letter case. *)
Theorem normalizeZoneFormat_legacy_list :
  (forall zones : list jsstring,
      legacyList zones = true ->
      normalizeZoneFormat (map JStr zones) = Some (map strippedZone zones))
  /\ (forall zone : jsstring,
         legacyEntry zone = true ->
         normalizeZoneFormat [JStr zone]
         = Some [toLowerCase (legacyNumber zone)])
  /\ normalizeZoneFormat [JStr (u "zone-7")] = Some [u "7"]
  /\ (forall zones : list jsval,
         needsNormalization zones = true
         <-> exists s, In (JStr s) zones /\ containsZoneWord s).
Proof.
  split; [|split; [|split]].
  - intros zones H. rewrite normalizeZoneFormat_strings. f_equal.
    unfold legacyList in H. rewrite forallb_forall in H.
    apply map_ext_in. intros zone I. apply H in I.
    apply orb_true_iff in I. destruct I as [I|I].
    + destruct (normalizeZone_legacyEntry _ I) as [A B]. congruence.
    + destruct (normalizeZone_plain _ I) as [A B]. congruence.
  - intros zone H. cbn [normalizeZoneFormat option_map].
    rewrite (proj1 (normalizeZone_legacyEntry _ H)). reflexivity.
  - vm_compute. reflexivity.
  - exact hasZoneWord_some.
Qed.

Lemma normalizeZoneFormat_legacy_list_witness :
  normalizeZoneFormat (map JStr [u "ZONE-10a"; u "Zone 7"; u "8"])
  = Some (map strippedZone [u "ZONE-10a"; u "Zone 7"; u "8"])
  /\ normalizeZoneFormat [JStr (u "ZONE-10a")]
     = Some [toLowerCase (legacyNumber (u "ZONE-10a"))].
Proof.
  split.
  - apply (proj1 normalizeZoneFormat_legacy_list). reflexivity.
  - apply (proj1 (proj2 normalizeZoneFormat_legacy_list)). reflexivity.
Defined.

End ZoneFormatFacts.

(** ** lookupZones *)
Module MatcherFacts.
Import Js JsFacts PopulateZones Vocabulary.

Create HintDb matcher.

(** *** Keys sorted from the longest down *)

Lemma insertByLength_In (x y : jsstring) (l : list jsstring) :
  In y (insertByLength x l) <-> y = x \/ In y l.
Proof.
  induction l as [|z l IH]; simpl.
  - intuition.
  - destruct (length x <? length z); simpl; rewrite ?IH; intuition.
Qed.

Lemma sortByLength_In (y : jsstring) (l : list jsstring) :
  In y (sortByLength l) <-> In y l.
Proof.
  induction l as [|x l IH]; simpl; [tauto|].
  rewrite insertByLength_In, IH. intuition.
Qed.

Lemma insertByLength_descending (x : jsstring) (l : list jsstring) :
  descending l -> descending (insertByLength x l).
Proof.
  unfold descending. induction 1 as [|z l S IH F]; simpl.
  - constructor; constructor.
  - destruct (Nat.ltb_spec (length x) (length z)) as [Lt|Ge].
    + constructor; [exact IH|].
      apply Forall_forall. intros y H. apply insertByLength_In in H.
      destruct H as [->|H]; [lia|].
      rewrite Forall_forall in F. auto.
    + constructor; [constructor; assumption|].
      constructor; [exact Ge|].
      eapply Forall_impl; [|exact F]. simpl. intros; lia.
Qed.

Lemma sortByLength_descending (l : list jsstring) :
  descending (sortByLength l).
Proof.
  induction l as [|x l IH]; simpl.
  - constructor.
  - apply insertByLength_descending. exact IH.
Qed.

(** The first hit in a descending list is a longest hit. *)
Lemma find_descending (P : jsstring -> bool) (l : list jsstring) (k : jsstring) :
  descending l -> find P l = Some k ->
  forall k', In k' l -> P k' = true -> length k' <= length k.
Proof.
  unfold descending. induction 1 as [|z l S IH F]; simpl; [discriminate|].
  destruct (P z) eqn:Pz.
  - intros E k' [<-|H] _; inversion E; subst; [lia|].
    rewrite Forall_forall in F. auto.
  - intros E k' [<-|H] Pk; [congruence|]. auto.
Qed.

Lemma find_hit {A} (P : A -> bool) (l : list A) (x : A) :
  In x l -> P x = true -> exists y, find P l = Some y.
Proof.
  intros HIn Px. destruct (find P l) eqn:F; [eauto|].
  rewrite (find_none _ _ F _ HIn) in Px. discriminate.
Qed.

Lemma find_miss {A} (P : A -> bool) (l : list A) :
  (forall x, In x l -> P x = false) -> find P l = None.
Proof.
  intros H. destruct (find P l) eqn:F; [|reflexivity].
  apply find_some in F. destruct F as [HIn Px].
  rewrite (H _ HIn) in Px. discriminate.
Qed.

(** *** Property reads on the database *)

Lemma allow_listed (w : jsstring) (l : list jsstring) :
  existsb (str_eqb w) l = true <-> In w l.
Proof.
  rewrite existsb_exists. split.
  - intros [x [HIn E]]. apply str_eqb_eq in E. subst. exact HIn.
  - intros HIn. exists w. split; [exact HIn | apply str_eqb_refl].
Qed.

Lemma getProp_own (plants : PlantDb) (key : jsstring) (e : PlantEntry) :
  getOwn key plants = Some e -> getProp plants key = Some (Own e).
Proof. unfold getProp. intros ->. reflexivity. Qed.

(** [plants[key].zones] for a key of the database is that key's zone
    list. *)
Lemma zonesAt_key (plants : PlantDb) (key : jsstring) :
  In key (keys plants) ->
  exists e, getOwn key plants = Some e
            /\ zonesAt plants key = Some (entry_zones e).
Proof.
  intros H. destruct (getOwn_key _ _ H) as [e E]. exists e.
  split; [exact E|]. unfold zonesAt. rewrite (getProp_own _ _ E).
  reflexivity.
Qed.

#[local] Hint Resolve sortByLength_descending : matcher.

(** C5. A title whose normalized form is a literal key of the database
    is answered by the exact tier with that key's zones, whatever
    other keys the database holds: the contains, partial and botanical
    tiers are not consulted. *)
Theorem exact_match_first (plants : PlantDb) (title : jsstring)
        (e : PlantEntry) :
  getOwn (extractPlantName title) plants = Some e ->
  lookupZones plants (extractPlantName title)
  = Some {| zones := Some (entry_zones e); matchType := exact;
            matchedKey := None; matchedWord := None |}.
Proof.
  intros H. unfold lookupZones. rewrite (getProp_own _ _ H). reflexivity.
Qed.

(** "japanese maple" is a key, the shorter key "maple" is contained in
    it and the longer key "red japanese maple" contains it. *)
Lemma exact_match_first_witness :
  lookupZones sampleDb (extractPlantName (u "Japanese Maple Tree - 3 Gal"))
  = Some {| zones := Some (map u ["5"; "6"; "7"; "8"]%string);
            matchType := exact;
            matchedKey := None; matchedWord := None |}.
Proof.
  apply (@exact_match_first sampleDb (u "Japanese Maple Tree - 3 Gal")
           (zoneList ["5"; "6"; "7"; "8"]%string)).
  vm_compute. reflexivity.
Defined.

(** The contains tier. When the exact tier misses ([plants[title]] is
    undefined) and some key of at least 5 units is a substring of the
    title, lookupZones answers with matchType contains, and the matched
    key is a longest such key of the database, reported in matchedKey
    with its zones. *)
Lemma contains_longest_key (plants : PlantDb) (title key0 : jsstring) :
  getProp plants title = None ->
  In key0 (keys plants) ->
  5 <= length key0 ->
  includes title key0 = true ->
  exists key e,
    lookupZones plants title
    = Some {| zones := Some (entry_zones e); matchType := contains;
              matchedKey := Some key; matchedWord := None |}
    /\ getOwn key plants = Some e
    /\ includes title key = true
    /\ 5 <= length key
    /\ forall key', In key' (keys plants) -> includes title key' = true ->
                    5 <= length key' -> length key' <= length key.
Proof.
  intros X K L I. unfold lookupZones. rewrite X.
  assert (containsHit title key0 = true) as H0.
  { unfold containsHit. rewrite I. apply Nat.leb_le. exact L. }
  destruct (@find_hit _ (containsHit title) (sortByLength (keys plants)) key0)
    as [key F]; [apply sortByLength_In; exact K | exact H0 |].
  rewrite F.
  pose proof (find_some _ _ F) as [HIn Hit].
  apply -> sortByLength_In in HIn.
  destruct (zonesAt_key plants key HIn) as [e [E Z]].
  exists key, e. rewrite Z.
  unfold containsHit in Hit. apply andb_true_iff in Hit.
  destruct Hit as [Hi Hl]. apply Nat.leb_le in Hl.
  repeat split; auto.
  intros key' K' I' L'.
  apply (@find_descending (containsHit title) (sortByLength (keys plants)));
    auto with matcher.
  - apply sortByLength_In. exact K'.
  - unfold containsHit. rewrite I'. apply Nat.leb_le. exact L'.
Qed.

(** Both "maple" and "japanese maple" are contained in the title: the
    zones of "japanese maple" are returned. *)
Lemma contains_longest_key_witness :
  exists key e,
    lookupZones sampleDb (u "dwarf japanese maple")
    = Some {| zones := Some (entry_zones e); matchType := contains;
              matchedKey := Some key; matchedWord := None |}
    /\ getOwn key sampleDb = Some e
    /\ includes (u "dwarf japanese maple") key = true
    /\ 5 <= length key
    /\ forall key', In key' (keys sampleDb) ->
                    includes (u "dwarf japanese maple") key' = true ->
                    5 <= length key' -> length key' <= length key.
Proof.
  apply (@contains_longest_key sampleDb (u "dwarf japanese maple") (u "maple")).
  - reflexivity.
  - simpl. auto.
  - simpl. lia.
  - reflexivity.
Defined.

(** In the words of the claim: the title is no key of the database, and
    is none of the names an object inherits. *)
Lemma contains_longest_key_unless_inherited
      (plants : PlantDb) (title key0 : jsstring) :
  ~ In title (keys plants) ->
  existsb (str_eqb title) objectPrototypeNames = false ->
  In key0 (keys plants) ->
  5 <= length key0 ->
  includes title key0 = true ->
  exists key e,
    lookupZones plants title
    = Some {| zones := Some (entry_zones e); matchType := contains;
              matchedKey := Some key; matchedWord := None |}
    /\ getOwn key plants = Some e
    /\ includes title key = true
    /\ 5 <= length key
    /\ forall key', In key' (keys plants) -> includes title key' = true ->
                    5 <= length key' -> length key' <= length key.
Proof.
  intros N I. apply contains_longest_key.
  unfold getProp. rewrite I.
  destruct (getOwn title plants) as [e|] eqn:G; [|reflexivity].
  elim N. apply getOwn_In in G.
  unfold keys. apply in_map_iff. exists (title, e). auto.
Qed.

Lemma contains_japanese_maple :
  lookupZones sampleDb (extractPlantName (u "Dwarf Japanese Maple Tree"))
  = Some {| zones := Some (map u ["5"; "6"; "7"; "8"]%string);
            matchType := contains;
            matchedKey := Some (u "japanese maple"); matchedWord := None |}.
Proof. vm_compute. reflexivity. Qed.

(** *** The botanical tier *)

Lemma botanicalScan_cons (plants : PlantDb) (sorted : list jsstring)
      (w : jsstring) (ws : list jsstring) :
  botanicalScan plants sorted (w :: ws) =
  if existsb (str_eqb w) botanicalTerms then
    match find (fun key => includes key w) sorted with
    | Some key =>
        Some {| zones := zonesAt plants key; matchType := botanical;
                matchedKey := Some key; matchedWord := Some w |}
    | None => botanicalScan plants sorted ws
    end
  else botanicalScan plants sorted ws.
Proof. reflexivity. Qed.

Lemma botanicalScan_some (plants : PlantDb) (sorted words : list jsstring)
      (r : MatchResult) :
  botanicalScan plants sorted words = Some r ->
  exists word key,
    In word words /\ In word botanicalTerms
    /\ In key sorted /\ includes key word = true
    /\ r = {| zones := zonesAt plants key; matchType := botanical;
              matchedKey := Some key; matchedWord := Some word |}.
Proof.
  induction words as [|w ws IH]; [discriminate|].
  rewrite botanicalScan_cons.
  destruct (existsb (str_eqb w) botanicalTerms) eqn:A.
  - destruct (find (fun key => includes key w) sorted) as [key|] eqn:F.
    + intros E; inversion E; subst.
      apply find_some in F. destruct F as [HIn Hi].
      apply allow_listed in A.
      exists w, key. repeat split; auto. left; reflexivity.
    + intros H. destruct (IH H) as [word [key [W H']]].
      exists word, key. split; [right; exact W | exact H'].
  - intros H. destruct (IH H) as [word [key [W H']]].
    exists word, key. split; [right; exact W | exact H'].
Qed.

Lemma botanicalScan_none (plants : PlantDb) (sorted words : list jsstring) :
  (forall w, In w words -> ~ In w botanicalTerms) ->
  botanicalScan plants sorted words = None.
Proof.
  induction words as [|w ws IH]; [reflexivity|].
  rewrite botanicalScan_cons.
  intros H. destruct (existsb (str_eqb w) botanicalTerms) eqn:A.
  - apply allow_listed in A. elim (H w); [left; reflexivity | exact A].
  - apply IH. intros x Hx. apply H. right. exact Hx.
Qed.

(** What each tier returns. *)
Lemma lookupZones_tiers (plants : PlantDb) (title : jsstring) (r : MatchResult) :
  lookupZones plants title = Some r ->
  (exists v, getProp plants title = Some v
             /\ r = {| zones := zonesOf v; matchType := exact;
                       matchedKey := None; matchedWord := None |})
  \/ (exists key, In key (keys plants) /\ containsHit title key = true
                  /\ r = {| zones := zonesAt plants key; matchType := contains;
                            matchedKey := Some key; matchedWord := None |})
  \/ (exists key, In key (keys plants) /\ partialHit title key = true
                  /\ r = {| zones := zonesAt plants key; matchType := partial;
                            matchedKey := Some key; matchedWord := None |})
  \/ (exists word key,
         In word (split 32 title) /\ 4 < length word
         /\ In word botanicalTerms
         /\ In key (keys plants) /\ includes key word = true
         /\ r = {| zones := zonesAt plants key; matchType := botanical;
                   matchedKey := Some key; matchedWord := Some word |}).
Proof.
  unfold lookupZones.
  destruct (getProp plants title) as [v|] eqn:X.
  { intros E; inversion E; subst. left. eauto. }
  destruct (find (containsHit title) _) as [key|] eqn:C.
  { intros E; inversion E; subst. right; left.
    apply find_some in C. destruct C as [HIn Hit].
    apply -> sortByLength_In in HIn. eauto. }
  destruct (find (partialHit title) _) as [key|] eqn:P.
  { intros E; inversion E; subst. right; right; left.
    apply find_some in P. destruct P as [HIn Hit]. eauto. }
  intros H. right; right; right.
  apply botanicalScan_some in H.
  destruct H as [word [key [W [A [K [I E]]]]]].
  apply filter_In in W. destruct W as [W L]. apply Nat.ltb_lt in L.
  apply -> sortByLength_In in K.
  exists word, key. repeat split; simpl; auto.
Qed.

(** C6. The botanical tier fires only on a word of the title (as split
    at single spaces) that is longer than 4 units and belongs to the
    allow-list, with a key that contains that word; and a title on
    which the exact, contains and partial tiers miss and that has no
    allow-listed word longer than 4 units is answered with null. *)
Theorem botanical_needs_allow_listed_word (plants : PlantDb) (title : jsstring) :
  (forall r, lookupZones plants title = Some r ->
             matchType r = botanical ->
             exists word key,
               matchedWord r = Some word /\ matchedKey r = Some key
               /\ In word (split 32 title) /\ 4 < length word
               /\ In word botanicalTerms
               /\ In key (keys plants) /\ includes key word = true)
  /\ (getProp plants title = None ->
      (forall key, In key (keys plants) -> containsHit title key = false) ->
      (forall key, In key (keys plants) -> partialHit title key = false) ->
      (forall word, In word (split 32 title) -> 4 < length word ->
                    ~ In word botanicalTerms) ->
      lookupZones plants title = None).
Proof.
  split.
  - intros r H B. apply lookupZones_tiers in H.
    destruct H as [[v [_ ->]] | [[key [_ [_ ->]]] | [[key [_ [_ ->]]] | H]]];
      try discriminate.
    destruct H as [word [key [W [L [A [K [I ->]]]]]]].
    exists word, key. repeat split; simpl; auto.
  - intros X C P W. unfold lookupZones. rewrite X.
    rewrite find_miss.
    + rewrite (find_miss _ _ P). apply botanicalScan_none.
      intros w H. apply filter_In in H. destruct H as [H L].
      apply Nat.ltb_lt in L. auto.
    + intros key H. apply C. apply sortByLength_In. exact H.
Qed.

(** "Little Red Shrub" normalizes to "little red"; its only word longer
    than 4 units, "little", is not allow-listed. *)
Lemma botanical_needs_allow_listed_word_witness :
  lookupZones sampleDb (extractPlantName (u "Little Red Shrub")) = None.
Proof.
  assert (extractPlantName (u "Little Red Shrub") = u "little red") as E
      by (vm_compute; reflexivity).
  rewrite E.
  apply (proj2 (@botanical_needs_allow_listed_word sampleDb (u "little red"))).
  - reflexivity.
  - intros key H. simpl in H.
    repeat (destruct H as [<-|H]; [reflexivity|]). destruct H.
  - intros key H. simpl in H.
    repeat (destruct H as [<-|H]; [reflexivity|]). destruct H.
  - intros word H L A. apply allow_listed in A. revert A L.
    change (split 32 (u "little red")) with [u "little"; u "red"] in H.
    simpl in H. destruct H as [<-|[<-|[]]].
    + vm_compute. discriminate.
    + intros _. simpl. lia.
Defined.

(** *** Provenance of the zones *)

(** For a title that is no name inherited from Object.prototype, the
    zones of a non-null answer are the zone list of a key of the
    database: the title itself in the exact tier, the reported
    matchedKey in the other tiers. *)
Lemma lookupZones_provenance (plants : PlantDb) (title : jsstring)
      (r : MatchResult) :
  existsb (str_eqb title) objectPrototypeNames = false ->
  lookupZones plants title = Some r ->
  exists key e,
    getOwn key plants = Some e
    /\ zones r = Some (entry_zones e)
    /\ (if match matchType r with exact => true | _ => false end
        then key = title /\ matchedKey r = None
        else matchedKey r = Some key).
Proof.
  intros NI H. apply lookupZones_tiers in H.
  destruct H as [[v [X ->]] | [[key [K [_ ->]]] | [[key [K [_ ->]]] | H]]].
  - unfold getProp in X. rewrite NI in X.
    destruct (getOwn title plants) as [e|] eqn:E; [|discriminate].
    inversion X; subst. exists title, e. simpl. auto.
  - destruct (zonesAt_key plants key K) as [e [E Z]].
    exists key, e. simpl. auto.
  - destruct (zonesAt_key plants key K) as [e [E Z]].
    exists key, e. simpl. auto.
  - destruct H as [word [key [_ [_ [_ [K [_ ->]]]]]]].
    destruct (zonesAt_key plants key K) as [e [E Z]].
    exists key, e. simpl. auto.
Qed.

(** C10 fails on the names every object inherits. The exact tier tests
    [plants[plantName]] for truthiness, and for the title "Constructor"
    that read finds Object.prototype.constructor: the answer is an
    exact match whose zones are undefined, although "constructor" is
    no key of the database. *)
Theorem lookupZones_inherited_name (plants : PlantDb) :
  getOwn (u "constructor") plants = None ->
  extractPlantName (u "Constructor") = u "constructor"
  /\ lookupZones plants (extractPlantName (u "Constructor"))
     = Some {| zones := None; matchType := exact;
               matchedKey := None; matchedWord := None |}
  /\ ~ (exists key e,
           getOwn key plants = Some e
           /\ zones {| zones := None; matchType := exact;
                       matchedKey := None; matchedWord := None |}
              = Some (entry_zones e)).
Proof.
  intros H.
  assert (extractPlantName (u "Constructor") = u "constructor") as E
      by (vm_compute; reflexivity).
  rewrite E. split; [reflexivity|]. split.
  - unfold lookupZones, getProp. rewrite H. reflexivity.
  - intros [key [e [_ Z]]]. discriminate.
Qed.

Lemma lookupZones_inherited_name_witness :
  extractPlantName (u "Constructor") = u "constructor"
  /\ lookupZones sampleDb (extractPlantName (u "Constructor"))
     = Some {| zones := None; matchType := exact;
               matchedKey := None; matchedWord := None |}
  /\ ~ (exists key e,
           getOwn key sampleDb = Some e
           /\ zones {| zones := None; matchType := exact;
                       matchedKey := None; matchedWord := None |}
              = Some (entry_zones e)).
Proof.
  apply (@lookupZones_inherited_name sampleDb). reflexivity.
Defined.



End MatcherFacts.

(** ** The product loop of populate-zones.js *)
Module PopulateMainFacts.
Import Js PopulateZones PopulateMain.


Lemma processProduct_dry (cfg : Config) (plants : PlantDb)
      (api api' : nat -> option jsstring) (run : Run) (product : Product) :
  dryRun cfg = true ->
  processProduct cfg plants api run product
  = processProduct cfg plants api' run product
  /\ forall run', processProduct cfg plants api run product = Some run' ->
                  mutations run' = mutations run.
Proof.
  intros D. unfold processProduct, updateProductZones. rewrite D.
  split; [reflexivity|].
  destruct (existingZones product) as [[|z zs]|];
    try destruct (normalize cfg && needsNormalization (z :: zs));
    try destruct (normalizeZoneFormat (z :: zs));
    destruct (lookupZones plants (extractPlantName (title product)))
      as [found|];
    destruct (verbose cfg); try destruct (zones found);
    intros run' E; inversion E; reflexivity.
Qed.

(** X1. A dry run sends no mutation to the admin API, and its outcome
    does not depend on what the API would have answered. *)
Theorem dry_run_sends_nothing (cfg : Config) (plants : PlantDb)
        (api api' : nat -> option jsstring) (products : list Product) :
  dryRun cfg = true ->
  processAll cfg plants api start products
  = processAll cfg plants api' start products
  /\ forall run, processAll cfg plants api start products = Some run ->
                 mutations run = [].
Proof.
  intros D.
  assert (forall run0,
             processAll cfg plants api run0 products
             = processAll cfg plants api' run0 products
             /\ forall run, processAll cfg plants api run0 products = Some run ->
                            mutations run = mutations run0) as G.
  { induction products as [|p ps IH]; intros run0; simpl.
    - split; [reflexivity|]. intros run E; inversion E; reflexivity.
    - destruct (processProduct_dry cfg plants api api' run0 p D) as [E1 M1].
      rewrite <- E1.
      destruct (processProduct cfg plants api run0 p) as [run1|];
        [|split; [reflexivity | discriminate]].
      destruct (IH run1) as [E2 M2]. split; [exact E2|].
      intros run E. rewrite (M2 _ E). apply M1. reflexivity. }
  destruct (G start) as [E M]. split; [exact E|].
  intros run H. apply M in H. exact H.
Qed.

Lemma dry_run_sends_nothing_witness :
  processAll {| dryRun := true; verbose := false; normalize := true |}
             Vocabulary.sampleDb sampleApi start sampleProducts
  = processAll {| dryRun := true; verbose := false; normalize := true |}
               Vocabulary.sampleDb (fun _ => None) start sampleProducts
  /\ forall run,
      processAll {| dryRun := true; verbose := false; normalize := true |}
                 Vocabulary.sampleDb sampleApi start sampleProducts
      = Some run -> mutations run = [].
Proof.
  apply (@dry_run_sends_nothing
           {| dryRun := true; verbose := false; normalize := true |}).
  reflexivity.
Defined.




(** Every position has one bucket, so the five selections share out the
    catalogue. *)
Lemma pick_partition (buckets : list Bucket) :
  forall products,
    length buckets = length products ->
    length products
    = length (pick (bucket_eqb Updated) buckets products)
      + length (pick (bucket_eqb Normalized) buckets products)
      + length (pick (bucket_eqb Skipped) buckets products)
      + length (pick (bucket_eqb NotFound) buckets products)
      + length (pick (bucket_eqb Failed) buckets products).
Proof.
  induction buckets as [|b bs IH]; intros [|p ps] L; try discriminate;
    [reflexivity|].
  injection L as L. specialize (IH ps L).
  destruct b; cbn [pick bucket_eqb length]; lia.
Qed.






Lemma normalizeZoneFormat_throws (l : list jsval) :
  normalizeZoneFormat l = None
  <-> exists x, In x l /\ forall s, x <> JStr s.
Proof.
  induction l as [|x l IH]; simpl.
  - split; [discriminate | intros [x [[] _]]].
  - destruct x as [s| | | |];
      try (split; [intros _; eexists; split; [left; reflexivity | discriminate]
                  | reflexivity]).
    destruct (normalizeZoneFormat l) as [r|]; simpl.
    + split; [discriminate|].
      intros [x [[<-|H] N]]; [elim (N s); reflexivity|].
      assert (Some r = None) as E by (apply IH; eauto).
      discriminate.
    + split; [|reflexivity]. intros _.
      destruct (proj1 IH eq_refl) as [x [H N]]. eauto.
Qed.

Lemma processProduct_aborts (cfg : Config) (plants : PlantDb)
      (api : nat -> option jsstring) (run : Run) (p : Product) :
  processProduct cfg plants api run p = None
  <-> normalize cfg = true /\ breaksNormalize p = true.
Proof.
  unfold processProduct, updateProductZones, breaksNormalize.
  destruct (existingZones p) as [[|z zs]|].
  - destruct (lookupZones plants (extractPlantName (title p))) as [found|];
      destruct (dryRun cfg); destruct (verbose cfg);
      try destruct (zones found);
      try destruct (api (length (mutations run)));
      intuition congruence.
  - destruct (normalize cfg); cbn [andb];
      destruct (needsNormalization (z :: zs));
      destruct (normalizeZoneFormat (z :: zs));
      destruct (dryRun cfg);
      try destruct (api (length (mutations run)));
      cbn [andb]; intuition congruence.
  - destruct (lookupZones plants (extractPlantName (title p))) as [found|];
      destruct (dryRun cfg); destruct (verbose cfg);
      try destruct (zones found);
      try destruct (api (length (mutations run)));
      intuition congruence.
Qed.

(** X3. The run aborts (the TypeError of normalizeZoneFormat leaves main:
    fatal exit, no report) exactly when --normalize is on and some
    product has a zone list with an element that contains "zone" and an
    element that is no string. Nothing else stops the loop: API failures
    on single products never do. *)
Theorem run_aborts_iff (cfg : Config) (plants : PlantDb)
        (api : nat -> option jsstring) (run : Run) (products : list Product) :
  processAll cfg plants api run products = None
  <-> normalize cfg = true
      /\ exists p l,
           In p products /\ existingZones p = Some l
           /\ needsNormalization l = true
           /\ exists x, In x l /\ forall s, x <> JStr s.
Proof.
  assert (forall p, breaksNormalize p = true
                    <-> exists l, existingZones p = Some l
                                  /\ needsNormalization l = true
                                  /\ exists x, In x l /\ forall s, x <> JStr s)
    as B.
  { intros p. unfold breaksNormalize.
    destruct (existingZones p) as [[|z zs]|].
    - split; [discriminate|]. intros [l [E [N _]]]. inversion E; subst.
      discriminate.
    - rewrite andb_true_iff. split.
      + intros [N T]. exists (z :: zs). repeat split; auto.
        apply normalizeZoneFormat_throws.
        destruct (normalizeZoneFormat (z :: zs)); [discriminate | reflexivity].
      + intros [l [E [N T]]]. inversion E; subst. split; [exact N|].
        apply normalizeZoneFormat_throws in T. rewrite T. reflexivity.
    - split; [discriminate|]. intros [l [E _]]. discriminate. }
  revert run. induction products as [|p ps IH]; intros run; simpl.
  - split; [discriminate|]. intros [_ [p [l [[] _]]]].
  - destruct (processProduct cfg plants api run p) as [run'|] eqn:P.
    + rewrite IH. split.
      * intros [N [q [l [H R]]]]. split; [exact N|]. exists q, l. tauto.
      * intros [N [q [l [[<-|H] R]]]].
        -- assert (processProduct cfg plants api run p = None) as A.
           { apply processProduct_aborts. split; [exact N|].
             apply B. exists l. exact R. }
           congruence.
        -- split; [exact N|]. exists q, l. tauto.
    + apply processProduct_aborts in P. destruct P as [N Br].
      apply B in Br. destruct Br as [l R].
      split; [|reflexivity]. intros _. split; [exact N|].
      exists p, l. split; [left; reflexivity | exact R].
Qed.

Ltac same_mutations :=
  let E := fresh in intros E; inversion E; subst; left; reflexivity.

Lemma processProduct_mutations (cfg : Config) (plants : PlantDb)
      (api : nat -> option jsstring) (run run' : Run) (p : Product) :
  processProduct cfg plants api run p = Some run' ->
  mutations run' = mutations run
  \/ exists m, mutations run' = mutations run ++ [m]
               /\ justified cfg plants p m.
Proof.
  assert (forall found,
             hasZones p = false ->
             lookupZones plants (extractPlantName (title p)) = Some found ->
             justified cfg plants p
               {| mutProduct := productId p; mutZones := zones found |}) as JL.
  { intros found Z L. split; [reflexivity|]. left. split; [exact Z|].
    exists found. auto. }
  assert (forall l nz,
             normalize cfg = true -> existingZones p = Some l ->
             needsNormalization l = true ->
             normalizeZoneFormat l = Some nz ->
             justified cfg plants p
               {| mutProduct := productId p; mutZones := Some nz |}) as JN.
  { intros l nz N EZ NN NZ. split; [reflexivity|]. right. split; [exact N|].
    exists l, nz. auto. }
  unfold processProduct, updateProductZones.
  destruct (existingZones p) as [[|z zs]|] eqn:EZ.
  - assert (hasZones p = false) as Z by (unfold hasZones; rewrite EZ; reflexivity).
    destruct (lookupZones plants (extractPlantName (title p))) as [found|] eqn:L;
      [|same_mutations].
    specialize (JL found Z eq_refl).
    destruct (dryRun cfg); [|destruct (api (length (mutations run)))];
      destruct (verbose cfg); try destruct (zones found) eqn:ZF;
      try same_mutations;
      intros E; inversion E; subst; right; eexists;
      (split; [reflexivity | exact JL]).
  - destruct (normalize cfg) eqn:N; cbn [andb]; [|same_mutations].
    destruct (needsNormalization (z :: zs)) eqn:NN; [|same_mutations].
    destruct (normalizeZoneFormat (z :: zs)) as [nz|] eqn:NZ; [|discriminate].
    specialize (JN (z :: zs) nz eq_refl eq_refl NN NZ).
    destruct (dryRun cfg); [|destruct (api (length (mutations run)))];
      try same_mutations;
      intros E; inversion E; subst; right; eexists;
      (split; [reflexivity | exact JN]).
  - assert (hasZones p = false) as Z by (unfold hasZones; rewrite EZ; reflexivity).
    destruct (lookupZones plants (extractPlantName (title p))) as [found|] eqn:L;
      [|same_mutations].
    specialize (JL found Z eq_refl).
    destruct (dryRun cfg); [|destruct (api (length (mutations run)))];
      destruct (verbose cfg); try destruct (zones found) eqn:ZF;
      try same_mutations;
      intros E; inversion E; subst; right; eexists;
      (split; [reflexivity | exact JL]).
Qed.

Lemma justified_without_normalize (cfg : Config) (plants : PlantDb)
      (ps : list Product) (ms : list Mutation) :
  normalize cfg = false ->
  Forall2 (justified cfg plants) ps ms ->
  Forall (fun p => hasZones p = false) ps.
Proof.
  intros N. induction 1 as [|p m ps ms J _ IH]; constructor; [|exact IH].
  destruct J as [_ [[Z _] | [N' _]]]; [exact Z | congruence].
Qed.

(** X4. The loop never overwrites zones by guesswork, and writes no
    product twice. The mutations of a completed run are, in order, one
    each for some of the products of the catalogue, taken in catalogue
    order, and each is justified for its product: either the product
    had no zones and the mutation carries what the matcher found for
    its title, or --normalize is on and the mutation carries the
    normalized form of the product's own legacy list. Without
    --normalize no product that already has zones is written. *)
Theorem mutations_are_justified (cfg : Config) (plants : PlantDb)
        (api : nat -> option jsstring) (products : list Product) (run : Run) :
  processAll cfg plants api start products = Some run ->
  exists sent : list Product,
    Subsequence sent products
    /\ Forall2 (justified cfg plants) sent (mutations run)
    /\ (normalize cfg = false ->
        Forall (fun p => hasZones p = false) sent).
Proof.
  intros H.
  assert (forall run0 run1,
             processAll cfg plants api run0 products = Some run1 ->
             exists sent ms,
               mutations run1 = mutations run0 ++ ms
               /\ Subsequence sent products
               /\ Forall2 (justified cfg plants) sent ms) as G.
  { clear H run. induction products as [|p ps IH]; intros run0 run1; simpl.
    - intros E; inversion E; subst. exists [], []. rewrite app_nil_r.
      repeat split; constructor.
    - destruct (processProduct cfg plants api run0 p) as [r|] eqn:P;
        [|discriminate].
      intros E. apply IH in E. destruct E as [sent [ms [E [S F]]]].
      apply processProduct_mutations in P. destruct P as [P | [m [P J]]].
      + exists sent, ms. rewrite E, P.
        repeat split; [apply sub_skip; exact S | exact F].
      + exists (p :: sent), (m :: ms). rewrite E, P, <- app_assoc.
        repeat split; [apply sub_take; exact S|].
        constructor; assumption. }
  destruct (G _ _ H) as [sent [ms [E [S F]]]]. simpl in E. subst ms.
  exists sent. repeat split; try assumption.
  intros N. eapply justified_without_normalize; eauto.
Qed.

Lemma mutations_are_justified_witness :
  exists run,
    processAll {| dryRun := false; verbose := false; normalize := false |}
               Vocabulary.sampleDb sampleApi start sampleProducts
    = Some run
    /\ length (mutations run) = 1
    /\ exists sent : list Product,
        Subsequence sent sampleProducts
        /\ Forall2 (justified {| dryRun := false; verbose := false;
                                 normalize := false |}
                              Vocabulary.sampleDb)
                   sent (mutations run)
        /\ (false = false ->
            Forall (fun p => hasZones p = false) sent).
Proof.
  eexists. split; [vm_compute; reflexivity|].
  split; [reflexivity|].
  apply (@mutations_are_justified
           {| dryRun := false; verbose := false; normalize := false |}
           Vocabulary.sampleDb sampleApi sampleProducts).
  vm_compute. reflexivity.
Defined.

End PopulateMainFacts.

(** ** The classification loop of the audit script, and the audit against
    the normalizer *)
Module AuditMainFacts.
Import Js JsFacts PopulateZones AuditZones AuditMain Vocabulary ExtractFacts
       ZoneFormatFacts.

Lemma classify_filters (products : list Product) (r : AuditResults) :
  let r' := fold_left classify products r in
  noZones r' = noZones r ++ filter (hasFormat none) products
  /\ oldFormat r' = oldFormat r ++ filter (hasFormat old) products
  /\ newFormat r' = newFormat r ++ filter (hasFormat new) products
  /\ mixedFormat r' = mixedFormat r ++ filter (hasFormat mixed) products.
Proof.
  revert r. induction products as [|p ps IH]; intros r; simpl.
  - rewrite !app_nil_r. auto.
  - destruct (IH (classify r p)) as [A [B [C D]]].
    rewrite A, B, C, D. unfold classify, hasFormat.
    destruct (analyzeZoneFormat (existingZones p)); simpl;
      rewrite <- ?app_assoc; auto.
Qed.

Lemma filter_four (products : list Product) :
  length products
  = length (filter (hasFormat none) products)
    + length (filter (hasFormat old) products)
    + length (filter (hasFormat new) products)
    + length (filter (hasFormat mixed) products).
Proof.
  induction products as [|p ps IH]; simpl; [reflexivity|].
  destruct (hasFormat none p) eqn:A, (hasFormat old p) eqn:B,
    (hasFormat new p) eqn:C, (hasFormat mixed p) eqn:D; simpl; try lia;
    exfalso; unfold hasFormat in A, B, C, D;
    destruct (analyzeZoneFormat (existingZones p)); discriminate.
Qed.

(** X5. The audit sorts every product into exactly one of its four
    lists: each list holds, in catalogue order, the products whose zones
    analyzeZoneFormat gives that label, and the four counts of the
    summary add up to the total. *)
Theorem audit_partitions_products (products : list Product) :
  let r := auditAll products in
  noZones r = filter (hasFormat none) products
  /\ oldFormat r = filter (hasFormat old) products
  /\ newFormat r = filter (hasFormat new) products
  /\ mixedFormat r = filter (hasFormat mixed) products
  /\ length products
     = length (newFormat r) + length (oldFormat r) + length (noZones r)
       + length (mixedFormat r).
Proof.
  destruct (classify_filters products emptyResults) as [A [B [C D]]].
  simpl in *. unfold auditAll. rewrite A, B, C, D.
  repeat split. rewrite (filter_four products) at 1. lia.
Qed.

(** X6. The audit prints that all products have zones in the correct
    format exactly when every product is labelled new or mixed: a
    product whose list mixes "zone-7" with "7" does not raise ACTION
    REQUIRED. *)
Theorem audit_all_correct_iff (products : list Product) :
  actionRequired (auditAll products) = false
  <-> forall p, In p products ->
                analyzeZoneFormat (existingZones p) = new
                \/ analyzeZoneFormat (existingZones p) = mixed.
Proof.
  destruct (classify_filters products emptyResults) as [A [B _]].
  simpl in A, B. unfold actionRequired, auditAll. rewrite A, B.
  rewrite orb_false_iff, !Nat.ltb_ge. split.
  - intros [HO HN] p HIn.
    destruct (analyzeZoneFormat (existingZones p)) eqn:F; auto; exfalso.
    + assert (In p (filter (hasFormat none) products)) as I.
      { apply filter_In. split; [exact HIn|]. unfold hasFormat.
        rewrite F. reflexivity. }
      destruct (filter (hasFormat none) products); [destruct I | simpl in HN; lia].
    + assert (In p (filter (hasFormat old) products)) as I.
      { apply filter_In. split; [exact HIn|]. unfold hasFormat.
        rewrite F. reflexivity. }
      destruct (filter (hasFormat old) products); [destruct I | simpl in HO; lia].
  - intros H. split.
    + destruct (filter (hasFormat old) products) as [|p l] eqn:E; [simpl; lia|].
      assert (In p (filter (hasFormat old) products)) as I
          by (rewrite E; left; reflexivity).
      apply filter_In in I. destruct I as [I F]. unfold hasFormat in F.
      destruct (H p I) as [R|R]; rewrite R in F; discriminate.
    + destruct (filter (hasFormat none) products) as [|p l] eqn:E; [simpl; lia|].
      assert (In p (filter (hasFormat none) products)) as I
          by (rewrite E; left; reflexivity).
      apply filter_In in I. destruct I as [I F]. unfold hasFormat in F.
      destruct (H p I) as [R|R]; rewrite R in F; discriminate.
Qed.

(** X7. The audit and the normalizer agree on what is legacy: on a
    non-empty list, needsNormalization is true exactly when
    analyzeZoneFormat answers old or mixed; lists labelled new, and
    absent or empty lists, are never rewritten by --normalize. *)
Theorem audit_agrees_with_needsNormalization (l : list jsval) :
  (l <> [] ->
   (needsNormalization l = true
    <-> analyzeZoneFormat (Some l) = old
        \/ analyzeZoneFormat (Some l) = mixed))
  /\ (analyzeZoneFormat (Some l) = new -> needsNormalization l = false)
  /\ (analyzeZoneFormat (Some l) = none -> needsNormalization l = false).
Proof.
  destruct l as [|x l]; [repeat split; auto; congruence|].
  assert (analyzeZoneFormat (Some (x :: l)) =
          if existsb isOld (x :: l) && existsb isNew (x :: l) then mixed
          else if existsb isOld (x :: l) then old else new) as U
      by reflexivity.
  rewrite U. unfold needsNormalization. change hasZoneWord with isOld.
  destruct (existsb isOld (x :: l)), (existsb isNew (x :: l)); simpl;
    intuition (try discriminate; try congruence).
Qed.

Lemma audit_agrees_with_needsNormalization_witness :
  needsNormalization [JStr (u "zone-7"); JStr (u "7")] = true
  <-> analyzeZoneFormat (Some [JStr (u "zone-7"); JStr (u "7")]) = old
      \/ analyzeZoneFormat (Some [JStr (u "zone-7"); JStr (u "7")]) = mixed.
Proof.
  apply (proj1 (audit_agrees_with_needsNormalization
                  [JStr (u "zone-7"); JStr (u "7")])).
  discriminate.
Defined.

Lemma toLowerCase_idem (s : jsstring) :
  toLowerCase (toLowerCase s) = toLowerCase s.
Proof.
  unfold toLowerCase. rewrite map_map. apply map_ext.
  intros c. apply lowerUnit_idem.
Qed.

Lemma containsZoneWord_lower (s : jsstring) :
  containsZoneWord (toLowerCase s) <-> containsZoneWord s.
Proof.
  rewrite <- !includes_zone_word, toLowerCase_idem. tauto.
Qed.

Lemma normalizeZoneFormat_length (l : list jsval) (r : list jsstring) :
  normalizeZoneFormat l = Some r -> length r = length l.
Proof.
  revert r. induction l as [|x l IH]; simpl; intros r.
  - intros E; inversion E; reflexivity.
  - destruct x; try discriminate.
    destruct (normalizeZoneFormat l) as [r'|]; simpl; [|discriminate].
    intros E; inversion E; subst. simpl. f_equal. auto.
Qed.

(** X8. normalizeZoneFormat throws exactly when the list has an element
    that is no string; when it returns, the result has one zone per
    element of the input. *)
Theorem normalizeZoneFormat_throws_iff (l : list jsval) :
  (normalizeZoneFormat l = None
   <-> exists x, In x l /\ forall s, x <> JStr s)
  /\ (forall r, normalizeZoneFormat l = Some r -> length r = length l).
Proof.
  split.
  - induction l as [|x l IH]; simpl.
    + split; [discriminate | intros [x [[] _]]].
    + destruct x as [s| | | |];
        try (split; [intros _; eexists; split;
                      [left; reflexivity | discriminate]
                    | reflexivity]).
      destruct (normalizeZoneFormat l) as [r|]; simpl.
      * split; [discriminate|].
        intros [x [[<-|H] N]]; [elim (N s); reflexivity|].
        assert (Some r = None) as E by (apply IH; eauto).
        discriminate.
      * split; [|reflexivity]. intros _.
        destruct (proj1 IH eq_refl) as [x [H N]]. eauto.
  - apply normalizeZoneFormat_length.
Qed.

(** X9. Normalizing settles a legacy list. When every element is
    "zone-N" (any letter case) with an N that has no white space and no
    further "zone", normalizeZoneFormat returns the lowercased N's, the
    audit labels the result new and needsNormalization is false on it:
    a second --normalize run skips the product. *)
Theorem normalized_list_is_new (l : list (jsstring * jsstring)) :
  l <> [] ->
  Forall (fun wn => toLowerCase (fst wn) = u "zone-"
                    /\ Forall (fun c => isSpace c = false) (snd wn)
                    /\ ~ containsZoneWord (snd wn)) l ->
  let legacy := map (fun wn => JStr (fst wn ++ snd wn)) l in
  let plain := map (fun wn => toLowerCase (snd wn)) l in
  normalizeZoneFormat legacy = Some plain
  /\ analyzeZoneFormat (Some (map JStr plain)) = new
  /\ needsNormalization (map JStr plain) = false.
Proof.
  intros NE F legacy plain.
  assert (normalizeZoneFormat legacy = Some plain) as E.
  { subst legacy plain. clear NE.
    induction F as [|[w n] l [W [S Z]] F IH]; simpl; [reflexivity|].
    simpl in W, S. rewrite IH, (normalizeZone_legacy _ W S). reflexivity. }
  assert (existsb isOld (map JStr plain) = false) as O.
  { apply isOld_none. intros s H. subst plain.
    rewrite map_map in H. apply in_map_iff in H.
    destruct H as [[w n] [Hs Hl]]. inversion Hs; subst.
    rewrite Forall_forall in F. destruct (F _ Hl) as [_ [_ Z]].
    simpl in Z. rewrite containsZoneWord_lower. exact Z. }
  split; [exact E|]. split.
  - destruct l as [|wn l]; [congruence|].
    subst plain. simpl map in *.
    change (analyzeZoneFormat (Some (JStr (toLowerCase (snd wn))
                                       :: map JStr (map (fun wn0 => toLowerCase (snd wn0)) l))))
      with (let z := JStr (toLowerCase (snd wn))
                       :: map JStr (map (fun wn0 => toLowerCase (snd wn0)) l) in
            if existsb isOld z && existsb isNew z then mixed
            else if existsb isOld z then old else new).
    cbv zeta. rewrite O. reflexivity.
  - exact O.
Qed.

Lemma normalized_list_is_new_witness :
  normalizeZoneFormat [JStr (u "zone-" ++ u "7"); JStr (u "Zone-" ++ u "10A")]
  = Some [toLowerCase (u "7"); toLowerCase (u "10A")]
  /\ analyzeZoneFormat
       (Some (map JStr [toLowerCase (u "7"); toLowerCase (u "10A")])) = new
  /\ needsNormalization
       (map JStr [toLowerCase (u "7"); toLowerCase (u "10A")]) = false.
Proof.
  apply (@normalized_list_is_new [(u "zone-", u "7"); (u "Zone-", u "10A")]).
  - discriminate.
  - repeat (apply Forall_cons || apply Forall_nil);
      (split; [reflexivity|]); (split; [repeat constructor|]);
      intros C; apply includes_zone_word in C; discriminate.
Defined.

End AuditMainFacts.

(** ** More on extractPlantName and lookupZones *)
Module MatcherMore.
Import Js JsFacts Regex RegexFacts PopulateZones Vocabulary ExtractFacts
       MatcherFacts MatcherVocabulary.

Lemma clean_units (s : jsstring) :
  forall b, clean b s ->
  Forall (fun c => lowerUnit c = c /\ isGlyph c = false
                   /\ (isSpace c = true -> c = 32%N)) s.
Proof.
  induction s as [|c s IH]; simpl; intros b; [constructor|].
  intros [L [G [S C]]]. constructor; [|eapply IH; eauto].
  repeat split; auto. intros H. apply S in H. tauto.
Qed.

Lemma clean_no_double_space (s : jsstring) :
  forall b, clean b s ->
  forall a x y r, s = a ++ x :: y :: r -> isSpace x = true -> isSpace y = false.
Proof.
  induction s as [|c s IH]; simpl; intros b C a x y r E X.
  - destruct a; discriminate.
  - destruct C as [_ [_ [_ C]]]. destruct a as [|c' a]; simpl in E.
    + inversion E; subst. simpl in C. rewrite X in C.
      destruct C as [_ [_ [S _]]].
      destruct (isSpace y); [|reflexivity].
      destruct (S eq_refl) as [_ F]. discriminate.
    + inversion E; subst. eapply IH; eauto.
Qed.

Lemma extractPlantName_prefix (title : jsstring) :
  exists q, cleanTitle title = extractPlantName title ++ q.
Proof.
  unfold extractPlantName.
  destruct (stripSuffixes_prefix (cleanTitle title)) as [q1 E1].
  assert (headOk (stripSuffixes (cleanTitle title))) as H.
  { apply headOk_prefix with q1. rewrite <- E1. unfold cleanTitle.
    apply trim_headOk. }
  unfold trim. rewrite (trimStart_fix _ H).
  destruct (trimEnd_prefix (stripSuffixes (cleanTitle title))) as [q2 E2].
  exists (q2 ++ q1). rewrite app_assoc, <- E2. exact E1.
Qed.

(** X10. For a title of Latin letters, what extractPlantName returns is
    a cleaned name: every unit is of Basic Latin or Latin-1, is its own
    lowercase and no trademark glyph, white space occurs only as U+0020
    and never twice in a row, and there is none at either end. *)
Theorem extractPlantName_shape (title : jsstring) :
  latinText title = true ->
  let name := extractPlantName title in
  Forall (fun c => (c < 256)%N /\ lowerUnit c = c /\ isGlyph c = false
                   /\ (isSpace c = true -> c = 32%N)) name
  /\ (forall a x y r, name = a ++ x :: y :: r ->
                      isSpace x = true -> isSpace y = false)
  /\ trim name = name
  /\ toLowerCase name = name.
Proof.
  intros L name. pose proof (extractPlantName_clean title) as C.
  apply extractPlantName_latin in L. fold name in C, L.
  unfold latinText in L. rewrite forallb_forall in L.
  split; [|split; [|split]].
  - pose proof (clean_units _ _ C) as U.
    rewrite Forall_forall in *. intros c Hc.
    destruct (U c Hc) as [Lo [G S]].
    split; [|split; [exact Lo | split; [exact G | exact S]]].
    specialize (L c Hc). unfold latinUnit in L.
    destruct (N.ltb_spec c 256) as [Lt|Ge]; [exact Lt|]. cbn [orb] in L.
    apply orb_true_iff in L. destruct L as [T|Sp].
    + unfold isGlyph in G. rewrite T in G. discriminate.
    + apply S in Sp. lia.
  - exact (@clean_no_double_space name false C).
  - unfold name, extractPlantName. apply trim_idem.
  - exact (@clean_toLowerCase name false C).
Qed.

Lemma extractPlantName_shape_witness :
  let name := extractPlantName (u "  Knock Out" ++ [174%N] ++ u "   ROSE  ") in
  name = u "knock out rose"
  /\ Forall (fun c => (c < 256)%N /\ lowerUnit c = c /\ isGlyph c = false
                      /\ (isSpace c = true -> c = 32%N)) name
  /\ (forall a x y r, name = a ++ x :: y :: r ->
                      isSpace x = true -> isSpace y = false)
  /\ trim name = name
  /\ toLowerCase name = name.
Proof.
  split; [vm_compute; reflexivity|].
  apply (@extractPlantName_shape
           (u "  Knock Out" ++ [174%N] ++ u "   ROSE  ")).
  vm_compute. reflexivity.
Defined.

(** X11. For a title of Latin letters, extractPlantName only ever cuts
    at the end: its result is a prefix of the cleaned title (lowercased,
    glyphs stripped, white space collapsed and trimmed), and calling it
    on its own result returns a prefix of that result, never anything
    longer or different in its first units. *)
Theorem extractPlantName_cuts_suffix (title : jsstring) :
  latinText title = true ->
  (exists q, cleanTitle title = extractPlantName title ++ q)
  /\ (exists q, extractPlantName title
                = extractPlantName (extractPlantName title) ++ q)
  /\ length (extractPlantName (extractPlantName title))
     <= length (extractPlantName title).
Proof.
  intros _.
  split; [apply extractPlantName_prefix|].
  destruct (extractPlantName_prefix (extractPlantName title)) as [q E].
  rewrite cleanTitle_extractPlantName in E.
  split; [exists q; exact E|].
  rewrite E at 2. rewrite length_app. lia.
Qed.

Lemma extractPlantName_cuts_suffix_witness :
  (exists q, cleanTitle (u "Money Tree Plant (3 Pack)")
             = extractPlantName (u "Money Tree Plant (3 Pack)") ++ q)
  /\ (exists q, extractPlantName (u "Money Tree Plant (3 Pack)")
                = extractPlantName
                    (extractPlantName (u "Money Tree Plant (3 Pack)")) ++ q)
  /\ length (extractPlantName
               (extractPlantName (u "Money Tree Plant (3 Pack)")))
     <= length (extractPlantName (u "Money Tree Plant (3 Pack)")).
Proof.
  apply (@extractPlantName_cuts_suffix (u "Money Tree Plant (3 Pack)")).
  vm_compute. reflexivity.
Defined.

(** *** The tiers of lookupZones *)

(** X12. lookupZones answers null exactly when all four tiers miss:
    [plants[title]] is undefined, no key of at least 5 units is contained
    in the title, the title (if it has at least 6 units) is contained in
    no key, and no allow-listed word of the title longer than 4 units is
    contained in any key. *)
Theorem lookupZones_null_iff (plants : PlantDb) (title : jsstring) :
  lookupZones plants title = None
  <-> getProp plants title = None
      /\ (forall key, In key (keys plants) -> containsHit title key = false)
      /\ (forall key, In key (keys plants) -> partialHit title key = false)
      /\ (forall word key,
             In word (split 32 title) -> 4 < length word ->
             In word botanicalTerms -> In key (keys plants) ->
             includes key word = false).
Proof.
  unfold lookupZones. split.
  - destruct (getProp plants title) eqn:X; [discriminate|].
    destruct (find (containsHit title) _) eqn:C; [discriminate|].
    destruct (find (partialHit title) _) eqn:P; [discriminate|].
    intros B. split; [reflexivity|]. split; [|split].
    + intros key H. apply (find_none _ _ C). apply sortByLength_In. exact H.
    + intros key H. apply (find_none _ _ P). exact H.
    + intros word key W L A K.
      destruct (includes key word) eqn:I; [|reflexivity]. exfalso.
      assert (In word (filter (fun w => 4 <? length w) (split 32 title))) as W'.
      { apply filter_In. split; [exact W | apply Nat.ltb_lt; exact L]. }
      revert B W'.
      generalize (filter (fun w => 4 <? length w) (split 32 title)).
      intros ws. induction ws as [|w ws IH]; [intros _ []|].
      rewrite botanicalScan_cons.
      destruct (existsb (str_eqb w) botanicalTerms) eqn:E.
      * destruct (find (fun k => includes k w) _) eqn:F; [discriminate|].
        intros B [<-|H]; [|auto].
        assert (In key (sortByLength (keys plants))) as K'
            by (apply sortByLength_In; exact K).
        rewrite (find_none _ _ F _ K') in I. discriminate.
      * intros B [<-|H]; [|auto].
        apply allow_listed in A. congruence.
  - intros [X [C [P B]]]. rewrite X.
    rewrite find_miss
      by (intros key H; apply C; apply sortByLength_In; exact H).
    rewrite (find_miss _ _ P).
    assert (forall w, In w (filter (fun w => 4 <? length w) (split 32 title)) ->
                      In w (split 32 title) /\ 4 < length w) as W.
    { intros w H. apply filter_In in H. destruct H as [H L].
      apply Nat.ltb_lt in L. auto. }
    revert W.
    generalize (filter (fun w => 4 <? length w) (split 32 title)).
    intros ws. induction ws as [|w ws IH]; intros W; [reflexivity|].
    rewrite botanicalScan_cons.
    destruct (existsb (str_eqb w) botanicalTerms) eqn:E.
    + apply allow_listed in E.
      destruct (W w (or_introl eq_refl)) as [Hw Lw].
      rewrite find_miss; [apply IH; intros; apply W; right; assumption|].
      intros key H. apply (B w key Hw Lw E).
      apply sortByLength_In. exact H.
    + apply IH. intros; apply W; right; assumption.
Qed.

Lemma find_first {A} (P : A -> bool) (l : list A) (x : A) :
  find P l = Some x ->
  exists a b, l = a ++ x :: b /\ P x = true
              /\ forall y, In y a -> P y = false.
Proof.
  induction l as [|z l IH]; simpl; [discriminate|].
  destruct (P z) eqn:Pz.
  - intros E; inversion E; subst. exists [], l. simpl. tauto.
  - intros E. destruct (IH E) as [a [b [-> [Px H]]]].
    exists (z :: a), b. simpl. repeat split; auto.
    intros y [<-|Hy]; auto.
Qed.

(** X13. The partial tier takes the first key in Object.keys order, not
    the longest: when the exact and contains tiers miss and the title,
    of at least 6 units, is a substring of some key, lookupZones answers
    partial with the earliest key of the database that contains the
    title, and with that key's zones. *)
Theorem partial_first_key (plants : PlantDb) (title key0 : jsstring) :
  getProp plants title = None ->
  (forall key, In key (keys plants) -> containsHit title key = false) ->
  6 <= length title ->
  In key0 (keys plants) ->
  includes key0 title = true ->
  exists key e before after,
    lookupZones plants title
    = Some {| zones := Some (entry_zones e); matchType := partial;
              matchedKey := Some key; matchedWord := None |}
    /\ getOwn key plants = Some e
    /\ keys plants = before ++ key :: after
    /\ includes key title = true
    /\ forall k, In k before -> includes k title = false.
Proof.
  intros X C L K I. unfold lookupZones. rewrite X.
  rewrite find_miss
    by (intros key H; apply C; apply sortByLength_In; exact H).
  assert (partialHit title key0 = true) as H0.
  { unfold partialHit. rewrite I. apply Nat.leb_le. exact L. }
  destruct (@find_hit _ (partialHit title) (keys plants) key0 K H0) as [key F].
  rewrite F. destruct (find_first _ _ F) as [a [b [E [Hit First]]]].
  assert (In key (keys plants)) as HIn
      by (rewrite E; apply in_or_app; right; left; reflexivity).
  destruct (zonesAt_key plants key HIn) as [e [G Z]].
  exists key, e, a, b. rewrite Z.
  unfold partialHit in Hit. apply andb_true_iff in Hit.
  repeat split; try tauto.
  intros k Hk. apply First in Hk. unfold partialHit in Hk.
  apply andb_false_iff in Hk. destruct Hk as [Hk|Hk]; [exact Hk|].
  apply Nat.leb_gt in Hk. lia.
Qed.

Lemma partial_first_key_witness :
  exists key e before after,
    lookupZones sampleDb (u "japanese map")
    = Some {| zones := Some (entry_zones e); matchType := partial;
              matchedKey := Some key; matchedWord := None |}
    /\ getOwn key sampleDb = Some e
    /\ keys sampleDb = before ++ key :: after
    /\ includes key (u "japanese map") = true
    /\ forall k, In k before -> includes k (u "japanese map") = false.
Proof.
  apply (@partial_first_key sampleDb (u "japanese map") (u "red japanese maple")).
  - reflexivity.
  - intros key H. simpl in H.
    repeat (destruct H as [<-|H]; [reflexivity|]). destruct H.
  - simpl. lia.
  - simpl. tauto.
  - reflexivity.
Defined.

(** *** The stable sort and the contains tier *)

Lemma find_insertByLength (P : jsstring -> bool) (x : jsstring)
      (s : list jsstring) :
  descending s ->
  find P (insertByLength x s)
  = match find P s with
    | Some k => if P x && (length k <=? length x) then Some x else Some k
    | None => if P x then Some x else None
    end.
Proof.
  unfold descending. induction 1 as [|y s S IH F]; simpl; [reflexivity|].
  destruct (Nat.ltb_spec (length x) (length y)) as [Lt|Ge]; simpl.
  - destruct (P y) eqn:Py.
    + destruct (Nat.leb_spec (length y) (length x)); [lia|].
      rewrite andb_false_r. reflexivity.
    + exact IH.
  - destruct (P x) eqn:Px; simpl.
    + destruct (P y) eqn:Py.
      * destruct (Nat.leb_spec (length y) (length x)); [reflexivity | lia].
      * destruct (find P s) as [k|] eqn:Fk; [|reflexivity].
        apply find_some in Fk. destruct Fk as [Hk _].
        rewrite Forall_forall in F. apply F in Hk.
        destruct (Nat.leb_spec (length k) (length x)); [reflexivity | lia].
    + destruct (P y); [reflexivity|]. destruct (find P s); reflexivity.
Qed.

Lemma find_sortByLength (P : jsstring -> bool) (l : list jsstring) :
  find P (sortByLength l) = bestHit P l.
Proof.
  induction l as [|x l IH]; simpl; [reflexivity|].
  rewrite find_insertByLength by apply sortByLength_descending.
  rewrite IH. reflexivity.
Qed.

Lemma bestHit_earliest_longest (P : jsstring -> bool) (l : list jsstring)
      (k : jsstring) :
  bestHit P l = Some k ->
  exists a b, l = a ++ k :: b /\ P k = true
              /\ (forall y, In y a -> P y = true -> length y < length k)
              /\ (forall y, In y b -> P y = true -> length y <= length k).
Proof.
  revert k. induction l as [|x l IH]; simpl; intros k; [discriminate|].
  destruct (bestHit P l) as [k'|] eqn:B.
  - destruct (IH k' eq_refl) as [a [b [-> [Pk [Ha Hb]]]]].
    destruct (P x) eqn:Px; simpl.
    + destruct (Nat.leb_spec (length k') (length x)).
      * intros E; inversion E; subst. exists [], (a ++ k' :: b).
        simpl. repeat split; auto; [tauto|].
        intros y Hy Py. apply in_app_or in Hy.
        destruct Hy as [Hy|[<-|Hy]]; [specialize (Ha y Hy Py); lia | lia |].
        specialize (Hb y Hy Py). lia.
      * intros E; inversion E; subst. exists (x :: a), b.
        simpl. repeat split; auto.
        intros y [<-|Hy] Py; [lia | auto].
    + intros E; inversion E; subst. exists (x :: a), b.
      simpl. repeat split; auto.
      intros y [<-|Hy] Py; [congruence | auto].
  - destruct (P x) eqn:Px; [|discriminate].
    intros E; inversion E; subst. exists [], l. simpl.
    repeat split; auto; [tauto|].
    intros y Hy Py. exfalso. clear IH E.
    induction l as [|z l IHl]; [destruct Hy|]. simpl in B.
    destruct (bestHit P l) as [k'|]; [destruct (P z && _); discriminate|].
    destruct (P z) eqn:Pz; [discriminate|].
    destruct Hy as [<-|Hy]; [congruence | auto].
Qed.

(** X14. The tie-break of the contains tier in full: the matched key is
    a longest key of at least 5 units contained in the title, and among
    keys of that length the one that comes first in Object.keys order
    (the sort is stable). *)
Theorem contains_earliest_longest (plants : PlantDb) (title : jsstring)
        (r : MatchResult) :
  lookupZones plants title = Some r ->
  matchType r = contains ->
  exists key before after,
    matchedKey r = Some key
    /\ keys plants = before ++ key :: after
    /\ containsHit title key = true
    /\ (forall k, In k before -> containsHit title k = true ->
                  length k < length key)
    /\ (forall k, In k after -> containsHit title k = true ->
                  length k <= length key).
Proof.
  unfold lookupZones.
  destruct (getProp plants title); [intros E; inversion E; discriminate|].
  destruct (find (containsHit title) _) as [key|] eqn:F.
  - intros E _; inversion E; subst. simpl.
    rewrite find_sortByLength in F.
    destruct (bestHit_earliest_longest _ _ F) as [a [b [K [Hit [A B]]]]].
    exists key, a, b. auto.
  - destruct (find (partialHit title) _);
      [intros E; inversion E; discriminate|].
    intros H B. apply botanicalScan_some in H.
    destruct H as [w [k [_ [_ [_ [_ ->]]]]]]. discriminate.
Qed.

Lemma contains_earliest_longest_witness :
  exists key before after,
    matchedKey {| zones := Some (map u ["5"; "6"; "7"; "8"]%string);
                  matchType := contains;
                  matchedKey := Some (u "japanese maple");
                  matchedWord := None |} = Some key
    /\ keys sampleDb = before ++ key :: after
    /\ containsHit (u "dwarf japanese maple") key = true
    /\ (forall k, In k before ->
                  containsHit (u "dwarf japanese maple") k = true ->
                  length k < length key)
    /\ (forall k, In k after ->
                  containsHit (u "dwarf japanese maple") k = true ->
                  length k <= length key).
Proof.
  apply (@contains_earliest_longest sampleDb (u "dwarf japanese maple")).
  - vm_compute. reflexivity.
  - reflexivity.
Defined.

(** X15. The botanical tier never reports a word of 4 units or fewer, so
    the eight allow-list entries oak, pine, elm, ash, yew, fir, palm and
    sage can never be the matched word, whatever the title and the
    database. *)
Theorem short_terms_never_match (plants : PlantDb) (title : jsstring)
        (r : MatchResult) (word : jsstring) :
  lookupZones plants title = Some r ->
  matchedWord r = Some word ->
  4 < length word
  /\ ~ In word (map u ["oak"; "pine"; "elm"; "ash"; "yew"; "fir"; "palm";
                       "sage"]%string)
  /\ filter (fun w => length w <=? 4) botanicalTerms
     = map u ["oak"; "pine"; "elm"; "ash"; "yew"; "fir"; "palm";
              "sage"]%string.
Proof.
  intros H W. apply lookupZones_tiers in H.
  destruct H as [[v [_ ->]] | [[key [_ [_ ->]]] | [[key [_ [_ ->]]] | H]]];
    try discriminate.
  destruct H as [w [key [_ [L [_ [_ [_ ->]]]]]]]. simpl in W.
  inversion W; subst. split; [exact L|]. split; [|reflexivity].
  intros H. simpl in H.
  repeat (destruct H as [<-|H]; [simpl in L; lia|]). destruct H.
Qed.

Lemma short_terms_never_match_witness :
  4 < length (u "myrtle")
  /\ ~ In (u "myrtle")
          (map u ["oak"; "pine"; "elm"; "ash"; "yew"; "fir"; "palm";
                  "sage"]%string)
  /\ filter (fun w => length w <=? 4) botanicalTerms
     = map u ["oak"; "pine"; "elm"; "ash"; "yew"; "fir"; "palm";
              "sage"]%string.
Proof.
  apply (@short_terms_never_match
           [(u "crape myrtle", zoneList ["7"; "8"; "9"]%string)]
           (u "pink hydrangea myrtle")
           {| zones := Some (map u ["7"; "8"; "9"]%string);
              matchType := botanical;
              matchedKey := Some (u "crape myrtle");
              matchedWord := Some (u "myrtle") |}).
  - vm_compute. reflexivity.
  - reflexivity.
Defined.

End MatcherMore.

(** ** The form of the zone-selector widget *)
Module ZoneWidgetFacts.
Import Js JsFacts JsNumber ZoneSelector ZoneWidget ExtractFacts ZoneResolver
       ZoneFormatFacts.

Lemma isDigit_not_space (c : N) : isDigit c = true -> isSpace c = false.
Proof.
  unfold isDigit, inRange. rewrite andb_true_iff, !N.leb_le.
  intros [A B]. apply isSpace_low. lia.
Qed.

Lemma digits_no_space (s : jsstring) :
  forallb isDigit s = true -> Forall (fun c => isSpace c = false) s.
Proof.
  rewrite forallb_forall, Forall_forall. intros H c Hc.
  apply isDigit_not_space. auto.
Qed.

Lemma forallb_firstn {A} (P : A -> bool) (n : nat) (l : list A) :
  forallb P l = true -> forallb P (firstn n l) = true.
Proof.
  rewrite !forallb_forall. intros H x Hx. apply H.
  rewrite <- (firstn_skipn n l). apply in_or_app. left. exact Hx.
Qed.

Lemma substring_from_0 (n : nat) (s : jsstring) :
  substring 0 n s = firstn n s.
Proof.
  unfold substring. rewrite Nat.min_0_l, Nat.max_0_l, Nat.sub_0_r.
  reflexivity.
Qed.

Lemma sanitize_digits (value : jsstring) :
  forallb isDigit (sanitizeZipInput value) = true.
Proof.
  unfold sanitizeZipInput. rewrite substring_from_0.
  apply forallb_firstn. apply forallb_forall.
  intros c H. apply filter_In in H. tauto.
Qed.

Lemma filter_all {A} (P : A -> bool) (l : list A) :
  forallb P l = true -> filter P l = l.
Proof.
  induction l as [|x l IH]; simpl; [reflexivity|].
  rewrite andb_true_iff. intros [-> H]. f_equal. auto.
Qed.

(** X16. The input handler leaves at most five units, all of them
    digits; it changes nothing in a value that already has that form
    (so applying it twice is applying it once); and what it leaves is a
    valid 5-digit ZIP exactly when the typed value holds at least five
    digits. *)
Theorem sanitizeZipInput_digits (value : jsstring) :
  forallb isDigit (sanitizeZipInput value) = true
  /\ length (sanitizeZipInput value) <= 5
  /\ sanitizeZipInput (sanitizeZipInput value) = sanitizeZipInput value
  /\ (isZip5 (sanitizeZipInput value) = true
      <-> 5 <= length (filter isDigit value)).
Proof.
  pose proof (sanitize_digits value) as D.
  assert (length (sanitizeZipInput value) = Nat.min 5 (length (filter isDigit value)))
    as L by (unfold sanitizeZipInput; rewrite substring_from_0;
             apply length_firstn).
  split; [exact D|]. split; [lia|]. split.
  - unfold sanitizeZipInput at 1. rewrite (filter_all _ _ D).
    rewrite substring_from_0. apply firstn_all2. lia.
  - unfold isZip5. rewrite D, andb_true_r, Nat.eqb_eq. lia.
Qed.

(** X17. handleZipSubmit judges the trimmed value by its length alone:
    it shows the invalid-ZIP error exactly when that length is not 5; a
    value of length 5 whose first three units are no key of the table,
    digits or not, gets the no-zone-data error; and a result that is
    shown is the table's zone for that prefix, always with its
    temperature range. *)
Theorem handleZipSubmit_outcomes (value : jsstring) :
  (handleZipSubmit value = ShowInvalid <-> length (trim value) <> 5)
  /\ (handleZipSubmit value = ShowNotFound
      <-> length (trim value) = 5
          /\ ~ In (substring 0 3 (trim value)) (keys zipToZone))
  /\ (forall zipCode zoneData,
         handleZipSubmit value = ShowResult zipCode zoneData ->
         zipCode = trim value
         /\ length zipCode = 5
         /\ getOwn (substring 0 3 zipCode) zipToZone = Some (zone zoneData)
         /\ exists r, getOwn (zone zoneData) zones = Some r
                      /\ range zoneData = Some r).
Proof.
  unfold handleZipSubmit.
  assert (length (trim value) = 5 -> truthy (trim value) = true) as T.
  { destruct (trim value); [discriminate | reflexivity]. }
  destruct (Nat.eqb_spec (length (trim value)) 5) as [L|L].
  - rewrite (T L). cbn [negb orb]. rewrite getZoneFromZip_prefix.
    destruct (getOwn (substring 0 3 (trim value)) zipToZone) as [code|] eqn:E.
    + destruct (zipToZone_closed _ E) as [_ [r R]].
      split; [|split].
      * split; [discriminate | intros N; contradiction].
      * split; [discriminate|].
        intros [_ N]. apply <- (@getOwn_None jsstring) in N. congruence.
      * intros zipCode zoneData H. inversion H; subst. cbn [zone range].
        repeat split; auto. exists r. auto.
    + split; [|split].
      * split; [discriminate | intros N; contradiction].
      * split; [|reflexivity]. intros _. split; [exact L|].
        apply (@getOwn_None jsstring). exact E.
      * intros zipCode zoneData H. discriminate.
  - rewrite orb_true_r. split; [|split].
    + split; [intros _; exact L | reflexivity].
    + split; [discriminate | intros [A _]; contradiction].
    + intros zipCode zoneData H. discriminate.
Qed.

(** *** estimateZoneFromCoords *)

Lemma atLeast_mono (bound : Z) (lat1 lat2 : QArith_base.Q) :
  QArith_base.Qle lat1 lat2 ->
  atLeast bound lat1 = true -> atLeast bound lat2 = true.
Proof.
  unfold atLeast. rewrite !QArith_base.Qle_bool_iff.
  intros H1 H2. eapply QArith_base.Qle_trans; eauto.
Qed.

Ltac by_latitude lat :=
  destruct (atLeast 45 lat) eqn:?;
  [|destruct (atLeast 42 lat) eqn:?;
    [|destruct (atLeast 39 lat) eqn:?;
      [|destruct (atLeast 36 lat) eqn:?;
        [|destruct (atLeast 33 lat) eqn:?;
          [|destruct (atLeast 30 lat) eqn:?;
            [|destruct (atLeast 27 lat) eqn:?;
              [|destruct (atLeast 25 lat) eqn:?]]]]]]].

Ltac colder_first lat1 lat2 Hle :=
  match goal with
  | H1 : atLeast ?b lat1 = true, H2 : atLeast ?b lat2 = false |- _ =>
      rewrite (atLeast_mono b Hle H1) in H2; discriminate
  end.

(** X18. estimateZoneFromCoords always returns a zone together with its
    temperature range, reads the latitude only, and is monotone: a
    higher latitude never gives a warmer zone. *)
Theorem estimateZoneFromCoords_monotone
        (lat1 lat2 lng1 lng2 : QArith_base.Q) :
  QArith_base.Qle lat1 lat2 ->
  exists r1 r2,
    range (estimateZoneFromCoords lat1 lng1) = Some r1
    /\ range (estimateZoneFromCoords lat2 lng2) = Some r2
    /\ (min r2 <= min r1)%Z /\ (max r2 <= max r1)%Z
    /\ estimateZoneFromCoords lat1 lng1 = estimateZoneFromCoords lat1 lng2.
Proof.
  intros Hle. unfold estimateZoneFromCoords, estimateZoneCode. cbn [range].
  by_latitude lat1; by_latitude lat2;
    try colder_first lat1 lat2 Hle;
    (eexists; eexists; split; [vm_compute; reflexivity|];
     split; [vm_compute; reflexivity|];
     split; [vm_compute; discriminate|];
     split; [vm_compute; discriminate | reflexivity]).
Qed.

Lemma estimateZoneFromCoords_monotone_witness :
  exists r1 r2,
    range (estimateZoneFromCoords (QArith_base.inject_Z 30)
                                  (QArith_base.inject_Z (-90))) = Some r1
    /\ range (estimateZoneFromCoords (QArith_base.inject_Z 47)
                                     (QArith_base.inject_Z (-122))) = Some r2
    /\ (min r2 <= min r1)%Z /\ (max r2 <= max r1)%Z
    /\ estimateZoneFromCoords (QArith_base.inject_Z 30)
                              (QArith_base.inject_Z (-90))
       = estimateZoneFromCoords (QArith_base.inject_Z 30)
                                (QArith_base.inject_Z (-122)).
Proof.
  apply (@estimateZoneFromCoords_monotone
           (QArith_base.inject_Z 30) (QArith_base.inject_Z 47)
           (QArith_base.inject_Z (-90)) (QArith_base.inject_Z (-122))).
  vm_compute. discriminate.
Defined.

(** *** parseInt and the badges *)

Lemma radixDigit_decimal (c : N) :
  isDigit c = true -> radixDigit 10 c = Some (Z.of_N c - 48)%Z.
Proof.
  unfold radixDigit, digitValue, isDigit. intros D. rewrite D.
  unfold inRange in D. apply andb_true_iff in D. destruct D as [A B].
  apply N.leb_le in A, B.
  destruct (Z.ltb_spec (Z.of_N c - 48) 10); [reflexivity | lia].
Qed.

Lemma digitsValue_decimal (d rest : jsstring) :
  Forall (fun c => isDigit c = true) d ->
  forall a, digitsValue 10 (Some a) (d ++ rest)
            = digitsValue 10
                (Some (fold_left (fun a c => a * 10 + (Z.of_N c - 48))%Z d a))
                rest.
Proof.
  induction 1 as [|c d D _ IH]; intros a; simpl; [reflexivity|].
  rewrite (radixDigit_decimal _ D). apply IH.
Qed.

Lemma parseInt_zone_code (d : jsstring) (letter : N) :
  d <> [] -> Forall (fun c => isDigit c = true) d ->
  (letter = 97 \/ letter = 98)%N ->
  parseInt (d ++ [letter]) = Some (decimalValue d).
Proof.
  intros NE D L. destruct d as [|c d]; [congruence|].
  inversion D as [|? ? Dc Dd]; subst.
  pose proof (isDigit_not_space _ Dc) as S.
  assert (48 <= c <= 57)%N as R.
  { unfold isDigit, inRange in Dc. apply andb_true_iff in Dc.
    destruct Dc as [A B]. apply N.leb_le in A, B. lia. }
  unfold parseInt. cbn [app trimStart]. rewrite S.
  destruct (N.eqb_spec c 45); [lia|]. destruct (N.eqb_spec c 43); [lia|].
  cbn [fst snd].
  assert (radixDigit 10 letter = None) as NL
      by (destruct L as [-> | ->]; reflexivity).
  assert (forall y, (y = letter \/ isDigit y = true) ->
                    N.eqb c 48 && (N.eqb y 120 || N.eqb y 88) = false) as B.
  { intros y [-> | Dy].
    - destruct (N.eqb_spec letter 120); [lia|].
      destruct (N.eqb_spec letter 88); [lia|].
      apply andb_false_r.
    - unfold isDigit, inRange in Dy. apply andb_true_iff in Dy.
      destruct Dy as [A1 A2]. apply N.leb_le in A1, A2.
      destruct (N.eqb_spec y 120); [lia|].
      destruct (N.eqb_spec y 88); [lia|].
      apply andb_false_r. }
  destruct d as [|x d]; cbn [app].
  - rewrite (B letter) by auto. cbn [fst snd digitsValue].
    rewrite (radixDigit_decimal _ Dc), NL. cbn [option_map]. f_equal.
    unfold decimalValue. cbn [fold_left]. lia.
  - inversion Dd as [|? ? Dx Dd']; subst.
    rewrite (B x) by auto. cbn [fst snd digitsValue].
    rewrite (radixDigit_decimal _ Dc), (radixDigit_decimal _ Dx).
    rewrite (digitsValue_decimal [letter] Dd'). cbn [digitsValue].
    rewrite NL. cbn [option_map]. f_equal.
    unfold decimalValue. cbn [fold_left]. rewrite Z.mul_1_l.
    f_equal; lia.
Qed.

(** X19. The badges compare zone numbers only. For a zone code made of
    decimal digits (at most 15, so that the number is exact) and the
    half-zone letter a or b, parseInt yields the number, so
    updateZoneBadges marks the same products compatible for zone Na and
    zone Nb: those whose data-product-zone list has an entry that parses
    to N. *)
Theorem badges_ignore_half_zone (d productZone : jsstring) :
  d <> [] -> length d <= 15 -> Forall (fun c => isDigit c = true) d ->
  parseInt (d ++ u "a") = Some (decimalValue d)
  /\ parseInt (d ++ u "b") = Some (decimalValue d)
  /\ zoneCompatible (d ++ u "a") productZone
     = zoneCompatible (d ++ u "b") productZone
  /\ (zoneCompatible (d ++ u "a") productZone = true
      <-> exists entry, In entry (split 44 productZone)
                        /\ parseInt (trim entry) = Some (decimalValue d)).
Proof.
  intros NE _ D.
  assert (parseInt (d ++ u "a") = Some (decimalValue d)) as A
      by (apply parseInt_zone_code; auto).
  assert (parseInt (d ++ u "b") = Some (decimalValue d)) as B
      by (apply parseInt_zone_code; auto).
  unfold zoneCompatible. rewrite A, B. repeat split; auto.
  - rewrite existsb_exists. intros [v [H E]]. unfold parseZoneList in H.
    apply in_map_iff in H. destruct H as [entry [<- H]].
    exists entry. split; [exact H|].
    destruct (parseInt (trim entry)) as [z|]; [|discriminate].
    cbn [sameValueZero] in E. apply Z.eqb_eq in E. congruence.
  - intros [entry [H E]]. apply existsb_exists.
    exists (Some (decimalValue d)). split.
    + unfold parseZoneList. apply in_map_iff. exists entry. auto.
    + cbn [sameValueZero]. apply Z.eqb_refl.
Qed.

Lemma badges_ignore_half_zone_witness :
  parseInt (u "10" ++ u "a") = Some (decimalValue (u "10"))
  /\ parseInt (u "10" ++ u "b") = Some (decimalValue (u "10"))
  /\ zoneCompatible (u "10" ++ u "a") (u "8, 9,10")
     = zoneCompatible (u "10" ++ u "b") (u "8, 9,10")
  /\ (zoneCompatible (u "10" ++ u "a") (u "8, 9,10") = true
      <-> exists entry, In entry (split 44 (u "8, 9,10"))
                        /\ parseInt (trim entry) = Some (decimalValue (u "10"))).
Proof.
  apply (@badges_ignore_half_zone (u "10") (u "8, 9,10")).
  - discriminate.
  - simpl. lia.
  - repeat constructor.
Defined.

End ZoneWidgetFacts.

(** ** The Shop by Growing Zone page *)
Module ShopFacts.
Import Js JsFacts JsNumber Regex ZoneSelector ShopByZone ZoneResolver.

(** The pattern of lookupZip accepts exactly the 5-digit strings. *)
Lemma testZip_isZip5 (zip : jsstring) : testZip zip = isZip5 zip.
Proof.
  unfold testZip, isZip5, zipPattern, digit.
  destruct zip as [|a [|b [|c [|d [|e [|f zip]]]]]]; cbn;
    repeat match goal with
           | |- context [isDigit ?x] => destruct (isDigit x); cbn
           end; reflexivity.
Qed.

Lemma approximate_in_rows (zip : jsstring) :
  approximateZoneFromZip zip = 7%Z
  \/ exists row, In row zoneMap /\ approximateZoneFromZip zip = rowZone row.
Proof.
  unfold approximateZoneFromZip.
  destruct (find _ zoneMap) as [row|] eqn:F; [right | left; reflexivity].
  apply find_some in F. exists row. tauto.
Qed.

Lemma approximate_labelled (zip : jsstring) :
  existsb (Z.eqb (approximateZoneFromZip zip)) [4; 5; 6; 7; 8; 9; 11]%Z = true
  /\ exists text, In (approximateZoneFromZip zip, text) tempRanges
                  /\ tempLabel (Some (approximateZoneFromZip zip))
                     = text ++ [176; 70]%N.
Proof.
  assert (forallb (fun z =>
                     existsb (Z.eqb z) [4; 5; 6; 7; 8; 9; 11]%Z
                     && match find (fun kv => Z.eqb (fst kv) z) tempRanges with
                        | Some _ => true | None => false end)
                  (7%Z :: map rowZone zoneMap) = true) as T
      by (vm_compute; reflexivity).
  rewrite forallb_forall in T.
  assert (In (approximateZoneFromZip zip) (7%Z :: map rowZone zoneMap)) as I.
  { destruct (approximate_in_rows zip) as [-> | [row [H ->]]];
      [left; reflexivity | right; apply in_map; exact H]. }
  apply T in I. apply andb_true_iff in I. destruct I as [A B].
  split; [exact A|]. unfold tempLabel.
  destruct (find _ tempRanges) as [[k text]|] eqn:F; [|discriminate].
  apply find_some in F. destruct F as [F E]. cbn [fst] in E.
  apply Z.eqb_eq in E. subst k. exists text. auto.
Qed.

(** X20. The fallback always names a zone: approximateZoneFromZip
    returns one of the zones 4, 5, 6, 7, 8, 9, 11 on every input, each
    with an entry in tempRanges; so lookupZip never ends with the
    could-not-determine error, whatever the widget answers, and it
    rejects a value exactly when its trimmed form is not five digits. *)
Theorem lookupZip_always_selects
        (resolver : option (jsstring -> ResolverAnswer)) (value : jsstring) :
  lookupZip resolver value <> ZoneUndetermined
  /\ (lookupZip resolver value = ZipInvalid <-> isZip5 (trim value) = false)
  /\ existsb (Z.eqb (approximateZoneFromZip value))
             [4; 5; 6; 7; 8; 9; 11]%Z = true
  /\ (exists text,
         In (approximateZoneFromZip value, text) tempRanges
         /\ tempLabel (Some (approximateZoneFromZip value))
            = text ++ [176; 70]%N).
Proof.
  destruct (approximate_labelled value) as [A B].
  split; [|split; [|split; [exact A | exact B]]].
  - unfold lookupZip. destruct (testZip (trim value)); cbn [negb];
      [|discriminate].
    assert (Z.eqb (approximateZoneFromZip (trim value)) 0 = false) as NZ.
    { destruct (approximate_labelled (trim value)) as [A' _].
      destruct (Z.eqb_spec (approximateZoneFromZip (trim value)) 0) as [E|];
        [|reflexivity].
      rewrite E in A'. discriminate. }
    rewrite NZ. cbn [negb].
    destruct resolver as [f|]; [|discriminate].
    destruct (f (trim value)) as [|[result|]]; try discriminate.
    destruct (truthy (zone result)); discriminate.
  - unfold lookupZip. rewrite testZip_isZip5.
    destruct (isZip5 (trim value)); cbn [negb]; [|tauto].
    split; [|discriminate].
    destruct (Z.eqb (approximateZoneFromZip (trim value)) 0); cbn [negb];
      destruct resolver as [f|]; try discriminate;
      destruct (f (trim value)) as [|[result|]]; try discriminate;
      destruct (truthy (zone result)); discriminate.
Qed.

(** X21. The rows of zoneMap do not overlap, so their order does not
    matter: whenever the numeric prefix of the ZIP lies in a row, the
    fallback returns that row's zone. *)
Theorem approximateZoneFromZip_row (zip : jsstring) (row : ZoneRangeRow) :
  In row zoneMap ->
  inRow (parseInt (substring 0 3 zip)) row = true ->
  approximateZoneFromZip zip = rowZone row.
Proof.
  intros HIn Hrow. unfold approximateZoneFromZip.
  destruct (find _ zoneMap) as [row'|] eqn:F.
  - apply find_some in F. destruct F as [HIn' Hrow'].
    assert (forallb (fun a =>
                       forallb (fun b =>
                                  rowEq a b
                                  || (rowMax a <? rowMin b)%Z
                                  || (rowMax b <? rowMin a)%Z) zoneMap)
                    zoneMap = true) as Dj by (vm_compute; reflexivity).
    rewrite forallb_forall in Dj. specialize (Dj _ HIn').
    rewrite forallb_forall in Dj. specialize (Dj _ HIn).
    destruct (parseInt (substring 0 3 zip)) as [p|]; [|discriminate].
    cbn [inRow] in Hrow, Hrow'.
    apply andb_true_iff in Hrow, Hrow'.
    destruct Hrow as [A1 A2], Hrow' as [B1 B2].
    apply Z.leb_le in A1, A2, B1, B2.
    apply orb_true_iff in Dj. destruct Dj as [Dj|Dj];
      [apply orb_true_iff in Dj; destruct Dj as [Dj|Dj]|].
    + unfold rowEq in Dj. apply andb_true_iff in Dj. destruct Dj as [_ Dj].
      apply Z.eqb_eq in Dj. exact Dj.
    + apply Z.ltb_lt in Dj. lia.
    + apply Z.ltb_lt in Dj. lia.
  - rewrite (find_none _ _ F _ HIn) in Hrow. discriminate.
Qed.

Lemma approximateZoneFromZip_row_witness :
  approximateZoneFromZip (u "97201")
  = rowZone {| rowMin := 970; rowMax := 979; rowZone := 6 |}.
Proof.
  apply (@approximateZoneFromZip_row
           (u "97201") {| rowMin := 970; rowMax := 979; rowZone := 6 |}).
  - simpl. do 17 right. left. reflexivity.
  - reflexivity.
Defined.

(** X22. With the widget's embedded table behind
    window.ZoneSelector.getZoneFromZip, lookupZip answers every 5-digit
    ZIP with a zone number that has an entry in tempRanges, so the
    temperature text it saves and shows is never "undefined°F": the
    number is parseInt of the table's zone code when the prefix is in
    the table and the fallback's zone otherwise. *)
Theorem lookupZip_with_widget (value : jsstring) :
  isZip5 (trim value) = true ->
  exists n text,
    lookupZip (Some widgetResolver) value
    = ZoneSelected (Some n) (text ++ [176; 70]%N) (trim value)
    /\ In (n, text) tempRanges
    /\ match getOwn (substring 0 3 (trim value)) zipToZone with
       | Some code => parseInt code = Some n
       | None => n = approximateZoneFromZip (trim value)
       end.
Proof.
  intros V. unfold lookupZip. rewrite testZip_isZip5, V. cbn [negb].
  assert (Z.eqb (approximateZoneFromZip (trim value)) 0 = false) as NZ.
  { destruct (approximate_labelled (trim value)) as [A' _].
    destruct (Z.eqb_spec (approximateZoneFromZip (trim value)) 0) as [E|];
      [|reflexivity].
    rewrite E in A'. discriminate. }
  rewrite NZ. cbn [negb]. unfold widgetResolver.
  rewrite getZoneFromZip_prefix.
  destruct (getOwn (substring 0 3 (trim value)) zipToZone) as [code|] eqn:E.
  - cbn [zone]. destruct (zipToZone_closed _ E) as [T _]. rewrite T.
    assert (forallb (fun kv =>
                       match parseInt (snd kv) with
                       | Some n =>
                           match find (fun r => Z.eqb (fst r) n) tempRanges with
                           | Some _ => true | None => false
                           end
                       | None => false
                       end) zipToZone = true) as C
        by (vm_compute; reflexivity).
    rewrite forallb_forall in C. apply getOwn_In in E. apply C in E.
    cbn [snd] in E. destruct (parseInt code) as [n|]; [|discriminate].
    unfold tempLabel.
    destruct (find _ tempRanges) as [[k text]|] eqn:F; [|discriminate].
    apply find_some in F. destruct F as [F K]. cbn [fst] in K.
    apply Z.eqb_eq in K. subst k. exists n, text. auto.
  - destruct (approximate_labelled (trim value)) as [_ [text [I L]]].
    exists (approximateZoneFromZip (trim value)), text. rewrite L. auto.
Qed.

Lemma lookupZip_with_widget_witness :
  exists n text,
    lookupZip (Some widgetResolver) (u " 75001 ")
    = ZoneSelected (Some n) (text ++ [176; 70]%N) (trim (u " 75001 "))
    /\ In (n, text) tempRanges
    /\ match getOwn (substring 0 3 (trim (u " 75001 "))) zipToZone with
       | Some code => parseInt code = Some n
       | None => n = approximateZoneFromZip (trim (u " 75001 "))
       end.
Proof.
  apply (@lookupZip_with_widget (u " 75001 ")). reflexivity.
Defined.

Lemma filterCards_spec (z : Z) (cards : list Card) :
  forall count,
    map productZone (fst (filterCards z cards count)) = map productZone cards
    /\ snd (filterCards z cards count)
       = count + length (filter zoneVisible (fst (filterCards z cards count)))
    /\ Forall2
         (fun card card' =>
            zoneVisible card' = true
            <-> exists zoneData entry,
                  productZone card = Some zoneData
                  /\ In entry (split 44 zoneData)
                  /\ parseInt (trim entry) = Some z)
         cards (fst (filterCards z cards count)).
Proof.
  assert (forall zoneData,
             existsb (sameValueZero (Some z)) (parseZoneList zoneData) = true
             <-> exists entry, In entry (split 44 zoneData)
                               /\ parseInt (trim entry) = Some z) as P.
  { intros zoneData. rewrite existsb_exists. unfold parseZoneList. split.
    - intros [v [H E]]. apply in_map_iff in H. destruct H as [entry [<- H]].
      exists entry. split; [exact H|].
      destruct (parseInt (trim entry)); [|discriminate].
      cbn [sameValueZero] in E. apply Z.eqb_eq in E. congruence.
    - intros [entry [H E]]. exists (Some z). split.
      + apply in_map_iff. exists entry. auto.
      + cbn [sameValueZero]. apply Z.eqb_refl. }
  induction cards as [|card rest IH]; intros count; cbn [filterCards].
  - cbn. repeat split; [lia | constructor].
  - destruct card as [[[|c zoneData]|] v]; cbn [productZone].
    + destruct (IH count) as [A [B C]].
      cbn [fst snd length filter map withClass productZone zoneVisible].
      repeat split; [f_equal; exact A | exact B|]. constructor; [|exact C].
      cbn [productZone zoneVisible].
      split; [discriminate|]. intros [zd [entry [E [H Pz]]]].
      inversion E; subst. cbn in H. destruct H as [<-|[]].
      discriminate.
    + destruct (existsb _ (parseZoneList (c :: zoneData))) eqn:X.
      * destruct (IH (S count)) as [A [B C]].
        cbn [fst snd length filter map withClass productZone zoneVisible].
        repeat split; [f_equal; exact A | rewrite B; lia|].
        constructor; [|exact C]. cbn [productZone zoneVisible].
        split; [|reflexivity]. intros _. apply P in X.
        destruct X as [entry X]. exists (c :: zoneData), entry. tauto.
      * destruct (IH count) as [A [B C]].
        cbn [fst snd length filter map withClass productZone zoneVisible].
        repeat split; [f_equal; exact A | exact B|].
        constructor; [|exact C]. cbn [productZone zoneVisible].
        split; [discriminate|]. intros [zd [entry [E H]]].
        inversion E; subst.
        assert (existsb (sameValueZero (Some z))
                        (parseZoneList (c :: zoneData)) = true) as Y
            by (apply P; eauto).
        congruence.
    + destruct (IH count) as [A [B C]].
      cbn [fst snd length filter map withClass productZone zoneVisible].
      repeat split; [f_equal; exact A | exact B|]. constructor; [|exact C].
      cbn [productZone zoneVisible].
      split; [discriminate|]. intros [zd [entry [E _]]]. discriminate.
Qed.

(** X23. filterProducts leaves the page alone when there is no grid or
    no zone is selected (null, NaN or 0). Otherwise, for a zone number
    in the range where Numbers are exact, it decides every card: a card
    is zone-visible afterwards exactly when it has zone data with an
    entry that parses to the selected zone (so cards without data are
    hidden), and the prompt is hidden. The count is written only when
    some card is visible: then the results header is shown with the
    number of visible cards and the zone, and the empty state is hidden;
    when no card is visible the empty state is shown with the zone, the
    results header is hidden, and the count and the zone of the header
    keep the text they had. *)
Theorem filterProducts_counts_visible
        (selectedZone : option Z) (page : Page) :
  (forall z, selectedZone = Some z -> (Z.abs z < 2 ^ 53)%Z) ->
  (selectedZone = None \/ selectedZone = Some 0%Z \/ grid page = None ->
   filterProducts selectedZone page = page)
  /\ (forall z cards,
         selectedZone = Some z -> z <> 0%Z -> grid page = Some cards ->
         let page' := filterProducts selectedZone page in
         exists cards',
           grid page' = Some cards'
           /\ map productZone cards' = map productZone cards
           /\ Forall2
                (fun card card' =>
                   zoneVisible card' = true
                   <-> exists zoneData entry,
                         productZone card = Some zoneData
                         /\ In entry (split 44 zoneData)
                         /\ parseInt (trim entry) = Some z)
                cards cards'
           /\ prompt page' = setHidden true (prompt page)
           /\ (0 < length (filter zoneVisible cards') ->
               resultsCount page'
               = setText (Z.of_nat (length (filter zoneVisible cards')))
                         (resultsCount page)
               /\ resultsZone page' = setText z (resultsZone page)
               /\ resultsHeader page' = setHidden false (resultsHeader page)
               /\ empty page' = setHidden true (empty page)
               /\ emptyZone page' = emptyZone page)
           /\ (length (filter zoneVisible cards') = 0 ->
               resultsCount page' = resultsCount page
               /\ resultsZone page' = resultsZone page
               /\ resultsHeader page' = setHidden true (resultsHeader page)
               /\ empty page' = setHidden false (empty page)
               /\ emptyZone page' = setText z (emptyZone page))).
Proof.
  intros _. split.
  - unfold filterProducts. intros [->|[->|G]].
    + destruct (grid page); reflexivity.
    + destruct (grid page); reflexivity.
    + rewrite G. reflexivity.
  - intros z cards -> NZ G page'. subst page'. unfold filterProducts.
    rewrite G. destruct (Z.eqb_spec z 0) as [E|_]; [contradiction|].
    destruct (filterCards_spec z cards 0) as [A [B C]].
    exists (fst (filterCards z cards 0)).
    cbn [Nat.add] in B. rewrite B.
    destruct (0 <? length (filter zoneVisible (fst (filterCards z cards 0))))
      eqn:V; cbn [grid prompt empty emptyZone resultsHeader resultsCount
                  resultsZone].
    + apply Nat.ltb_lt in V. repeat split; auto; lia.
    + apply Nat.ltb_ge in V. repeat split; auto; lia.
Qed.

Lemma filterProducts_counts_visible_witness :
  let page := samplePage sampleZoneData in
  let page' := filterProducts (Some 7%Z) page in
  exists cards',
    grid page' = Some cards'
    /\ map productZone cards' = sampleZoneData
    /\ map zoneVisible cards' = [true; false; false; true]
    /\ prompt page' = setHidden true (prompt page)
    /\ (0 < length (filter zoneVisible cards') ->
        resultsCount page'
        = setText (Z.of_nat (length (filter zoneVisible cards')))
                  (resultsCount page)
        /\ resultsZone page' = setText 7%Z (resultsZone page)
        /\ resultsHeader page' = setHidden false (resultsHeader page)
        /\ empty page' = setHidden true (empty page)
        /\ emptyZone page' = emptyZone page).
Proof.
  intros page page'.
  assert (forall z, Some 7%Z = Some z -> (Z.abs z < 2 ^ 53)%Z) as H
      by (intros z E; inversion E; subst; reflexivity).
  destruct (proj2 (@filterProducts_counts_visible (Some 7%Z) page H)
                  7%Z
                  (map (fun z => {| productZone := z; zoneVisible := false |})
                       sampleZoneData)
                  eq_refl ltac:(discriminate) eq_refl)
    as [cards' [G [A [_ [P [C _]]]]]].
  exists cards'. fold page' in G, P, C.
  split; [exact G|]. split; [rewrite A; reflexivity|].
  split; [|split; [exact P | exact C]].
  assert (grid page'
          = Some (map (fun v => {| productZone := fst v; zoneVisible := snd v |})
                      (combine sampleZoneData [true; false; false; true])))
    as G' by (vm_compute; reflexivity).
  rewrite G in G'. inversion G'; subst. reflexivity.
Defined.

End ShopFacts.

(** ** The zone lookup test script: the suite and the CSV loader *)
Module SuiteFacts.
Import Js JsFacts ZoneLookupTest ZoneLookupSuite.

Lemma counts_fold (lookupTable : list (jsstring * jsstring))
      (cases : list TestCase) :
  forall p f fs,
    fold_left
      (fun acc test =>
         let '(p, f, fs) := acc in
         if lookupPass lookupTable test then (S p, f, fs)
         else (p, S f, fs ++ [test]))
      cases (p, f, fs)
    = (p + length (filter (lookupPass lookupTable) cases),
       f + length (filter (fun t => negb (lookupPass lookupTable t)) cases),
       fs ++ filter (fun t => negb (lookupPass lookupTable t)) cases).
Proof.
  induction cases as [|t ts IH]; intros p f fs; cbn [fold_left filter].
  - rewrite app_nil_r, !Nat.add_0_r. reflexivity.
  - destruct (lookupPass lookupTable t); cbn [negb]; rewrite IH;
      cbn [length]; rewrite <- ?app_assoc; cbn [app];
      repeat (f_equal; try lia).
Qed.

Lemma cross_fold (lookupTable sourceData : list (jsstring * jsstring))
      (cases : list TestCase) :
  forall m mm,
    fold_left
      (fun acc test =>
         let '(m, mm) := acc in
         if sameAsSource lookupTable sourceData test then (S m, mm)
         else (m, S mm))
      cases (m, mm)
    = (m + length (filter (sameAsSource lookupTable sourceData) cases),
       mm + length (filter (fun t => negb (sameAsSource lookupTable sourceData t))
                           cases)).
Proof.
  induction cases as [|t ts IH]; intros m mm; cbn [fold_left filter].
  - rewrite !Nat.add_0_r. reflexivity.
  - destruct (sameAsSource lookupTable sourceData t); cbn [negb]; rewrite IH;
      cbn [length]; repeat (f_equal; try lia).
Qed.

Lemma filter_split_length {A} (P : A -> bool) (l : list A) :
  length (filter P l) + length (filter (fun x => negb (P x)) l) = length l.
Proof.
  induction l as [|x l IH]; cbn [filter length]; [reflexivity|].
  destruct (P x); cbn [negb length]; lia.
Qed.

Lemma lookupPass_true (lookupTable : list (jsstring * jsstring))
      (t : TestCase) :
  lookupPass lookupTable t = true
  <-> getZoneFromLookup lookupTable (zip t) = Some (expectedZone t).
Proof.
  unfold lookupPass. destruct (getZoneFromLookup lookupTable (zip t)) as [z|].
  - rewrite str_eqb_eq. split; congruence.
  - split; discriminate.
Qed.

(** X24. The suite counts every test case once: passed and failed add
    up to the number of cases, as do the matches and mismatches of the
    cross-reference; the failures listed are the failing cases in
    order; and the exit code is 0 exactly when the lookup table returns
    the expected zone for the prefix of every case, 1 otherwise. *)
Theorem runTests_accounting (cases : list TestCase)
        (lookupTable sourceData : list (jsstring * jsstring)) :
  let r := runTestsOn cases lookupTable sourceData in
  passed r + failed r = length cases
  /\ failures r = filter (fun t => negb (lookupPass lookupTable t)) cases
  /\ length (failures r) = failed r
  /\ matches r + mismatches r = length cases
  /\ (exitCode r = 0
      <-> forall t, In t cases ->
                    getZoneFromLookup lookupTable (zip t)
                    = Some (expectedZone t))
  /\ (exitCode r = 0 \/ exitCode r = 1).
Proof.
  cbv zeta. unfold runTestsOn. rewrite counts_fold, cross_fold.
  cbn [passed failed failures matches mismatches exitCode fst snd app].
  pose proof (filter_split_length (lookupPass lookupTable) cases) as S1.
  pose proof (filter_split_length (sameAsSource lookupTable sourceData) cases)
    as S2.
  cbn [Nat.add].
  split; [lia|]. split; [reflexivity|]. split; [reflexivity|].
  split; [lia|]. split; [split|].
  - destruct (Nat.eqb_spec
                (length (filter (fun t => negb (lookupPass lookupTable t)) cases))
                0) as [Z|NZ]; [|discriminate].
    intros _ t HIn. apply lookupPass_true.
    destruct (lookupPass lookupTable t) eqn:P; [reflexivity|]. exfalso.
    assert (In t (filter (fun t => negb (lookupPass lookupTable t)) cases)) as I.
    { apply filter_In. rewrite P. auto. }
    destruct (filter (fun t => negb (lookupPass lookupTable t)) cases);
      [destruct I | discriminate Z].
  - intros H.
    destruct (filter (fun t => negb (lookupPass lookupTable t)) cases)
      as [|t l] eqn:F; [reflexivity|]. exfalso.
    assert (In t (filter (fun t => negb (lookupPass lookupTable t)) cases)) as I
        by (rewrite F; left; reflexivity).
    apply filter_In in I. destruct I as [I P].
    apply H in I. apply lookupPass_true in I. rewrite I in P. discriminate.
  - destruct (length (filter (fun t => negb (lookupPass lookupTable t)) cases)
              =? 0); auto.
Qed.

(** *** loadSourceCSV *)

Lemma getOwn_assign (k key value : jsstring) (data : list (jsstring * jsstring)) :
  getOwn k (assign key value data)
  = if str_eqb key k then Some value else getOwn k data.
Proof.
  unfold getOwn. induction data as [|[k' v'] data IH]; cbn [assign find fst].
  - destruct (str_eqb key k); reflexivity.
  - destruct (str_eqb k' key) eqn:E; cbn [find fst].
    + apply str_eqb_eq in E. subst k'.
      destruct (str_eqb key k); reflexivity.
    + destruct (str_eqb k' k) eqn:E'.
      * apply str_eqb_eq in E'. subst k'.
        rewrite (proj2 (str_eqb_neq key k)); [reflexivity|].
        apply str_eqb_neq in E. congruence.
      * exact IH.
Qed.

Lemma loadLine_assigns (data : list (jsstring * jsstring)) (line : jsstring) :
  loadLine data line
  = match assigns line with
    | Some (key, value) => assign key value data
    | None => data
    end.
Proof.
  unfold loadLine, assigns, setProp.
  destruct (split 44 line) as [|zipcode [|zone rest]]; try reflexivity.
  destruct (ZoneSelector.truthy zipcode && ZoneSelector.truthy zone);
    cbn [andb]; [|reflexivity].
  destruct (str_eqb (trim zipcode) (u "__proto__")); reflexivity.
Qed.

Lemma load_last_wins (lines : list jsstring) :
  forall data k v,
    getOwn k (fold_left loadLine lines data) = Some v ->
    (exists before line after,
        lines = before ++ line :: after
        /\ assigns line = Some (k, v)
        /\ forall l v', In l after -> assigns l <> Some (k, v'))
    \/ (getOwn k data = Some v
        /\ forall l v', In l lines -> assigns l <> Some (k, v')).
Proof.
  induction lines as [|line lines IH] using rev_ind; intros data k v.
  - cbn. intros H. right. split; [exact H|]. intros l v' [].
  - rewrite fold_left_app. cbn [fold_left]. rewrite loadLine_assigns.
    destruct (assigns line) as [[key value]|] eqn:A.
    + rewrite getOwn_assign. destruct (str_eqb key k) eqn:E.
      * apply str_eqb_eq in E. subst key. intros H; inversion H; subst.
        left. exists lines, line, []. repeat split; auto.
      * intros H. apply str_eqb_neq in E.
        destruct (IH _ _ _ H) as [[b [l [a [-> [Al Af]]]]] | [G N]].
        -- left. exists b, l, (a ++ [line]). rewrite <- app_assoc.
           repeat split; auto.
           intros l' v' Hl. apply in_app_or in Hl.
           destruct Hl as [Hl|[<-|[]]]; [apply Af; exact Hl|].
           rewrite A. intros C. inversion C. congruence.
        -- right. split; [exact G|]. intros l' v' Hl.
           apply in_app_or in Hl.
           destruct Hl as [Hl|[<-|[]]]; [apply N; exact Hl|].
           rewrite A. intros C. inversion C. congruence.
    + intros H.
      destruct (IH _ _ _ H) as [[b [l [a [-> [Al Af]]]]] | [G N]].
      * left. exists b, l, (a ++ [line]). rewrite <- app_assoc.
        repeat split; auto.
        intros l' v' Hl. apply in_app_or in Hl.
        destruct Hl as [Hl|[<-|[]]]; [apply Af; exact Hl|].
        rewrite A. discriminate.
      * right. split; [exact G|]. intros l' v' Hl.
        apply in_app_or in Hl.
        destruct Hl as [Hl|[<-|[]]]; [apply N; exact Hl|].
        rewrite A. discriminate.
Qed.

(** X25. Every zone that getZoneFromSource reads from loaded CSV data
    comes from a data line of the file, never from the header: the line
    is the last one whose first field trims to the ZIP code, its second
    field trims to the zone, and both fields are non-empty. *)
Theorem loadSourceCSV_last_line_wins (content zipCode z : jsstring) :
  getZoneFromSource (loadSourceCSV content) zipCode = SourceZone z ->
  exists header before line after zipField zoneField rest,
    split 10 (trim content) = header :: before ++ line :: after
    /\ split 44 line = zipField :: zoneField :: rest
    /\ zipField <> [] /\ zoneField <> []
    /\ trim zipField = zipCode /\ trim zoneField = z /\ z <> []
    /\ forall l v', In l after -> assigns l <> Some (zipCode, v').
Proof.
  unfold getZoneFromSource, loadSourceCSV.
  destruct (getOwn zipCode _) as [v|] eqn:G.
  - destruct (ZoneSelector.truthy v) eqn:T; [|discriminate].
    intros E; inversion E; subst v.
    destruct (load_last_wins _ _ _ G) as [[b [l [a [L [A Af]]]]] | [N _]];
      [|discriminate].
    destruct (split 10 (trim content)) as [|header lines] eqn:S;
      [destruct b; discriminate|].
    cbn [tl] in L. subst lines.
    unfold assigns in A.
    destruct (split 44 l) as [|zipField [|zoneField rest]] eqn:S2;
      try discriminate.
    destruct (ZoneSelector.truthy zipField) eqn:T1; [|discriminate].
    destruct (ZoneSelector.truthy zoneField) eqn:T2; [|discriminate].
    cbn [andb] in A.
    destruct (str_eqb (trim zipField) (u "__proto__")); [discriminate|].
    cbn [negb] in A. inversion A; subst.
    exists header, b, l, a, zipField, zoneField, rest.
    repeat split; auto.
    + intros C; subst; discriminate.
    + intros C; subst; discriminate.
    + intros C. rewrite C in T. discriminate.
  - destruct (existsb _ _); discriminate.
Qed.

Lemma loadSourceCSV_last_line_wins_witness :
  exists header before line after zipField zoneField rest,
    split 10 (trim (u "zipcode,zone" ++ [10%N] ++ u "01001,6a" ++ [10%N]
                      ++ u "01001, 6b " ++ [10%N]))
    = header :: before ++ line :: after
    /\ split 44 line = zipField :: zoneField :: rest
    /\ zipField <> [] /\ zoneField <> []
    /\ trim zipField = u "01001" /\ trim zoneField = u "6b" /\ u "6b" <> []
    /\ forall l v', In l after -> assigns l <> Some (u "01001", v').
Proof.
  apply (@loadSourceCSV_last_line_wins
           (u "zipcode,zone" ++ [10%N] ++ u "01001,6a" ++ [10%N]
              ++ u "01001, 6b " ++ [10%N])
           (u "01001") (u "6b")).
  vm_compute. reflexivity.
Defined.

End SuiteFacts.
